(** * tmux2html: the pane renderer of [tmux2html/main.py]

    A shallow embedding of [Renderer] (the stylesheet registry, the tag
    counter, text escaping, line wrapping, the per-pane rendering loop and
    the rendering of a tree of panes) and of the reading of the target and
    the pane selection done by [main], followed by the properties of the
    rendering pipeline.

    Python values are modelled as follows, with the meaning Python 3
    gives them.
    - [int] is [Z]; a unicode string is the list of its code points ([N]).
    - A slice [s[i:j]] is [py_slice], with Python's treatment of negative
      and out-of-range bounds written out.
    - An exception is the [Raise] outcome; a loop that needs more steps
      than the fuel it was given is the [Timeout] outcome.
    - [self.css] is an association list kept in insertion order.
    - [self.chunks] is the append-only list of output fragments; every
      fragment remembers which statement produced it ([chunk]), and
      [chunk_html] is the string Python appends. *)

From Stdlib Require Import String Ascii DecimalString DecimalZ HexadecimalString.
From Stdlib Require Import ZArith NArith Bool Lia List.
Import ListNotations.
Local Open Scope Z_scope.

(** ** Python strings and sequences *)

Abbreviation char := N (only parsing).
Abbreviation str := (list N) (only parsing).

(** An ASCII literal as a Python string. *)
Definition lit (s : string) : str := map N_of_ascii (list_ascii_of_string s).
Arguments lit s%_string.

(** The double quote character. *)
Definition dq : str := [34%N].

(** The line feed and the escape character. *)
Definition LF : char := 10%N.
Definition ESC : char := 27%N.

Definition len {A : Type} (s : list A) : Z := Z.of_nat (length s).

Fixpoint str_eqb (a b : str) : bool :=
  match a, b with
  | [], [] => true
  | x :: a', y :: b' => N.eqb x y && str_eqb a' b'
  | _, _ => false
  end.

(** Truth value of a sequence: non-empty. *)
Definition truthy {A : Type} (s : list A) : bool :=
  match s with [] => false | _ :: _ => true end.

(** [x in l] for a list of ints and for a list of strings. *)
Definition mem (x : Z) (l : list Z) : bool := existsb (Z.eqb x) l.
Definition mem_str (x : str) (l : list str) : bool := existsb (str_eqb x) l.

(** [l.remove(x)]: drops the first occurrence (the callers test [x in l]
    first, so the [ValueError] of a missing element is never reached). *)
Fixpoint remove_first (x : str) (l : list str) : list str :=
  match l with
  | [] => []
  | y :: l' => if str_eqb x y then l' else y :: remove_first x l'
  end.

(** A slice bound as Python resolves it against a sequence of length [n]. *)
Definition clamp_index (n i : Z) : Z :=
  if i <? 0 then Z.max (n + i) 0 else Z.min i n.

(** [s[lo:hi]]; [None] is an omitted bound. *)
Definition py_slice {A : Type} (s : list A) (lo hi : option Z) : list A :=
  let n := len s in
  let a := match lo with None => 0 | Some i => clamp_index n i end in
  let b := match hi with None => n | Some j => clamp_index n j end in
  firstn (Z.to_nat (b - a)) (skipn (Z.to_nat a) s).

(** [sep.join(l)]. *)
Fixpoint py_join (sep : str) (l : list str) : str :=
  match l with
  | [] => []
  | [x] => x
  | x :: l' => x ++ sep ++ py_join sep l'
  end.

(** [s * n] for a string and an int (empty when [n <= 0]). *)
Definition py_mul (s : str) (n : Z) : str :=
  concat (repeat s (Z.to_nat n)).

(** [s.split(c)] for a one-character separator. *)
Fixpoint py_split (c : char) (s : str) : list str :=
  match s with
  | [] => [[]]
  | x :: s' =>
      if N.eqb x c then [] :: py_split c s'
      else match py_split c s' with
           | [] => [[x]]
           | w :: ws => (x :: w) :: ws
           end
  end.

(** [s.find(c)]: the first index of [c], or -1. *)
Fixpoint py_find (c : char) (s : str) : Z :=
  match s with
  | [] => -1
  | x :: s' =>
      if N.eqb x c then 0
      else let i := py_find c s' in if i <? 0 then -1 else i + 1
  end.

(** [s.split(c, 1)] when [c] occurs in [s]: the part before the first
    [c] and the part after it. *)
Definition py_split1 (c : char) (s : str) : str * str :=
  let i := py_find c s in
  (py_slice s None (Some i), py_slice s (Some (i + 1)) None).

(** [str(n)] and the [d] format of an int. *)
Definition str_of_Z (n : Z) : str :=
  lit (DecimalString.NilZero.string_of_int (Z.to_int n)).

(** The [x] format of a non-negative int. *)
Definition hex_of_N (n : N) : str :=
  lit (HexadecimalString.NilZero.string_of_uint (N.to_hex_uint n)).

(** The [02x] format: the sign first, then zeros up to a width of two. *)
Definition hex02 (n : Z) : str :=
  let digits := hex_of_N (Z.to_N (Z.abs n)) in
  if n <? 0 then lit "-" ++ digits
  else if len digits <? 2 then lit "0" ++ digits else digits.

(** [s.replace(c, rep)] for a one-character pattern. *)
Definition py_replace (c : char) (rep : str) (s : str) : str :=
  flat_map (fun x => if N.eqb x c then rep else [x]) s.

(** [html.escape(s)] (quotes included, the default). *)
Definition escape (s : str) : str :=
  let s := py_replace 38%N (lit "&amp;") s in
  let s := py_replace 60%N (lit "&lt;") s in
  let s := py_replace 62%N (lit "&gt;") s in
  let s := py_replace 34%N (lit "&quot;") s in
  py_replace 39%N (lit "&#x27;") s.

(** ** Outcomes of a call *)

Inductive exn := TypeError | IndexError | ValueError.

Inductive outcome (A : Type) : Type :=
| Done (a : A)
| Raise (e : exn)
| Timeout.
Arguments Done {A} a.
Arguments Raise {A} e.
Arguments Timeout {A}.

Definition bind {A B : Type} (m : outcome A) (k : A -> outcome B) : outcome B :=
  match m with
  | Done a => k a
  | Raise e => Raise e
  | Timeout => Timeout
  end.

Notation "x <- m ;; k" := (bind m (fun x => k))
  (at level 61, m at next level, right associativity).
Notation "' p <- m ;; k" := (bind m (fun x => let p := x in k))
  (at level 61, p pattern, m at next level, right associativity).

(** [l[i]] for a list: a negative index counts from the end, an index
    outside the list raises [IndexError]. *)
Definition py_index {A : Type} (l : list A) (i : Z) : outcome A :=
  let j := if i <? 0 then i + len l else i in
  if (j <? 0) || (len l <=? j) then Raise IndexError
  else match nth_error l (Z.to_nat j) with
       | Some x => Done x
       | None => Raise IndexError
       end.

(** ** Colours, stylesheet values and output fragments *)

(** A colour reference: a terminal colour code or an RGB tuple. *)
Inductive color := Code (n : Z) | Rgb (r g b : Z).

(** A value of [self.css]: one declaration, or a list of them. *)
Inductive css_value := Decl (s : str) | Decls (l : list str).

(** A fragment appended to [self.chunks], by the statement that appends
    it: literal markup (tags), [self._escape_text(s)] of a literal run,
    a run of padding spaces, and the line feed. *)
Inductive chunk :=
| Markup (s : str)
| Text (s : str)
| Pad (s : str)
| Break.

(** The placeholder of [_escape_text] for one character. *)
Definition glyph (c : char) : str :=
  lit "<span class=" ++ dq ++ lit "u" ++ dq ++ lit " data-glyph=" ++ dq
  ++ lit "&#x" ++ hex_of_N c ++ lit ";" ++ dq ++ lit "> </span>".

(** [Renderer._escape_text]: [escape], then the substitution of every
    character in the range U+0080 to U+FFFF (the class of the pattern) by
    its placeholder. *)
Definition _escape_text (s : str) : str :=
  let s := escape s in
  flat_map (fun x => if (128 <=? x)%N && (x <=? 65535)%N then glyph x else [x]) s.

(** The string a fragment stands for. *)
Definition chunk_html (c : chunk) : str :=
  match c with
  | Markup s => s
  | Text s => _escape_text s
  | Pad s => s
  | Break => [LF]
  end.

(** [''.join(self.chunks)]. *)
Definition join_chunks (cs : list chunk) : str := concat (map chunk_html cs).

(** ** The SGR pattern *)

(** A match of the SGR pattern (ESC, an opening bracket, a group of
    characters other than m, then m): its span and its group 1. *)
Record sgr_match := mkMatch { m_start : Z; m_end : Z; m_group : str }.

(** Index of the first [m] of [s]. *)
Fixpoint find_m (s : str) : option nat :=
  match s with
  | [] => None
  | x :: s' => if N.eqb x 109%N then Some O else option_map S (find_m s')
  end.

(** The pattern tried at the head of [s]: [ESC], [[], then the longest run
    of characters other than [m], then [m]; the result is the length of
    the group. *)
Definition match_here (s : str) : option nat :=
  match s with
  | a :: b :: rest => if N.eqb a ESC && N.eqb b 91%N then find_m rest else None
  | _ => None
  end.

(** The matches from position [pos] on, left to right and not
    overlapping; [skip] characters belong to the match just found. *)
Fixpoint scan (skip : nat) (pos : Z) (s : str) : list sgr_match :=
  match s with
  | [] => []
  | _ :: s' =>
      match skip with
      | S k => scan k (pos + 1) s'
      | O =>
          match match_here s with
          | Some n =>
              mkMatch pos (pos + Z.of_nat n + 3) (firstn n (skipn 2 s))
              :: scan (n + 2) (pos + 1) s'
          | None => scan O (pos + 1) s'
          end
      end
  end.

(** [re.finditer] of the SGR pattern over [line]. *)
Definition finditer (line : str) : list sgr_match := scan O 0 line.

(** ** The renderer *)

(** The attributes of a [Renderer] that rendering reads and writes. *)
Record Renderer := mkRenderer {
  opened : Z;
  chunks : list chunk;
  css : list (str * css_value);
  esc_style : list Z
}.

Definition set_opened (n : Z) (r : Renderer) : Renderer :=
  mkRenderer n (chunks r) (css r) (esc_style r).
Definition set_esc_style (l : list Z) (r : Renderer) : Renderer :=
  mkRenderer (opened r) (chunks r) (css r) l.

(** [self.chunks.append(c)] and [self.chunks.extend(cs)]. *)
Definition append (c : chunk) (r : Renderer) : Renderer :=
  mkRenderer (opened r) (chunks r ++ [c]) (css r) (esc_style r).
Definition extend (cs : list chunk) (r : Renderer) : Renderer :=
  mkRenderer (opened r) (chunks r ++ cs) (css r) (esc_style r).

(** [d[key] = v] on a dict in insertion order. *)
Fixpoint dict_set (key : str) (v : css_value) (d : list (str * css_value))
  : list (str * css_value) :=
  match d with
  | [] => [(key, v)]
  | (k, v') :: d' =>
      if str_eqb k key then (k, v) :: d' else (k, v') :: dict_set key v d'
  end.

Definition dict_has (key : str) (d : list (str * css_value)) : bool :=
  existsb (fun kv => str_eqb (fst kv) key) d.

Definition set_css (key : str) (v : css_value) (r : Renderer) : Renderer :=
  mkRenderer (opened r) (chunks r) (dict_set key v (css r)) (esc_style r).

(** [Renderer.reset_css]: the static attribute classes. *)
Definition reset_css : list (str * css_value) :=
  [ (lit "su", Decl (lit "text-decoration:underline"));
    (lit "si", Decl (lit "font-style:italic"));
    (lit "sb", Decl (lit "font-weight:bold"));
    (lit "ns", Decls [ lit "-webkit-user-select:none";
                       lit "-moz-user-select:none";
                       lit "-ms-user-select:none";
                       lit "user-select:none" ]) ].

(** The renderer as [render_pane] sets it up before rendering. *)
Definition fresh : Renderer := mkRenderer 0 [] reset_css [].

(** [Renderer._style_classes]. *)
Definition _style_classes (styles : list Z) : list str :=
  (if mem 1 styles && negb (mem 22 styles) then [lit "sb"] else [])
  ++ (if mem 3 styles && negb (mem 23 styles) then [lit "si"] else [])
  ++ (if mem 4 styles && negb (mem 24 styles) then [lit "su"] else []).

(** [Renderer.close]. *)
Definition close (tag : str) (closeall : bool) (r : Renderer) : Renderer :=
  if 0 <? opened r then
    if closeall then
      set_opened 0
        (extend (repeat (Markup (lit "</" ++ tag ++ lit ">")) (Z.to_nat (opened r))) r)
    else
      append (Markup (lit "</" ++ tag ++ lit ">")) (set_opened (opened r - 1) r)
  else r.

(** The tag every call of [open] and [close] in the module uses. *)
Definition span : str := lit "span".

(** The test [not fg or fg < 16 or fg == 39] of [Renderer.open]: ordering
    a tuple against an int raises [TypeError]. *)
Definition plain_fg (fg : option color) : outcome bool :=
  match fg with
  | None => Done true
  | Some (Code n) => Done ((n =? 0) || (n <? 16) || (n =? 39))
  | Some (Rgb _ _ _) => Raise TypeError
  end.

Section Render.

(** [color.term_to_rgb] and [color.parse_escape] belong to a module that
    is not part of the sources read here; they are parameters of the
    renderer. [parse_escape] returns the new foreground and background
    and the style list as it leaves it. *)
Variable term_to_rgb : Z -> list Z -> Z * Z * Z.
Variable parse_escape :
  str -> option color -> option color -> list Z ->
  option color * option color * list Z.

(** [Renderer.rgbhex]. *)
Definition rgbhex (c : option color) (style : list Z) : str :=
  match c with
  | None => lit "none"
  | Some (Code n) =>
      if n =? 0 then lit "none"
      else let '(r, g, b) := term_to_rgb n style in
           lit "#" ++ hex02 r ++ hex02 g ++ hex02 b
  | Some (Rgb r g b) => lit "#" ++ hex02 r ++ hex02 g ++ hex02 b
  end.

(** [Renderer.update_css]: the key, and the renderer with the rule set. *)
Definition update_css (prefix : str) (color_code : option color) (r : Renderer)
  : str * Renderer :=
  match color_code with
  | None => ([], r)
  | Some cc =>
      let style :=
        if str_eqb prefix (lit "f") then lit "color" else lit "background-color" in
      let '(cc, key) :=
        match cc with
        | Code n =>
            let n :=
              if str_eqb prefix (lit "f") && mem 1 (esc_style r) && (n <? 8)
              then n + 8 else n in
            (Code n, prefix ++ str_of_Z n)
        | Rgb a b c =>
            (cc, prefix ++ lit "-rgb_" ++ py_join (lit "_") (map str_of_Z [a; b; c]))
        end in
      (key,
       set_css key (Decl (style ++ lit ": " ++ rgbhex (Some cc) (esc_style r) ++ lit ";")) r)
  end.

(** Lines 224 to 240 of [Renderer.open]: the class list of the tag. *)
Definition open_classes (fg bg : option color) (cls : option str) (r : Renderer)
  : outcome (list str * Renderer) :=
  let classes := match cls with
                 | Some c => if truthy c then [c] else []
                 | None => []
                 end in
  let '(fg, bg) := if mem 7 (esc_style r) then (bg, fg) else (fg, bg) in
  let '(k, r) := update_css (lit "f") fg r in
  let classes := if truthy k then classes ++ [k] else classes in
  let '(k, r) := update_css (lit "b") bg r in
  let classes := if truthy k then classes ++ [k] else classes in
  let classes := classes ++ _style_classes (esc_style r) in
  p <- plain_fg fg ;;
  let classes :=
    if p && mem 1 (esc_style r) && mem_str (lit "sb") classes
    then remove_first (lit "sb") classes else classes in
  Done (classes, r).

(** [Renderer.open]. *)
Definition open (fg bg : option color) (seq : option str) (tag : str)
  (cls : option str) (r : Renderer) : outcome Renderer :=
  '(classes, r) <- open_classes fg bg cls r ;;
  let r := set_opened (opened r + 1) r in
  let attrs :=
    (if truthy classes
     then [lit "class=" ++ dq ++ py_join (lit " ") classes ++ dq] else [])
    ++ (match seq with
        | Some s => if truthy s then [lit "data-seq=" ++ dq ++ s ++ dq] else []
        | None => []
        end) in
  Done (append (Markup (lit "<" ++ tag ++ lit " " ++ py_join (lit " ") attrs ++ lit ">")) r).

(** One turn of the loop of [Renderer._wrap_line]. *)
Definition wrap_body (maxlength : Z) (st : Z * Z * str * Renderer)
  : Z * Z * str * Renderer :=
  let '(line_c, length, line, r) := st in
  let cut := maxlength - length in
  let r := append (Text (py_slice line None (Some cut))) r in
  let r := append Break r in
  let line := py_slice line (Some cut) None in
  let length := len line in
  (line_c + 1, length, line, r).

(** The loop test [length and length > maxlength]. *)
Definition wrap_test (maxlength : Z) (st : Z * Z * str * Renderer) : bool :=
  let '(_, length, _, _) := st in
  negb (length =? 0) && (maxlength <? length).

Fixpoint wrap_loop (fuel : nat) (maxlength : Z) (st : Z * Z * str * Renderer)
  : outcome (Z * Z * str * Renderer) :=
  if wrap_test maxlength st then
    match fuel with
    | O => Timeout
    | S fuel' => wrap_loop fuel' maxlength (wrap_body maxlength st)
    end
  else Done st.

(** [Renderer._wrap_line]: the lines cut, the new length, the rest of the
    line, and the renderer. *)
Definition _wrap_line (fuel : nat) (line : str) (length maxlength : Z) (r : Renderer)
  : outcome (Z * Z * str * Renderer) :=
  wrap_loop fuel maxlength (0, length, line, r).

(** The local variables of [Renderer._render] that live across lines,
    with the renderer. *)
Record frame := mkFrame {
  cur_fg : option color;
  cur_bg : option color;
  line_c : Z;
  rd : Renderer
}.

(** The loop over the matches of one line (lines 304 to 328); [last_i]
    and [line_l] are threaded beside the frame. *)
Fixpoint render_matches (fuel : nat) (w : Z) (line : str) (ms : list sgr_match)
  (last_i line_l : Z) (f : frame) : outcome (Z * Z * frame) :=
  match ms with
  | [] => Done (last_i, line_l, f)
  | m :: ms' =>
      let c := py_slice line (Some last_i) (Some (m_start m)) in
      r <- (if truthy c && (last_i =? 0) && (opened (rd f) =? 0)
            then open (cur_fg f) (cur_bg f) None span None (rd f)
            else Done (rd f)) ;;
      let c_len := len c in
      let line_l := line_l + c_len in
      '(nl, line_l, c, r) <- _wrap_line fuel c line_l w r ;;
      let line_c := line_c f + nl in
      let r := append (Text c) r in
      let r := if last_i =? 0 then close span false r else r in
      let last_i' := m_end m in
      let '(fg, bg, sty) :=
        parse_escape (m_group m) (cur_fg f) (cur_bg f) (esc_style r) in
      let r := set_esc_style sty r in
      let r := close span false r in
      r <- open fg bg (Some (m_group m)) span None r ;;
      render_matches fuel w line ms' last_i' line_l (mkFrame fg bg line_c r)
  end.

(** Lines 330 to 349: the run after the last match, and the padding. *)
Definition render_tail (fuel : nat) (size : Z * Z) (line : str)
  (last_i line_l : Z) (f : frame) : outcome (str * frame) :=
  let c := py_slice line (Some last_i) None in
  let c_len := len c in
  let line_l := line_l + c_len in
  '(pad, c, line_c, r) <-
    (if truthy c || negb (c_len =? fst size) then
       r <- (if opened (rd f) =? 0
             then open (cur_fg f) (cur_bg f) None span None (rd f)
             else Done (rd f)) ;;
       '(nl, line_l, c, r) <- _wrap_line fuel c line_l (fst size) r ;;
       if line_c f + nl <? snd size
       then Done (py_mul (lit " ") (fst size - line_l), c, line_c f + nl, r)
       else Done ([], c, line_c f, r)
     else Done ([], c, line_c f, rd f)) ;;
  let r := append (Text c) r in
  let r := close span true r in
  r <- (if truthy pad then
          r <- open None None None span (Some (lit "ns")) r ;;
          Done (close span false (append (Pad pad) r))
        else Done r) ;;
  Done (c, mkFrame (cur_fg f) (cur_bg f) line_c r).

(** The body of the loop over the lines (lines 302 to 353). *)
Definition render_line (fuel : nat) (size : Z * Z) (nlines line_i : Z)
  (line : str) (f : frame) : outcome frame :=
  '(last_i, line_l, f) <- render_matches fuel (fst size) line (finditer line) 0 0 f ;;
  '(c, f) <- render_tail fuel size line last_i line_l f ;;
  if truthy c || (line_i <? nlines - 1)
  then Done (mkFrame (cur_fg f) (cur_bg f) (line_c f + 1) (append Break (rd f)))
  else Done f.

(** [for line_i, line in enumerate(lines)]. *)
Fixpoint render_lines (fuel : nat) (size : Z * Z) (nlines line_i : Z)
  (lines : list str) (f : frame) : outcome frame :=
  match lines with
  | [] => Done f
  | line :: rest =>
      f <- render_line fuel size nlines line_i line f ;;
      render_lines fuel size nlines (line_i + 1) rest f
  end.

(** The loop of lines 357 to 360; it runs [size[1] - line_c] times. *)
Fixpoint fill (n : nat) (size : Z * Z) (line_c : Z) (r : Renderer) : Z * Renderer :=
  match n with
  | O => (line_c, r)
  | S n' =>
      if line_c <? snd size
      then fill n' size (line_c + 1)
             (append Break (append (Pad (py_mul (lit " ") (fst size))) r))
      else (line_c, r)
  end.

(** [Renderer._render]. *)
Definition _render (fuel : nat) (s : str) (size : Z * Z) (r : Renderer)
  : outcome Renderer :=
  let r := set_esc_style [] r in
  let r := append (Markup (lit "<pre>")) r in
  let lines := py_split LF s in
  f <- render_lines fuel size (len lines) 0 lines (mkFrame None None 0 r) ;;
  r <- (if line_c f <? snd size then
          r <- open None None None span (Some (lit "ns")) (rd f) ;;
          let '(_, r) := fill (Z.to_nat (snd size - line_c f)) size (line_c f) r in
          Done (close span true r)
        else Done (rd f)) ;;
  Done (append (Markup (lit "</pre>")) r).

End Render.

(** ** Pane selection in [main] *)

(** A pane as [main] and [_render_pane] read it: identifier, offset,
    size (width, height), sub-panes and orientation. *)
#[local] Set Warnings "-register-all".
Inductive Pane :=
| mkPane (identifier : Z) (x y : Z) (size : Z * Z) (panes : list Pane) (vertical : bool).

Definition panes_of (p : Pane) : list Pane :=
  match p with mkPane _ _ _ _ ps _ => ps end.

(** ASCII white space, as [int] strips it. *)
Definition is_space (c : char) : bool :=
  (N.eqb c 32 || (N.leb 9 c && N.leb c 13) || (N.leb 28 c && N.leb c 31))%N.

Fixpoint lstrip (s : str) : str :=
  match s with
  | c :: s' => if is_space c then lstrip s' else s
  | [] => []
  end.

Definition strip (s : str) : str := rev (lstrip (rev (lstrip s))).

Definition digit (c : char) : option Z :=
  if (N.leb 48 c && N.leb c 57)%N then Some (Z.of_N (c - 48)) else None.

(** Decimal digits, single underscores allowed between two of them. *)
Fixpoint digits (acc : Z) (after_digit : bool) (s : str) : option Z :=
  match s with
  | [] => if after_digit then Some acc else None
  | c :: s' =>
      match digit c with
      | Some d => digits (10 * acc + d) true s'
      | None => if N.eqb c 95%N && after_digit then digits acc false s' else None
      end
  end.

(** [int(s)] for an ASCII string: white space around an optional sign
    and decimal digits; anything else raises [ValueError]. *)
Definition py_int (s : str) : outcome Z :=
  let s := strip s in
  let '(neg, s) := match s with
                   | c :: s' => if N.eqb c 45%N then (true, s')
                                else if N.eqb c 43%N then (false, s')
                                else (false, s)
                   | [] => (false, s)
                   end in
  match digits 0 false s with
  | Some n => Done (if neg then - n else n)
  | None => Raise ValueError
  end.

(** Lines 423 to 434 of [main]: the target split into session, window
    and pane index. *)
Definition parse_target (target : str) : outcome (option str * Z * option Z) :=
  let window := target in
  let '(session, window) :=
    if negb (py_find 58%N window =? -1)
    then let '(a, b) := py_split1 58%N window in (Some a, b)
    else (None, window) in
  if negb (py_find 46%N window =? -1) then
    let '(window, pane) := py_split1 46%N window in
    window <- py_int window ;;
    pane <- py_int pane ;;
    Done (session, window, Some pane)
  else
    window <- py_int window ;;
    Done (session, window, None).

Section Select.

(** [utils.get_layout] asks tmux for the layout of a window and
    [utils.pane_list] flattens a pane tree; both belong to a module that is
    not part of the sources read here. *)
Variable get_layout : Z -> option str -> Pane.
Variable pane_list : Pane -> list Pane.

(** Lines 423 to 440 of [main]: the pane that is rendered. *)
Definition select_pane (target : str) : outcome Pane :=
  '(session, window, pane) <- parse_target target ;;
  let root := get_layout window session in
  match pane with
  | Some i => py_index (pane_list root) i
  | None => Done root
  end.

End Select.

(** ** The tree of panes *)

Definition identifier_of (p : Pane) : Z :=
  match p with mkPane i _ _ _ _ _ => i end.
Definition x_of (p : Pane) : Z :=
  match p with mkPane _ x _ _ _ _ => x end.
Definition y_of (p : Pane) : Z :=
  match p with mkPane _ _ y _ _ _ => y end.
Definition size_of (p : Pane) : Z * Z :=
  match p with mkPane _ _ _ s _ _ => s end.

(** The opening tag of the block of a leaf pane (lines 400 and 401). *)
Definition pane_div (identifier : Z) (size : Z * Z) : str :=
  lit "<div id=" ++ dq ++ lit "p" ++ str_of_Z identifier ++ dq
  ++ lit " class=" ++ dq ++ lit "pane" ++ dq
  ++ lit " data-size=" ++ dq
  ++ py_join (lit ",") (map str_of_Z [fst size; snd size]) ++ dq ++ lit ">".

(** The cell a separator repeats: a placeholder for a box-drawing
    character, followed by a line feed when the separator stands between
    two columns. *)
Definition sep_cell (vertical : bool) : str :=
  if vertical
  then lit "<span class=" ++ dq ++ lit "u ns" ++ dq ++ lit " data-glyph=" ++ dq
       ++ lit "&#x2500" ++ dq ++ lit "> </span>"
  else lit "<span class=" ++ dq ++ lit "u ns" ++ dq ++ lit " data-glyph=" ++ dq
       ++ lit "&#x2502" ++ dq ++ lit "> </span>" ++ [LF].

Section RenderPane.

Variable term_to_rgb : Z -> list Z -> Z * Z * Z.
Variable parse_escape :
  str -> option color -> option color -> list Z ->
  option color * option color * list Z.

(** [utils.get_contents] asks tmux for the text of a pane; it belongs to
    a module that is not part of the sources read here. *)
Variable get_contents : str -> str.

(** [Renderer._add_separator]. *)
Definition _add_separator (vertical : bool) (size : Z) (r : Renderer)
  : outcome Renderer :=
  let cls := if vertical then lit "v" else lit "h" in
  let rep := sep_cell vertical in
  let r := append (Markup (lit "<div class=" ++ dq ++ cls ++ lit " sep" ++ dq
                           ++ lit "><pre>")) r in
  r <- open term_to_rgb None None None span None r ;;
  let r := append (Markup (py_mul rep size)) r in
  let r := close span false r in
  Done (append (Markup (lit "</pre></div>")) r).

(** The loop of lines 391 to 396 over the sub-panes of a pane at offset
    [(x, y)]; [render] is the recursive call. *)
Fixpoint render_children (render : Pane -> Renderer -> outcome Renderer)
  (x y : Z) (ps : list Pane) (r : Renderer) : outcome Renderer :=
  match ps with
  | [] => Done r
  | p :: ps' =>
      r <- (if negb (x_of p =? 0) && (x <? x_of p)
            then _add_separator false (snd (size_of p)) r else Done r) ;;
      r <- (if negb (y_of p =? 0) && (y <? y_of p)
            then _add_separator true (fst (size_of p)) r else Done r) ;;
      r <- render p r ;;
      render_children render x y ps' r
  end.

(** [Renderer._render_pane]. *)
Fixpoint _render_pane (fuel : nat) (pane : Pane) (r : Renderer) {struct pane}
  : outcome Renderer :=
  match pane with
  | mkPane identifier x y size panes vertical =>
      if truthy panes then
        let r :=
          append (Markup (if vertical
                          then lit "<div class=" ++ dq ++ lit "v" ++ dq ++ lit ">"
                          else lit "<div class=" ++ dq ++ lit "h" ++ dq ++ lit ">")) r in
        r <- render_children (_render_pane fuel) x y panes r ;;
        Done (append (Markup (lit "</div>")) r)
      else
        let r := append (Markup (pane_div identifier size)) r in
        r <- _render term_to_rgb parse_escape fuel
               (get_contents (lit "%" ++ str_of_Z identifier)) size r ;;
        Done (append (Markup (lit "</div>")) r)
  end.

(** [Renderer.render_pane] up to the call of the template: the renderer
    whose buffer and registry the document is made of. *)
Definition render_pane (fuel : nat) (pane : Pane) (r : Renderer) : outcome Renderer :=
  let r := set_opened 0 r in
  let r := mkRenderer (opened r) [] (css r) (esc_style r) in
  let r := mkRenderer (opened r) (chunks r) reset_css (esc_style r) in
  _render_pane fuel pane r.

End RenderPane.

(** ** The modules [utils] and [color], for the examples *)

Module Utils.

(** Modelled from the spec: [utils.pane_list] is missing from the sources;
    a pane index selects the n-th leaf pane in depth-first document order
    of the tree, so the list holds the leaves in that order. *)
Fixpoint pane_list (p : Pane) : list Pane :=
  match p with
  | mkPane _ _ _ _ ps _ =>
      match ps with
      | [] => [p]
      | _ :: _ => flat_map pane_list ps
      end
  end.

End Utils.

Module Color.

(** Modelled from the spec: [color.term_to_rgb] is missing from the
    sources; codes 0 to 7 and 8 to 15 index a palette of sixteen entries,
    16 to 231 a 6 by 6 by 6 colour cube and 232 to 255 a ramp of 24 greys.
    The spec fixes no palette; the xterm defaults stand in for it. *)
Definition term_to_rgb (n : Z) (style : list Z) : Z * Z * Z :=
  let level i := if i =? 0 then 0 else 55 + 40 * i in
  if n <? 8 then
    ((if Z.testbit n 0 then 205 else 0),
     (if Z.testbit n 1 then 205 else 0),
     (if Z.testbit n 2 then 205 else 0))
  else if n <? 16 then
    ((if Z.testbit n 0 then 255 else 85),
     (if Z.testbit n 1 then 255 else 85),
     (if Z.testbit n 2 then 255 else 85))
  else if n <? 232 then
    (level ((n - 16) / 36), level ((n - 16) / 6 mod 6), level ((n - 16) mod 6))
  else (8 + 10 * (n - 232), 8 + 10 * (n - 232), 8 + 10 * (n - 232)).

(** [l] with [x] added unless it is there, and with [x] taken out. *)
Definition style_set (x : Z) (l : list Z) : list Z :=
  if mem x l then l else l ++ [x].
Definition style_clear (x : Z) (l : list Z) : list Z :=
  filter (fun y => negb (y =? x)) l.

(** The codes of a parameter string: its pieces between semicolons that
    are decimal numbers; [None] marks a piece that is none. *)
Definition sgr_codes (s : str) : list (option Z) :=
  map (fun p => digits 0 false p) (py_split 59%N s).

(** Modelled from the spec: [color.parse_escape] is missing from the
    sources. The codes are read left to right: 0 resets; 1, 3, 4 and 7 set
    bold, italic, underline and reverse; 22, 23, 24 and 27 clear them; 30
    to 37 and 40 to 47 are the basic colours, 90 to 97 and 100 to 107
    the bright ones; 38;5;N and 48;5;N pick a palette entry, 38;2;R;G;B
    and 48;2;R;G;B a colour; 39 and 49 leave the default marker; any other
    code is ignored. *)
Fixpoint parse_codes (fuel : nat) (codes : list (option Z))
  (fg bg : option color) (style : list Z)
  : option color * option color * list Z :=
  match fuel with
  | O => (fg, bg, style)
  | S fuel' =>
      match codes with
      | [] => (fg, bg, style)
      | None :: rest => parse_codes fuel' rest fg bg style
      | Some c :: rest =>
          if c =? 0 then parse_codes fuel' rest None None []
          else if (c =? 1) || (c =? 3) || (c =? 4) || (c =? 7)
          then parse_codes fuel' rest fg bg (style_set c style)
          else if c =? 22 then parse_codes fuel' rest fg bg (style_clear 1 style)
          else if c =? 23 then parse_codes fuel' rest fg bg (style_clear 3 style)
          else if c =? 24 then parse_codes fuel' rest fg bg (style_clear 4 style)
          else if c =? 27 then parse_codes fuel' rest fg bg (style_clear 7 style)
          else if (30 <=? c) && (c <=? 37)
          then parse_codes fuel' rest (Some (Code (c - 30))) bg style
          else if (40 <=? c) && (c <=? 47)
          then parse_codes fuel' rest fg (Some (Code (c - 40))) style
          else if (90 <=? c) && (c <=? 97)
          then parse_codes fuel' rest (Some (Code (c - 90 + 8))) bg style
          else if (100 <=? c) && (c <=? 107)
          then parse_codes fuel' rest fg (Some (Code (c - 100 + 8))) style
          else if c =? 39 then parse_codes fuel' rest (Some (Code 39)) bg style
          else if c =? 49 then parse_codes fuel' rest fg (Some (Code 49)) style
          else if (c =? 38) || (c =? 48) then
            match rest with
            | Some 5 :: Some n :: rest' =>
                if c =? 38 then parse_codes fuel' rest' (Some (Code n)) bg style
                else parse_codes fuel' rest' fg (Some (Code n)) style
            | Some 2 :: Some r :: Some g :: Some b :: rest' =>
                if c =? 38 then parse_codes fuel' rest' (Some (Rgb r g b)) bg style
                else parse_codes fuel' rest' fg (Some (Rgb r g b)) style
            | _ => parse_codes fuel' rest fg bg style
            end
          else parse_codes fuel' rest fg bg style
      end
  end.

Definition parse_escape (s : str) (fg bg : option color) (style : list Z)
  : option color * option color * list Z :=
  let codes := sgr_codes s in
  parse_codes (length codes) codes fg bg style.

End Color.

(** ** Measuring the output *)

(** The cells a fragment occupies on its row: one per character of a
    literal run (a placeholder of [_escape_text] is one cell wide) and one
    per padding space; markup occupies none. *)
Definition width (c : chunk) : Z :=
  match c with
  | Text s => len s
  | Pad s => len s
  | Markup _ => 0
  | Break => 0
  end.

(** The grid a sequence of fragments draws: the widths of the rows a line
    feed has ended, top to bottom, and the width of the row being
    written. *)
Definition grid_step (g : list Z * Z) (c : chunk) : list Z * Z :=
  match c with
  | Break => (fst g ++ [snd g], 0)
  | _ => (fst g, snd g + width c)
  end.

Definition grid_from (g : list Z * Z) (cs : list chunk) : list Z * Z :=
  fold_left grid_step cs g.

Definition grid (cs : list chunk) : list Z * Z := grid_from ([], 0) cs.

Definition is_pad (c : chunk) : bool :=
  match c with Pad _ => true | _ => false end.

Definition is_markup (c : chunk) : bool :=
  match c with Markup _ => true | _ => false end.

(** The number of padding runs among the fragments. *)
Definition pads (cs : list chunk) : Z := len (filter is_pad cs).

Fixpoint is_prefix (p s : str) : bool :=
  match p, s with
  | [], _ => true
  | x :: p', y :: s' => N.eqb x y && is_prefix p' s'
  | _ :: _, [] => false
  end.

(** Opening and closing [span] tags among the fragments. *)
Definition is_open_tag (c : chunk) : bool :=
  match c with Markup s => is_prefix (lit "<span ") s | _ => false end.

Definition is_close_tag (c : chunk) : bool :=
  match c with Markup s => str_eqb s (lit "</span>") | _ => false end.

Definition opens (r : Renderer) : Z := len (filter is_open_tag (chunks r)).
Definition closes (r : Renderer) : Z := len (filter is_close_tag (chunks r)).

(** The fragments end with a run of [n] padding spaces inside a [span]
    whose class list starts with the non-selectable class. *)
Definition ends_with_ns_pad (n : Z) (cs : list chunk) : Prop :=
  exists pre tag,
    cs = pre ++ [Markup tag; Pad (py_mul (lit " ") n); Markup (lit "</span>")]
    /\ is_prefix (lit "<span class=" ++ dq ++ lit "ns") tag = true.

(** ** The literal runs of a line *)

(** The literal runs before each match, and the run after the last one,
    as the loop over the matches slices them. *)
Fixpoint runs (line : str) (ms : list sgr_match) (last_i : Z) : list str * str :=
  match ms with
  | [] => ([], py_slice line (Some last_i) None)
  | m :: ms' =>
      let '(rs, t) := runs line ms' (m_end m) in
      (py_slice line (Some last_i) (Some (m_start m)) :: rs, t)
  end.



(** [ceil(k / w)]. *)
Definition ceil_div (k w : Z) : Z := (k + w - 1) / w.



(** A colour reference that is no RGB tuple. *)
Definition is_code (c : option color) : bool :=
  match c with Some (Rgb _ _ _) => false | _ => true end.

(** No SGR sequence of the text makes a colour an RGB tuple. *)
Definition code_only
  (parse_escape : str -> option color -> option color -> list Z ->
                  option color * option color * list Z) (s : str) : Prop :=
  forall line m fg bg sty,
    In line (py_split LF s) -> In m (finditer line) ->
    is_code fg = true -> is_code bg = true ->
    is_code (fst (fst (parse_escape (m_group m) fg bg sty))) = true
    /\ is_code (snd (fst (parse_escape (m_group m) fg bg sty))) = true.

Section Reach.

Variable term_to_rgb : Z -> list Z -> Z * Z * Z.


End Reach.

(** The fragments [_wrap_line] appends for the slices it cuts. *)
Definition cut_chunks (slices : list str) : list chunk :=
  flat_map (fun s => [Text s; Break]) slices.

(** The colour reference [open] takes as foreground once reverse video
    has swapped the pair. *)
Definition effective_fg (fg bg : option color) (r : Renderer) : option color :=
  if mem 7 (esc_style r) then bg else fg.

(** The end of the last match, as the loop over the matches leaves it in
    [last_i]. *)
Fixpoint last_end (ms : list sgr_match) (last_i : Z) : Z :=
  match ms with
  | [] => last_i
  | m :: ms' => last_end ms' (m_end m)
  end.

(** The cells of a list of runs. *)
Definition run_cells (rs : list str) : Z :=
  fold_right (fun r n => len r + n) 0 rs.

(** A renderer whose buffer draws the grid [g] with [p] padding runs, and
    whose tag counter is not negative. *)
Definition tidy (r : Renderer) (g : list Z * Z) (p : Z) : Prop :=
  grid (chunks r) = g /\ pads (chunks r) = p /\ 0 <= opened r.

(** Both colours of a frame are colour codes or absent. *)
Definition code_frame (f : frame) : Prop :=
  is_code (cur_fg f) = true /\ is_code (cur_bg f) = true.

(** The SGR sequences of [ms] keep colour codes colour codes. *)
Definition codes_kept
  (parse_escape : str -> option color -> option color -> list Z ->
                  option color * option color * list Z)
  (ms : list sgr_match) : Prop :=
  forall m fg bg sty,
    In m ms -> is_code fg = true -> is_code bg = true ->
    is_code (fst (fst (parse_escape (m_group m) fg bg sty))) = true
    /\ is_code (snd (fst (parse_escape (m_group m) fg bg sty))) = true.


(** ** Notions for the further properties *)

(** [d.get(key)] on a dict in insertion order. *)
Fixpoint dict_get (key : str) (d : list (str * css_value)) : option css_value :=
  match d with
  | [] => None
  | (k, v) :: d' => if str_eqb k key then Some v else dict_get key d'
  end.

(** A character [html.escape] and the pattern of [_escape_text] leave
    alone: ASCII, and none of the five characters of markup. *)
Definition plain_char (c : N) : bool :=
  (N.ltb c 128 && negb (N.eqb c 38) && negb (N.eqb c 60) && negb (N.eqb c 62)
   && negb (N.eqb c 34) && negb (N.eqb c 39))%N.

(** A colour channel in the range of a byte. *)
Definition byte_range (n : Z) : bool := (0 <=? n) && (n <=? 255).

(** A lowercase hexadecimal digit. *)
Definition is_hex_digit (c : N) : bool :=
  ((N.leb 48 c && N.leb c 57) || (N.leb 97 c && N.leb c 102))%N.

(** A colour reference whose channels, as [rgbhex] formats them, are in
    the range of a byte. *)
Definition channels_in_range (term_to_rgb : Z -> list Z -> Z * Z * Z)
  (c : option color) (style : list Z) : bool :=
  match c with
  | None => true
  | Some (Code n) =>
      let '(r, g, b) := term_to_rgb n style in
      byte_range r && byte_range g && byte_range b
  | Some (Rgb r g b) => byte_range r && byte_range g && byte_range b
  end.

(** The test [not c] of [rgbhex]: no colour, or the colour code 0. *)
Definition falsy_color (c : option color) : bool :=
  match c with
  | None => true
  | Some (Code n) => n =? 0
  | Some (Rgb _ _ _) => false
  end.

(** What one character of a literal run becomes in the output: the
    entity of a character of markup, the placeholder of a character from
    U+0080 to U+FFFF, or the character itself. *)
Definition char_html (c : N) : str :=
  if N.eqb c 38 then lit "&amp;"
  else if N.eqb c 60 then lit "&lt;"
  else if N.eqb c 62 then lit "&gt;"
  else if N.eqb c 34 then lit "&quot;"
  else if N.eqb c 39 then lit "&#x27;"
  else if (128 <=? c)%N && (c <=? 65535)%N then glyph c
  else [c].

(** The opening [span] tags of the buffer that are neither closed in the
    buffer nor counted as open. *)
Definition span_level (r : Renderer) : Z := opens r - closes r - opened r.

(** A fragment of the block of a pane: a literal run, padding, a line
    feed, a [span] tag or a [pre] tag. *)
Definition block_chunk (c : chunk) : bool :=
  match c with
  | Markup s =>
      is_prefix (lit "<span ") s || str_eqb s (lit "</span>")
      || str_eqb s (lit "<pre>") || str_eqb s (lit "</pre>")
  | _ => true
  end.

(** What every operation of a render pass keeps of a renderer: the
    buffer only grows at its end, by fragments of a block; no class leaves
    the registry, the rules of the keys that start with neither [f] nor
    [b] stay as they are, the tag counter stays non-negative, and the tags
    stay accounted for. *)
Definition keeps (r r' : Renderer) : Prop :=
  (exists out, chunks r' = chunks r ++ out /\ forallb block_chunk out = true)
  /\ (forall k, dict_has k (css r) = true -> dict_has k (css r') = true)
  /\ (forall k, is_prefix (lit "f") k = false -> is_prefix (lit "b") k = false ->
                dict_get k (css r') = dict_get k (css r))
  /\ (0 <= opened r -> 0 <= opened r')
  /\ span_level r' = span_level r.

(** A fragment that is no [span] tag. *)
Definition no_tag (c : chunk) : bool :=
  negb (is_open_tag c) && negb (is_close_tag c).

(** The line put together again from what the loop over the matches
    slices out of it: each literal run, each matched sequence, and the run
    after the last match. *)
Fixpoint reassemble (line : str) (ms : list sgr_match) (last_i : Z) : str :=
  match ms with
  | [] => py_slice line (Some last_i) None
  | m :: ms' =>
      py_slice line (Some last_i) (Some (m_start m))
      ++ py_slice line (Some (m_start m)) (Some (m_end m))
      ++ reassemble line ms' (m_end m)
  end.

(** A match spans an SGR sequence: [ESC], [[], a group free of [m],
    then [m]. *)
Definition sgr_shaped (line : str) (m : sgr_match) : Prop :=
  py_slice line (Some (m_start m)) (Some (m_end m))
  = [ESC; 91%N] ++ m_group m ++ [109%N]
  /\ ~ In 109%N (m_group m).

(** The renderer [r] with the fragments [pre] put before its buffer. *)
Definition prepend (pre : list chunk) (r : Renderer) : Renderer :=
  mkRenderer (opened r) (pre ++ chunks r) (css r) (esc_style r).

Definition prepend_frame (pre : list chunk) (f : frame) : frame :=
  mkFrame (cur_fg f) (cur_bg f) (line_c f) (prepend pre (rd f)).

(** The outcome [m] with [g] applied to its result. *)
Definition omap {A B : Type} (g : A -> B) (m : outcome A) : outcome B :=
  match m with
  | Done a => Done (g a)
  | Raise e => Raise e
  | Timeout => Timeout
  end.

(** The renderer [r] with an empty buffer. *)
Definition unbuffered (r : Renderer) : Renderer :=
  mkRenderer (opened r) [] (css r) (esc_style r).

(** The panes [_render_pane] renders as leaves, in the order in which its
    recursion reaches them. *)
Fixpoint leaves (pane : Pane) : list Pane :=
  match pane with
  | mkPane _ _ _ _ panes _ =>
      if truthy panes then flat_map leaves panes else [pane]
  end.

Definition pane_tag (p : Pane) : chunk :=
  Markup (pane_div (identifier_of p) (size_of p)).

(** The tags of [div] elements among the fragments: the opening tag of a
    leaf block, any opening tag, and the fragments that close one. *)
Definition is_pane_div (c : chunk) : bool :=
  match c with Markup s => is_prefix (lit "<div id=") s | _ => false end.

Definition is_div_open (c : chunk) : bool :=
  match c with Markup s => is_prefix (lit "<div ") s | _ => false end.

Definition is_div_close (c : chunk) : bool :=
  match c with
  | Markup s => str_eqb s (lit "</div>") || str_eqb s (lit "</pre></div>")
  | _ => false
  end.

(** What rendering a tree of panes with leaves [ls] does to a renderer:
    the buffer grows at its end, by the blocks of the leaves in their
    order and as many closing as opening [div] tags; no class leaves the
    registry and the rules of the keys that start with neither [f] nor [b]
    stay as they are; a tag counter at zero is left at zero. *)
Definition arranges (r r' : Renderer) (ls : list Pane) : Prop :=
  (exists out,
      chunks r' = chunks r ++ out
      /\ filter is_pane_div out = map pane_tag ls
      /\ len (filter is_div_open out) = len (filter is_div_close out))
  /\ (forall k, dict_has k (css r) = true -> dict_has k (css r') = true)
  /\ (forall k, is_prefix (lit "f") k = false -> is_prefix (lit "b") k = false ->
                dict_get k (css r') = dict_get k (css r))
  /\ (0 <= opened r -> 0 <= opened r')
  /\ (opened r = 0 -> opened r' = 0).

(** A leaf whose text can be rendered: the pane is at least one cell wide,
    the fuel covers the text, and the text makes no colour a tuple. *)
Definition renders
  (parse_escape : str -> option color -> option color -> list Z ->
                  option color * option color * list Z)
  (get_contents : str -> str) (fuel : nat) (p : Pane) : Prop :=
  1 <= fst (size_of p)
  /\ len (get_contents (lit "%" ++ str_of_Z (identifier_of p))) <= Z.of_nat fuel
  /\ code_only parse_escape (get_contents (lit "%" ++ str_of_Z (identifier_of p))).



(** An ASCII decimal digit. *)
Definition is_digit (c : N) : bool := (N.leb 48 c && N.leb c 57)%N.

(** A tag that ends with the attribute [data-seq] holding [seq] as it
    is. *)
Definition seq_tag (pre seq : str) : chunk :=
  Markup (pre ++ lit "data-seq=" ++ dq ++ seq ++ dq ++ lit ">").

(** The literal text among the fragments, in their order. *)
Definition text_of (cs : list chunk) : str :=
  flat_map (fun c => match c with Text s => s | _ => [] end) cs.

(** The characters of a line outside its SGR sequences. *)
Definition visible_text (line : str) : str :=
  let '(rs, t) := runs line (finditer line) 0 in concat rs ++ t.

(** A pass from [r] to [r'] appends fragments whose literal text is
    [t]. *)
Definition writes (r r' : Renderer) (t : str) : Prop :=
  exists out, chunks r' = chunks r ++ out /\ text_of out = t.

(** The line feeds among the fragments. *)
Definition is_break (c : chunk) : bool :=
  match c with Break => true | _ => false end.

Definition breaks (cs : list chunk) : Z := len (filter is_break cs).

(** A pass from [r] to [r'] appends at least [n] line feeds. *)
Definition feeds (r r' : Renderer) (n : Z) : Prop :=
  exists out, chunks r' = chunks r ++ out /\ n <= breaks out.

(** ** Example data *)

(** A window of four leaf panes: one on the left, three stacked on the
    right. *)
Definition window4 : Pane :=
  mkPane 0 0 0 (80, 24)
    [ mkPane 1 0 0 (40, 24) [] false;
      mkPane 5 41 0 (39, 24)
        [ mkPane 2 41 0 (39, 8) [] false;
          mkPane 3 41 9 (39, 7) [] false;
          mkPane 4 41 17 (39, 7) [] false ]
        true ]
    false.

(** A bold red run, a reset and plain text, on two lines. *)
Definition styled_text : str :=
  [ESC] ++ lit "[1;31mHI" ++ [ESC] ++ lit "[0m there" ++ [LF] ++ lit "plain".


(** The line of the second scenario of the spec: [HI ] in bold red. *)
Definition styled_line : str :=
  [ESC] ++ lit "[1;31mHI " ++ [ESC] ++ lit "[0m".

(** A window of two leaf panes side by side, and their texts. *)
Definition window2 : Pane :=
  mkPane 0 0 0 (5, 1)
    [ mkPane 1 0 0 (2, 1) [] false;
      mkPane 2 3 0 (2, 1) [] false ]
    false.

Definition two_texts (name : str) : str :=
  if str_eqb name (lit "%1") then lit "ab" else lit "c".

(** * Properties *)

(** ** Slices, buffers and the grid *)

Lemma len_nonneg {A : Type} (s : list A) : 0 <= len s.
Proof. unfold len. lia. Qed.

Lemma len_app {A : Type} (a b : list A) : len (a ++ b) = len a + len b.
Proof. unfold len. rewrite length_app. lia. Qed.


Lemma slice_to_neg {A : Type} (s : list A) (cut : Z) :
  cut < 0 -> py_slice s None (Some cut) = firstn (Z.to_nat (len s + cut)) s.
Proof.
  intro H. unfold py_slice, clamp_index.
  destruct (Z.ltb_spec cut 0) as [_|]; [|lia].
  replace (Z.to_nat 0) with O by reflexivity. simpl skipn.
  f_equal. lia.
Qed.

Lemma slice_from_neg {A : Type} (s : list A) (cut : Z) :
  cut < 0 -> py_slice s (Some cut) None = skipn (Z.to_nat (len s + cut)) s.
Proof.
  intro H. unfold py_slice, clamp_index.
  destruct (Z.ltb_spec cut 0) as [_|]; [|lia].
  replace (Z.to_nat (Z.max (len s + cut) 0)) with (Z.to_nat (len s + cut)) by lia.
  apply firstn_all2. rewrite length_skipn. unfold len. lia.
Qed.

Lemma extend_nil (r : Renderer) : extend [] r = r.
Proof. destruct r. unfold extend. simpl. now rewrite app_nil_r. Qed.

Lemma append_extend (c : chunk) (r : Renderer) : append c r = extend [c] r.
Proof. reflexivity. Qed.

Lemma extend_extend (a b : list chunk) (r : Renderer) :
  extend b (extend a r) = extend (a ++ b) r.
Proof. unfold extend. simpl. now rewrite app_assoc. Qed.

Lemma grid_from_app (g : list Z * Z) (a b : list chunk) :
  grid_from g (a ++ b) = grid_from (grid_from g a) b.
Proof. apply fold_left_app. Qed.

(** ** Wrapping *)

Lemma wrap_body_cut (w lc length : Z) (line : str) (r : Renderer) :
  w < length ->
  wrap_body w (lc, length, line, r) =
  (lc + 1,
   len (skipn (Z.to_nat (len line + (w - length))) line),
   skipn (Z.to_nat (len line + (w - length))) line,
   extend [Text (firstn (Z.to_nat (len line + (w - length))) line); Break] r).
Proof.
  intro H. unfold wrap_body.
  rewrite slice_to_neg, slice_from_neg by lia.
  rewrite !append_extend, extend_extend. reflexivity.
Qed.

Lemma len_cons {A : Type} (x : A) (s : list A) : len (x :: s) = len s + 1.
Proof. unfold len. change (length (x :: s)) with (S (length s)). lia. Qed.

Lemma len_skipn {A : Type} (n : nat) (s : list A) :
  Z.of_nat n <= len s -> len (skipn n s) = len s - Z.of_nat n.
Proof. unfold len. rewrite length_skipn. lia. Qed.

Lemma len_firstn {A : Type} (n : nat) (s : list A) :
  Z.of_nat n <= len s -> len (firstn n s) = Z.of_nat n.
Proof. unfold len. rewrite length_firstn. lia. Qed.

Lemma wrap_loop_eq (fuel : nat) (w : Z) (st : Z * Z * str * Renderer) :
  wrap_loop fuel w st =
  if wrap_test w st then
    match fuel with
    | O => Timeout
    | S fuel' => wrap_loop fuel' w (wrap_body w st)
    end
  else Done st.
Proof. destruct fuel; reflexivity. Qed.

(** A run measured from column zero: whole slices of [w] characters are
    cut while more than [w] characters remain. *)
Lemma wrap_loop_fresh (w : Z) (Hw : 1 <= w) :
  forall (fuel : nat) (line : str) (lc : Z) (r : Renderer),
    len line <= Z.of_nat fuel + 1 ->
    exists slices c,
      wrap_loop fuel w (lc, len line, line, r)
      = Done (lc + len slices, len c, c, extend (cut_chunks slices) r)
      /\ concat slices ++ c = line
      /\ Forall (fun s => len s = w) slices
      /\ len c <= w
      /\ (line <> [] -> 1 <= len c)
      /\ len slices * w + len c = len line.
Proof.
  induction fuel as [|fuel IH]; intros line lc r Hfuel.
  - exists [], line. rewrite wrap_loop_eq.
    assert (Ht : wrap_test w (lc, len line, line, r) = false).
    { unfold wrap_test. apply andb_false_iff. right. apply Z.ltb_ge. lia. }
    rewrite Ht, extend_nil. unfold len at 1. simpl.
    rewrite Z.add_0_r. repeat split; auto; try lia.
    intro Hne. destruct line; [congruence|]. unfold len. simpl. lia.
  - rewrite wrap_loop_eq. destruct (wrap_test w (lc, len line, line, r)) eqn:Ht.
    + unfold wrap_test in Ht. apply andb_true_iff in Ht as [_ Ht].
      apply Z.ltb_lt in Ht.
      rewrite wrap_body_cut by assumption.
      replace (len line + (w - len line)) with w by lia.
      set (k := Z.to_nat w).
      assert (Hk : Z.of_nat k = w) by (unfold k; lia).
      assert (Hl : len (skipn k line) = len line - w)
        by (rewrite len_skipn; lia).
      destruct (IH (skipn k line) (lc + 1)
                  (extend [Text (firstn k line); Break] r)) as
        (slices & c & Hrun & Hcat & Hall & Hc & Hne & Hsum); [lia|].
      exists (firstn k line :: slices), c.
      assert (Hcons : len (firstn k line :: slices) = len slices + 1)
        by apply len_cons.
      rewrite extend_extend in Hrun.
      split.
      { etransitivity; [exact Hrun|]. rewrite Hcons.
        replace (lc + 1 + len slices) with (lc + (len slices + 1)) by lia.
        reflexivity. }
      repeat split; auto.
      * cbn [concat]. rewrite <- app_assoc, Hcat. apply firstn_skipn.
      * constructor; [rewrite len_firstn; lia | assumption].
      * intros _. apply Hne. intro Hnil. rewrite Hnil in Hl.
        unfold len in Hl at 1. simpl in Hl. lia.
      * rewrite Hcons. lia.
    + exists [], line. rewrite extend_nil. unfold len at 1. simpl.
      rewrite Z.add_0_r.
      unfold wrap_test in Ht. apply andb_false_iff in Ht.
      repeat split; auto.
      * destruct Ht as [Ht|Ht].
        -- apply negb_false_iff, Z.eqb_eq in Ht. lia.
        -- apply Z.ltb_ge in Ht. lia.
      * intro Hne. destruct line; [congruence|]. unfold len. simpl. lia.
Qed.

Lemma len_repeat {A : Type} (x : A) (n : nat) : len (repeat x n) = Z.of_nat n.
Proof. unfold len. now rewrite repeat_length. Qed.

Lemma grid_app (a b : list chunk) : grid (a ++ b) = grid_from (grid a) b.
Proof. apply grid_from_app. Qed.

Lemma pads_app (a b : list chunk) : pads (a ++ b) = pads a + pads b.
Proof. unfold pads. rewrite filter_app. apply len_app. Qed.

Lemma grid_from_markup (g : list Z * Z) (L : list chunk) :
  forallb is_markup L = true -> grid_from g L = g.
Proof.
  revert g. induction L as [|c L IH]; intros g H; [reflexivity|].
  simpl in H. apply andb_true_iff in H as [Hc HL].
  destruct c; try discriminate. unfold grid_from. simpl.
  rewrite Z.add_0_r. destruct g. apply IH, HL.
Qed.

Lemma pads_markup (L : list chunk) : forallb is_markup L = true -> pads L = 0.
Proof.
  induction L as [|c L IH]; intro H; [reflexivity|].
  simpl in H. apply andb_true_iff in H as [Hc HL].
  destruct c; try discriminate. apply IH, HL.
Qed.

Lemma grid_from_cut_chunks (w : Z) (slices : list str) (rows : list Z) :
  Forall (fun s => len s = w) slices ->
  grid_from (rows, 0) (cut_chunks slices) = (rows ++ repeat w (length slices), 0).
Proof.
  intro H. revert rows. induction H as [|s slices Hs _ IH]; intro rows.
  - simpl. now rewrite app_nil_r.
  - unfold grid_from in *. simpl. rewrite Hs, IH, <- app_assoc. reflexivity.
Qed.

Lemma pads_cut_chunks (slices : list str) : pads (cut_chunks slices) = 0.
Proof. induction slices as [|s slices IH]; [reflexivity|exact IH]. Qed.

(** A run appended to a row that already holds [prev] cells: the first
    cut fills the row, the following ones are whole rows. *)
Lemma wrap_line_running (w : Z) (fuel : nat) (c : str) (prev : Z)
  (r : Renderer) (rows : list Z) :
  1 <= w -> 0 <= prev <= w -> len c <= Z.of_nat fuel ->
  exists k l' c' pre,
    _wrap_line fuel c (prev + len c) w r = Done (k, l', c', extend pre r)
    /\ grid_from (rows, prev) (pre ++ [Text c']) = (rows ++ repeat w (Z.to_nat k), l')
    /\ pads pre = 0
    /\ 0 <= k /\ 0 <= l' <= w
    /\ k * w + l' = prev + len c
    /\ (0 < k -> 1 <= l')
    /\ (c' = [] <-> c = []).
Proof.
  intros Hw Hprev Hfuel. pose proof (len_nonneg c) as Hc0.
  unfold _wrap_line. rewrite wrap_loop_eq.
  destruct (wrap_test w (0, prev + len c, c, r)) eqn:Ht.
  - unfold wrap_test in Ht. apply andb_true_iff in Ht as [_ Ht].
    apply Z.ltb_lt in Ht.
    destruct fuel as [|fuel]; [simpl in Hfuel; lia|].
    rewrite wrap_body_cut by assumption.
    replace (len c + (w - (prev + len c))) with (w - prev) by lia.
    set (k0 := Z.to_nat (w - prev)).
    assert (Hk0 : Z.of_nat k0 = w - prev) by (unfold k0; lia).
    assert (Hl : len (skipn k0 c) = prev + len c - w) by (rewrite len_skipn; lia).
    destruct (wrap_loop_fresh w Hw fuel (skipn k0 c) (0 + 1)
                (extend [Text (firstn k0 c); Break] r))
      as (slices & c' & Hrun & Hcat & Hall & Hc & Hne & Hsum); [lia|].
    assert (Hc' : 1 <= len c').
    { apply Hne. intro Hnil. rewrite Hnil in Hl. unfold len in Hl at 1.
      simpl in Hl. lia. }
    exists (1 + len slices), (len c'), c',
      ([Text (firstn k0 c); Break] ++ cut_chunks slices).
    rewrite extend_extend in Hrun. pose proof (len_nonneg slices).
    repeat split; try lia.
    + exact Hrun.
    + replace (Z.to_nat (1 + len slices)) with (S (length slices))
        by (unfold len; lia).
      rewrite <- app_assoc, grid_from_app. unfold grid_from at 2.
      cbn [fold_left grid_step fst snd width app].
      rewrite len_firstn by lia.
      replace (prev + Z.of_nat k0) with w by lia.
      rewrite grid_from_app. rewrite (grid_from_cut_chunks w) by assumption.
      unfold grid_from. cbn [fold_left grid_step fst snd width app repeat].
      rewrite <- app_assoc. f_equal; try reflexivity; lia.
    + rewrite pads_app, pads_cut_chunks. reflexivity.
    + intro Hnil. rewrite Hnil in Hc'. unfold len in Hc'. simpl in Hc'. lia.
    + intro Hnil. rewrite Hnil in Ht. unfold len in Ht at 1. simpl in Ht. lia.
  - unfold wrap_test in Ht.
    assert (Hle : prev + len c <= w).
    { apply andb_false_iff in Ht as [Ht|Ht].
      - apply negb_false_iff, Z.eqb_eq in Ht. lia.
      - apply Z.ltb_ge in Ht. lia. }
    exists 0, (prev + len c), c, []. rewrite extend_nil.
    repeat split; try lia; auto.
    simpl. now rewrite app_nil_r.
Qed.

(** ** Opening and closing tags *)

Section Tags.

Variable term_to_rgb : Z -> list Z -> Z * Z * Z.

Lemma update_css_frame (prefix : str) (c : option color) (r : Renderer) :
  opened (snd (update_css term_to_rgb prefix c r)) = opened r
  /\ chunks (snd (update_css term_to_rgb prefix c r)) = chunks r
  /\ esc_style (snd (update_css term_to_rgb prefix c r)) = esc_style r.
Proof. destruct c as [[n|a b c]|]; simpl; auto. Qed.

Lemma open_classes_frame (fg bg : option color) (cls : option str)
  (r r' : Renderer) (classes : list str) :
  open_classes term_to_rgb fg bg cls r = Done (classes, r') ->
  opened r' = opened r /\ chunks r' = chunks r /\ esc_style r' = esc_style r.
Proof.
  unfold open_classes.
  destruct (if mem 7 (esc_style r) then (bg, fg) else (fg, bg)) as [fg' bg'].
  pose proof (update_css_frame (lit "f") fg' r) as Hf.
  destruct (update_css term_to_rgb (lit "f") fg' r) as [k1 r1].
  pose proof (update_css_frame (lit "b") bg' r1) as Hb.
  destruct (update_css term_to_rgb (lit "b") bg' r1) as [k2 r2].
  simpl in Hf, Hb. destruct Hf as (Hf1 & Hf2 & Hf3), Hb as (Hb1 & Hb2 & Hb3).
  destruct (plain_fg fg'); simpl; try discriminate.
  intro H. injection H as _ <-. repeat split; congruence.
Qed.

Lemma open_classes_done (fg bg : option color) (cls : option str) (r : Renderer) :
  is_code fg = true -> is_code bg = true ->
  exists classes r', open_classes term_to_rgb fg bg cls r = Done (classes, r').
Proof.
  intros Hfg Hbg. unfold open_classes.
  assert (H : exists fg' bg',
             (if mem 7 (esc_style r) then (bg, fg) else (fg, bg)) = (fg', bg')
             /\ is_code fg' = true).
  { destruct (mem 7 (esc_style r)); eauto. }
  destruct H as (fg' & bg' & -> & Hfg').
  destruct (update_css term_to_rgb (lit "f") fg' r) as [k1 r1].
  destruct (update_css term_to_rgb (lit "b") bg' r1) as [k2 r2].
  destruct fg' as [[n|? ? ?]|]; try discriminate; simpl; eauto.
Qed.

(** [open] with colours that are no tuples appends one opening tag. *)
Lemma open_done (fg bg : option color) (seq : option str) (tag : str)
  (cls : option str) (r : Renderer) :
  is_code fg = true -> is_code bg = true ->
  exists html r',
    open term_to_rgb fg bg seq tag cls r = Done r'
    /\ chunks r' = chunks r ++ [Markup (lit "<" ++ tag ++ lit " " ++ html)]
    /\ opened r' = opened r + 1
    /\ esc_style r' = esc_style r.
Proof.
  intros Hfg Hbg.
  destruct (open_classes_done fg bg cls r Hfg Hbg) as (classes & r1 & Hcl).
  destruct (open_classes_frame _ _ _ _ _ _ Hcl) as (Ho & Hc & Hs).
  unfold open. rewrite Hcl. simpl.
  eexists. eexists. split; [reflexivity|]. simpl.
  rewrite Hc, Ho, Hs. repeat split; reflexivity.
Qed.

(** A failed [open] leaves nothing behind that [reachable] could see:
    whenever it returns, it has appended exactly one opening tag. *)
Lemma open_inv (fg bg : option color) (seq : option str) (tag : str)
  (cls : option str) (r r' : Renderer) :
  open term_to_rgb fg bg seq tag cls r = Done r' ->
  exists html,
    chunks r' = chunks r ++ [Markup (lit "<" ++ tag ++ lit " " ++ html)]
    /\ opened r' = opened r + 1
    /\ esc_style r' = esc_style r.
Proof.
  unfold open.
  destruct (open_classes term_to_rgb fg bg cls r) as [[classes r1]| |] eqn:Hcl;
    simpl; try discriminate.
  destruct (open_classes_frame _ _ _ _ _ _ Hcl) as (Ho & Hc & Hs).
  intro H. injection H as <-. simpl. rewrite Hc, Ho, Hs.
  eexists. repeat split; reflexivity.
Qed.

(** The tag opened around padding carries the non-selectable class
    first. *)
Lemma open_ns (r : Renderer) :
  exists tag r',
    open term_to_rgb None None None span (Some (lit "ns")) r = Done r'
    /\ chunks r' = chunks r ++ [Markup tag]
    /\ opened r' = opened r + 1
    /\ esc_style r' = esc_style r
    /\ is_prefix (lit "<span class=" ++ dq ++ lit "ns") tag = true.
Proof.
  unfold open, open_classes, _style_classes.
  destruct (mem 7 (esc_style r)); simpl;
    destruct (mem 1 (esc_style r)); destruct (mem 22 (esc_style r));
    destruct (mem 3 (esc_style r)); destruct (mem 23 (esc_style r));
    destruct (mem 4 (esc_style r)); destruct (mem 24 (esc_style r));
    simpl; eexists; eexists; repeat split; reflexivity.
Qed.

End Tags.

Lemma close_frame (closeall : bool) (r : Renderer) :
  0 <= opened r ->
  exists L,
    chunks (close span closeall r) = chunks r ++ L
    /\ forallb is_markup L = true
    /\ 0 <= opened (close span closeall r)
    /\ esc_style (close span closeall r) = esc_style r
    /\ css (close span closeall r) = css r
    /\ (closeall = true -> opened (close span closeall r) = 0).
Proof.
  intro H. unfold close. destruct (Z.ltb_spec 0 (opened r)) as [Hlt|Hle].
  - destruct closeall; simpl.
    + eexists. repeat split; try reflexivity.
      induction (Z.to_nat (opened r)); [reflexivity|assumption].
    + eexists. repeat split; try reflexivity; try lia.
  - exists []. rewrite app_nil_r. repeat split; auto. intros _. lia.
Qed.

Lemma close_one (r : Renderer) :
  0 < opened r ->
  close span false r
  = append (Markup (lit "</span>")) (set_opened (opened r - 1) r).
Proof.
  intro H. unfold close. destruct (Z.ltb_spec 0 (opened r)); [reflexivity|lia].
Qed.

(** ** Termination of the wrapping loop *)

Lemma wrap_body_length (w lc length : Z) (line : str) (r : Renderer) :
  w < length ->
  snd (fst (fst (wrap_body w (lc, length, line, r)))) = Z.min (length - w) (len line).
Proof.
  intro H. rewrite wrap_body_cut by assumption. cbn [fst snd].
  pose proof (len_nonneg line).
  destruct (Z.le_gt_cases 0 (len line + (w - length))).
  - rewrite len_skipn by lia. lia.
  - replace (Z.to_nat (len line + (w - length))) with O by lia. simpl skipn. lia.
Qed.

Lemma wrap_loop_enough (w : Z) :
  1 <= w ->
  forall (fuel : nat) (lc length : Z) (line : str) (r : Renderer),
    length <= Z.of_nat fuel ->
    exists res, wrap_loop fuel w (lc, length, line, r) = Done res.
Proof.
  intros Hw. induction fuel as [|fuel IH]; intros lc length line r Hfuel;
    rewrite wrap_loop_eq;
    destruct (wrap_test w (lc, length, line, r)) eqn:Ht; eauto;
    unfold wrap_test in Ht; apply andb_true_iff in Ht as [_ Ht];
    apply Z.ltb_lt in Ht.
  - simpl in Hfuel. lia.
  - pose proof (wrap_body_length w lc length line r Ht) as Hlen.
    destruct (wrap_body w (lc, length, line, r)) as [[[lc' length'] line'] r'].
    cbn [fst snd] in Hlen. apply IH. lia.
Qed.

Lemma wrap_loop_zero_width :
  forall (fuel : nat) (lc length : Z) (line : str) (r : Renderer),
    line <> [] -> 0 < length ->
    wrap_loop fuel 0 (lc, length, line, r) = Timeout.
Proof.
  induction fuel as [|fuel IH]; intros lc length line r Hne Hpos;
    rewrite wrap_loop_eq;
    assert (Ht : wrap_test 0 (lc, length, line, r) = true)
      by (unfold wrap_test; apply andb_true_iff; split;
          [apply negb_true_iff, Z.eqb_neq; lia | apply Z.ltb_lt; lia]);
    rewrite Ht; [reflexivity|].
  rewrite wrap_body_cut by assumption.
  assert (Hlen : 0 < len line).
  { destruct line; [congruence|]. rewrite len_cons. pose proof (len_nonneg line). lia. }
  assert (Hk : Z.of_nat (Z.to_nat (len line + (0 - length))) < len line) by lia.
  assert (Hrest : 0 < len (skipn (Z.to_nat (len line + (0 - length))) line))
    by (rewrite len_skipn; lia).
  apply IH; [|exact Hrest].
  intro Hnil. rewrite Hnil in Hrest. unfold len in Hrest. simpl in Hrest. lia.
Qed.

(** C10: [_wrap_line] returns whenever the pane width is at least 1,
    because every turn of its loop takes at least the width off the
    remaining length; with width 0, a non-empty line and a positive length
    the loop never ends (no amount of fuel is enough). *)
Theorem wrap_line_terminates (line : str) (length maxlength : Z) (r : Renderer) :
  (1 <= maxlength ->
   (forall lc, maxlength < length ->
      snd (fst (fst (wrap_body maxlength (lc, length, line, r)))) <= length - maxlength)
   /\ forall fuel, length <= Z.of_nat fuel ->
        exists res, _wrap_line fuel line length maxlength r = Done res)
  /\ (maxlength = 0 -> line <> [] -> 0 < length ->
      forall fuel, _wrap_line fuel line length maxlength r = Timeout).
Proof.
  split.
  - intro Hw. split.
    + intros lc Hlt. rewrite wrap_body_length by assumption. lia.
    + intros fuel Hfuel. apply wrap_loop_enough; assumption.
  - intros -> Hne Hpos fuel. apply wrap_loop_zero_width; assumption.
Qed.

Lemma wrap_line_terminates_witness :
  (exists res, _wrap_line 7 (lit "abcdefg") 7 3 fresh = Done res)
  /\ _wrap_line 1000 (lit "a") 1 0 fresh = Timeout.
Proof.
  destruct (wrap_line_terminates (lit "abcdefg") 7 3 fresh) as [Hends _].
  destruct (wrap_line_terminates (lit "a") 1 0 fresh) as [_ Hloop].
  split.
  - apply Hends; lia.
  - apply Hloop; [reflexivity|discriminate|lia].
Defined.

(** ** The slices of a long run *)

Lemma ceil_div_rows (k w n l : Z) :
  1 <= w -> 1 <= l <= w -> n * w + l = k -> ceil_div k w = n + 1.
Proof.
  intros Hw Hl Hk. unfold ceil_div. symmetry.
  apply (Z.div_unique_pos _ _ _ (l - 1)); lia.
Qed.

(** C6: a literal run of [k > w] characters wrapped from column zero under
    a width [w >= 1] comes out as [ceil(k / w)] slices (the rest the
    function returns being the last), each at most [w] characters long,
    whose concatenation is the run; a line feed follows every slice but the
    last. *)
Theorem wrap_line_slices (line : str) (w : Z) (r : Renderer) (fuel : nat) :
  1 <= w -> w < len line -> len line <= Z.of_nat fuel ->
  exists slices c,
    _wrap_line fuel line (len line) w r
    = Done (len slices, len c, c, extend (cut_chunks slices) r)
    /\ len (slices ++ [c]) = ceil_div (len line) w
    /\ Forall (fun s => len s <= w) (slices ++ [c])
    /\ concat (slices ++ [c]) = line.
Proof.
  intros Hw Hlong Hfuel.
  destruct (wrap_loop_fresh w Hw fuel line 0 r)
    as (slices & c & Hrun & Hcat & Hall & Hc & Hne & Hsum); [lia|].
  assert (Hc1 : 1 <= len c).
  { apply Hne. intro Hnil. rewrite Hnil in Hlong. unfold len in Hlong.
    simpl in Hlong. lia. }
  exists slices, c. repeat split.
  - exact Hrun.
  - rewrite len_app. unfold len at 2. simpl. symmetry.
    apply (ceil_div_rows _ _ _ (len c)); lia.
  - apply Forall_app. split.
    + eapply Forall_impl; [|exact Hall]. simpl. intros s Hs. lia.
    + constructor; [assumption|constructor].
  - rewrite concat_app. simpl. now rewrite app_nil_r.
Qed.

Lemma wrap_line_slices_witness :
  exists slices c,
    _wrap_line 7 (lit "abcdefg") 7 3 fresh
    = Done (len slices, len c, c, extend (cut_chunks slices) fresh)
    /\ len (slices ++ [c]) = ceil_div 7 3
    /\ Forall (fun s => len s <= 3) (slices ++ [c])
    /\ concat (slices ++ [c]) = lit "abcdefg".
Proof.
  apply (wrap_line_slices (lit "abcdefg") 3 fresh 7);
    [lia | vm_compute; reflexivity | vm_compute; discriminate].
Defined.

(** ** The tag counter *)

Lemma len_filter_app {A : Type} (p : A -> bool) (a b : list A) :
  len (filter p (a ++ b)) = len (filter p a) + len (filter p b).
Proof. rewrite filter_app. apply len_app. Qed.

Lemma filter_repeat {A : Type} (p : A -> bool) (x : A) (n : nat) :
  filter p (repeat x n) = if p x then repeat x n else [].
Proof.
  induction n as [|n IH]; simpl.
  - now destruct (p x).
  - rewrite IH. now destruct (p x).
Qed.

Section Counter.

Variable term_to_rgb : Z -> list Z -> Z * Z * Z.



End Counter.


(** ** Class lists *)

Lemma str_eqb_eq (a b : str) : str_eqb a b = true <-> a = b.
Proof.
  revert b. induction a as [|x a IH]; destruct b as [|y b]; simpl;
    try (split; [discriminate|discriminate]); [tauto|].
  rewrite andb_true_iff, N.eqb_eq, IH. split.
  - intros [-> ->]. reflexivity.
  - intro H. injection H as -> ->. auto.
Qed.

Lemma mem_str_In (x : str) (l : list str) : mem_str x l = true <-> In x l.
Proof.
  unfold mem_str. rewrite existsb_exists. split.
  - intros (y & Hy & Heq). apply str_eqb_eq in Heq. now subst.
  - intro H. exists x. split; [assumption|]. now apply str_eqb_eq.
Qed.

Lemma remove_first_app (x : str) (a b : list str) :
  ~ In x a -> remove_first x (a ++ b) = a ++ remove_first x b.
Proof.
  induction a as [|y a IH]; intro H; [reflexivity|]. simpl.
  destruct (str_eqb x y) eqn:E.
  - apply str_eqb_eq in E. subst. exfalso. apply H. now left.
  - f_equal. apply IH. intro Hin. apply H. now right.
Qed.

Lemma style_classes_sb_once (styles : list Z) :
  ~ In (lit "sb") (remove_first (lit "sb") (_style_classes styles)).
Proof.
  unfold _style_classes.
  destruct (mem 1 styles && negb (mem 22 styles));
    destruct (mem 3 styles && negb (mem 23 styles));
    destruct (mem 4 styles && negb (mem 24 styles));
    vm_compute; intuition discriminate.
Qed.

Lemma style_classes_sb (styles : list Z) :
  In (lit "sb") (_style_classes styles)
  <-> mem 1 styles = true /\ mem 22 styles = false.
Proof.
  unfold _style_classes.
  destruct (mem 1 styles); destruct (mem 22 styles);
    destruct (mem 3 styles && negb (mem 23 styles));
    destruct (mem 4 styles && negb (mem 24 styles));
    vm_compute; intuition discriminate.
Qed.

Lemma dict_has_set (k : str) (v : css_value) (d : list (str * css_value)) :
  dict_has k (dict_set k v d) = true.
Proof.
  induction d as [|[k' v'] d IH]; simpl.
  - assert (E : str_eqb k k = true) by now apply str_eqb_eq. now rewrite E.
  - destruct (str_eqb k' k) eqn:E; simpl; rewrite ?E; [reflexivity|exact IH].
Qed.

Lemma dict_has_keep (k k' : str) (v : css_value) (d : list (str * css_value)) :
  dict_has k d = true -> dict_has k (dict_set k' v d) = true.
Proof.
  induction d as [|[k0 v0] d IH]; simpl; [discriminate|].
  intro H. destruct (str_eqb k0 k') eqn:E; simpl.
  - exact H.
  - apply orb_true_iff in H as [H|H]; [now rewrite H|].
    rewrite IH by assumption. apply orb_true_r.
Qed.

Section Classes.

Variable term_to_rgb : Z -> list Z -> Z * Z * Z.

(** A key of [update_css] is empty or starts with the prefix. *)
Lemma update_css_key (prefix : str) (c : option color) (r : Renderer) :
  fst (update_css term_to_rgb prefix c r) = []
  \/ exists rest, fst (update_css term_to_rgb prefix c r) = prefix ++ rest.
Proof.
  destruct c as [[n|a b c]|]; simpl; eauto.
Qed.

Lemma update_css_fg_bold (n : Z) (r : Renderer) :
  mem 1 (esc_style r) = true -> n < 8 ->
  exists v,
    update_css term_to_rgb (lit "f") (Some (Code n)) r
    = (lit "f" ++ str_of_Z (n + 8), set_css (lit "f" ++ str_of_Z (n + 8)) v r).
Proof.
  intros Hbold Hn. unfold update_css.
  change (str_eqb (lit "f") (lit "f")) with true. rewrite Hbold.
  assert (Hlt : (n <? 8) = true) by (apply Z.ltb_lt; lia).
  rewrite Hlt. cbn [andb]. eexists. reflexivity.
Qed.

(** C4, amended: when bold is active and the foreground in effect (the
    foreground itself, or the background while reverse video is on) is a
    basic code 0 to 7, the class list holds the key of the code promoted
    by 8, the rule of that key is registered, and the bold class is not
    in the list. *)
Theorem bold_promotes_basic_foreground
  (fg bg : option color) (cls : option str) (r : Renderer) (n : Z) :
  mem 1 (esc_style r) = true ->
  effective_fg fg bg r = Some (Code n) ->
  0 <= n <= 7 ->
  cls <> Some (lit "sb") ->
  exists classes r',
    open_classes term_to_rgb fg bg cls r = Done (classes, r')
    /\ In (lit "f" ++ str_of_Z (n + 8)) classes
    /\ ~ In (lit "sb") classes
    /\ dict_has (lit "f" ++ str_of_Z (n + 8)) (css r') = true.
Proof.
  intros Hbold Hfg Hn Hcls. unfold open_classes, effective_fg in *.
  set (swapped := if mem 7 (esc_style r) then (bg, fg) else (fg, bg)).
  assert (Hsw : exists bg', swapped = (Some (Code n), bg')).
  { unfold swapped. destruct (mem 7 (esc_style r)); subst; eauto. }
  destruct Hsw as [bg' ->].
  set (key := lit "f" ++ str_of_Z (n + 8)).
  destruct (update_css_fg_bold n r Hbold) as (v & Hupd); [lia|].
  fold key in Hupd. rewrite Hupd.
  set (r1 := set_css key v r).
  pose proof (update_css_key (lit "b") bg' r1) as Hkb.
  pose proof (update_css_frame term_to_rgb (lit "b") bg' r1) as (_ & _ & Hsty).
  assert (Hcss : dict_has key (css (snd (update_css term_to_rgb (lit "b") bg' r1))) = true).
  { destruct bg' as [[m|a b c]|]; cbn [update_css snd set_css css];
      [apply dict_has_keep| apply dict_has_keep|]; apply dict_has_set. }
  destruct (update_css term_to_rgb (lit "b") bg' r1) as [kb r2].
  cbn [fst snd] in *. change (esc_style r1) with (esc_style r) in Hsty.
  rewrite Hsty, Hbold.
  assert (Hp : plain_fg (Some (Code n)) = Done true).
  { simpl. f_equal. apply orb_true_iff. left. apply orb_true_iff. right.
    apply Z.ltb_lt. lia. }
  rewrite Hp. cbn [bind andb].
  assert (Htk : truthy key = true) by reflexivity.
  rewrite Htk.
  set (base := (if truthy kb then _ else _) : list str).
  assert (Hkey : In key base).
  { unfold base.
    destruct (truthy kb); rewrite ?in_app_iff; cbn [In]; tauto. }
  assert (Hnosb : ~ In (lit "sb") base).
  { unfold base.
    assert (Hc : ~ In (lit "sb") match cls with
                                  | Some c => if truthy c then [c] else []
                                  | None => []
                                  end).
    { destruct cls as [c|]; [|simpl; tauto].
      destruct (truthy c); simpl; [|tauto]. intros [->|[]]. now apply Hcls. }
    assert (Hk : key <> lit "sb") by (unfold key; discriminate).
    destruct (truthy kb) eqn:Ekb; rewrite ?in_app_iff; cbn [In];
      [|intuition congruence].
    destruct Hkb as [->|[rest ->]]; [discriminate|].
    intros [[?|[?|[]]]|[?|[]]]; try tauto; discriminate. }
  eexists. eexists. split; [reflexivity|].
  destruct (mem_str (lit "sb") (base ++ _style_classes (esc_style r))) eqn:Em.
  - rewrite remove_first_app by assumption. repeat split.
    + apply in_app_iff. now left.
    + rewrite in_app_iff. intros [?|?]; [tauto|].
      now apply (style_classes_sb_once (esc_style r)).
    + exact Hcss.
  - repeat split.
    + apply in_app_iff. now left.
    + intro Hin. apply mem_str_In in Hin. congruence.
    + exact Hcss.
Qed.

(** C5, amended: when bold is active (set and not cleared) and the
    foreground in effect is no tuple, the bold class is in the class list
    exactly when that foreground is a code of 16 or more other than 39;
    with no foreground, or with the code 39, the class is taken out. *)
Theorem bold_class_iff_extended_foreground
  (fg bg : option color) (cls : option str) (r : Renderer) :
  mem 1 (esc_style r) = true -> mem 22 (esc_style r) = false ->
  is_code (effective_fg fg bg r) = true ->
  cls <> Some (lit "sb") ->
  exists classes r',
    open_classes term_to_rgb fg bg cls r = Done (classes, r')
    /\ (In (lit "sb") classes
        <-> exists n, effective_fg fg bg r = Some (Code n) /\ 16 <= n /\ n <> 39).
Proof.
  intros Hbold Hkept Hcode Hcls. unfold open_classes, effective_fg in *.
  set (swapped := if mem 7 (esc_style r) then (bg, fg) else (fg, bg)).
  assert (Hsw : exists fg' bg',
             swapped = (fg', bg')
             /\ fg' = (if mem 7 (esc_style r) then bg else fg)).
  { unfold swapped. destruct (mem 7 (esc_style r)); eauto. }
  destruct Hsw as (fg' & bg' & -> & Hfg'). rewrite <- Hfg' in *. clear Hfg'.
  pose proof (update_css_key (lit "f") fg' r) as Hkf.
  pose proof (update_css_frame term_to_rgb (lit "f") fg' r) as (_ & _ & Hs1).
  destruct (update_css term_to_rgb (lit "f") fg' r) as [kf r1].
  pose proof (update_css_key (lit "b") bg' r1) as Hkb.
  pose proof (update_css_frame term_to_rgb (lit "b") bg' r1) as (_ & _ & Hs2).
  destruct (update_css term_to_rgb (lit "b") bg' r1) as [kb r2].
  cbn [fst snd] in *. rewrite Hs2, Hs1, Hbold.
  set (base := (if truthy kb then _ else _) : list str).
  assert (Hnosb : ~ In (lit "sb") base).
  { unfold base.
    assert (Hc : ~ In (lit "sb") match cls with
                                  | Some c => if truthy c then [c] else []
                                  | None => []
                                  end).
    { destruct cls as [c|]; [|simpl; tauto].
      destruct (truthy c); simpl; [|tauto]. intros [->|[]]. now apply Hcls. }
    assert (Hf : ~ In (lit "sb") (if truthy kf
                                  then match cls with
                                       | Some c => if truthy c then [c] else []
                                       | None => []
                                       end ++ [kf]
                                  else match cls with
                                       | Some c => if truthy c then [c] else []
                                       | None => []
                                       end)).
    { destruct (truthy kf) eqn:Ekf; [|assumption].
      rewrite in_app_iff. simpl.
      destruct Hkf as [->|[rest ->]]; [discriminate|].
      intros [?|[?|[]]]; [tauto|discriminate]. }
    destruct (truthy kb) eqn:Ekb; [|assumption].
    rewrite in_app_iff. simpl.
    destruct Hkb as [->|[rest ->]]; [discriminate|].
    intros [?|[?|[]]]; [tauto|discriminate]. }
  assert (Hsb : In (lit "sb") (base ++ _style_classes (esc_style r))).
  { apply in_app_iff. right. now apply style_classes_sb. }
  destruct fg' as [[n|? ? ?]|]; try discriminate; cbn [plain_fg bind].
  - destruct ((n =? 0) || (n <? 16) || (n =? 39)) eqn:Ep; cbn [andb].
    + apply mem_str_In in Hsb. rewrite Hsb.
      eexists. eexists. split; [reflexivity|].
      rewrite remove_first_app by assumption. split.
      * rewrite in_app_iff. intros [?|?]; [tauto|].
        exfalso. now apply (style_classes_sb_once (esc_style r)).
      * intros (m & Hm & H16 & H39). injection Hm as <-.
        apply orb_true_iff in Ep as [Ep|Ep];
          [apply orb_true_iff in Ep as [Ep|Ep]|]; lia.
    + eexists. eexists. split; [reflexivity|]. split; [|intros _; exact Hsb].
      intros _. exists n. split; [reflexivity|].
      apply orb_false_iff in Ep as [Ep E39].
      apply orb_false_iff in Ep as [_ E16]. lia.
  - apply mem_str_In in Hsb. rewrite Hsb. cbn [andb].
    eexists. eexists. split; [reflexivity|].
    rewrite remove_first_app by assumption. split.
    + rewrite in_app_iff. intros [?|?]; [tauto|].
      exfalso. now apply (style_classes_sb_once (esc_style r)).
    + intros (m & Hm & _). discriminate.
Qed.

End Classes.

Lemma bold_promotes_basic_foreground_witness :
  exists classes r',
    open_classes Color.term_to_rgb (Some (Code 1)) None None
      (set_esc_style [1] fresh) = Done (classes, r')
    /\ In (lit "f" ++ str_of_Z (1 + 8)) classes
    /\ ~ In (lit "sb") classes
    /\ dict_has (lit "f" ++ str_of_Z (1 + 8)) (css r') = true.
Proof.
  apply (bold_promotes_basic_foreground Color.term_to_rgb
           (Some (Code 1)) None None (set_esc_style [1] fresh) 1);
    [reflexivity | reflexivity | lia | discriminate].
Defined.

(** Foreground code 1 under bold: the tag carries the class of code 9
    alone. *)
Example bold_red_tag :
  open Color.term_to_rgb (Some (Code 1)) None (Some (lit "1;31")) span None
    (set_esc_style [1] fresh)
  = Done (mkRenderer 1
            [Markup (lit "<span class=" ++ dq ++ lit "f9" ++ dq
                     ++ lit " data-seq=" ++ dq ++ lit "1;31" ++ dq ++ lit ">")]
            (reset_css ++ [(lit "f9", Decl (lit "color: #ff5555;"))])
            [1]).
Proof. reflexivity. Qed.

(** Foreground code 33 under bold: a colour class and the bold class. *)
Example bold_extended_tag :
  open_classes Color.term_to_rgb (Some (Code 33)) None None
    (set_esc_style [1] fresh)
  = Done ([lit "f33"; lit "sb"],
          set_css (lit "f33") (Decl (lit "color: #0087ff;"))
            (set_esc_style [1] fresh)).
Proof. reflexivity. Qed.

(** C4, counterexample: with reverse video on, the foreground 1 of a
    bold run is rendered as the background: its key is not promoted, and
    the bold class stays when the background reference that takes its
    place is an extended code. *)
Lemma bold_unswapped_foreground_not_promoted :
  exists r',
    open_classes Color.term_to_rgb (Some (Code 1)) (Some (Code 33)) None
      (set_esc_style [1; 7] fresh)
    = Done ([lit "f33"; lit "b1"; lit "sb"], r')
    /\ ~ In (lit "f9") [lit "f33"; lit "b1"; lit "sb"]
    /\ In (lit "sb") [lit "f33"; lit "b1"; lit "sb"].
Proof.
  eexists. split; [reflexivity|]. split.
  - simpl. intuition discriminate.
  - simpl. tauto.
Qed.

Lemma bold_class_iff_extended_foreground_witness :
  exists classes r',
    open_classes Color.term_to_rgb (Some (Code 33)) None None
      (set_esc_style [1] fresh) = Done (classes, r')
    /\ (In (lit "sb") classes
        <-> exists n, effective_fg (Some (Code 33)) None (set_esc_style [1] fresh)
                      = Some (Code n) /\ 16 <= n /\ n <> 39).
Proof.
  apply (bold_class_iff_extended_foreground Color.term_to_rgb
           (Some (Code 33)) None None (set_esc_style [1] fresh));
    [reflexivity | reflexivity | reflexivity | discriminate].
Defined.

(** C5, counterexample: a bold run with no foreground, and one with the
    default marker 39, get no bold class. *)
Lemma bold_class_absent_without_foreground :
  (exists r',
     open_classes Color.term_to_rgb None None None (set_esc_style [1] fresh)
     = Done ([], r'))
  /\ (exists r',
        open_classes Color.term_to_rgb (Some (Code 39)) None None
          (set_esc_style [1] fresh)
        = Done ([lit "f39"], r'))
  /\ ~ In (lit "sb") (@nil (list N))
  /\ ~ In (lit "sb") [lit "f39"].
Proof.
  split; [eexists; reflexivity|]. split; [eexists; reflexivity|].
  split; simpl; intuition discriminate.
Qed.

(** ** Escaping *)

Lemma py_replace_other (c x : N) (rep : str) :
  x <> c -> py_replace c rep [x] = [x].
Proof.
  intro H. unfold py_replace. simpl.
  destruct (N.eqb_spec x c); [contradiction|reflexivity].
Qed.

Lemma escape_non_ascii (c : N) : (128 <= c)%N -> escape [c] = [c].
Proof.
  intro H. unfold escape.
  rewrite !py_replace_other by lia. reflexivity.
Qed.

(** A character of the basic multilingual plane from U+0080 on becomes
    its one-cell placeholder. *)
Lemma escape_text_glyph (c : N) :
  (128 <= c <= 65535)%N -> _escape_text [c] = glyph c.
Proof.
  intro H. unfold _escape_text. rewrite escape_non_ascii by lia.
  cbn [flat_map].
  destruct (N.leb_spec 128 c); [|lia].
  destruct (N.leb_spec c 65535); [|lia].
  cbn [andb]. apply app_nil_r.
Qed.

Lemma escape_text_glyph_witness : _escape_text [9472%N] = glyph 9472%N.
Proof. apply (escape_text_glyph 9472%N). lia. Defined.

(** A character beyond U+FFFF is outside the class of the pattern and
    stays as it is. *)
Lemma escape_text_beyond_bmp (c : N) :
  (65536 <= c)%N -> _escape_text [c] = [c].
Proof.
  intro H. unfold _escape_text. rewrite escape_non_ascii by lia.
  cbn [flat_map].
  destruct (N.leb_spec 128 c); [|lia].
  destruct (N.leb_spec c 65535); [lia|]. reflexivity.
Qed.

(** C7: the character U+1F600 (code point 128512, at least 0x80) is not
    replaced by a placeholder: [_escape_text] returns it unchanged. *)
Theorem escape_text_keeps_astral :
  _escape_text [128512%N] = [128512%N]
  /\ _escape_text [128512%N] <> glyph 128512%N.
Proof. split; [reflexivity|discriminate]. Qed.

(** ** The scenario of a plain text *)


(** The same output as the string [render_pane] joins, and as a grid. *)
Example render_plain_html :
  join_chunks
    [ Markup (lit "<pre>"); Markup (lit "<span >"); Text (lit "plain");
      Markup (lit "</span>");
      Markup (lit "<span class=" ++ dq ++ lit "ns" ++ dq ++ lit ">");
      Pad (py_mul (lit " ") 15); Markup (lit "</span>"); Break;
      Markup (lit "</pre>") ]
  = lit "<pre><span >plain</span><span class=" ++ dq ++ lit "ns" ++ dq
    ++ lit ">               </span>" ++ [LF] ++ lit "</pre>".
Proof. reflexivity. Qed.

(** ** Pane selection *)

(** C8: a pane index at or beyond the number of panes listed for the
    window makes the selection fail with the [IndexError] of the list
    subscript (the condition the spec calls PaneNotFound); no pane is
    selected in its place. *)
Theorem pane_index_out_of_range
  (get_layout : Z -> option str -> Pane) (pane_list : Pane -> list Pane)
  (target : str) (session : option str) (window i : Z) :
  parse_target target = Done (session, window, Some i) ->
  len (pane_list (get_layout window session)) <= i ->
  select_pane get_layout pane_list target = Raise IndexError.
Proof.
  intros Hparse Hi. unfold select_pane. rewrite Hparse. simpl.
  unfold py_index. pose proof (len_nonneg (pane_list (get_layout window session))).
  destruct (Z.ltb_spec i 0); [lia|].
  destruct (Z.ltb_spec i 0); [lia|].
  destruct (Z.leb_spec (len (pane_list (get_layout window session))) i); [|lia].
  reflexivity.
Qed.

Lemma pane_index_out_of_range_witness :
  select_pane (fun _ _ => window4) Utils.pane_list (lit "1.9") = Raise IndexError.
Proof.
  apply (pane_index_out_of_range _ _ (lit "1.9") None 1 9);
    [reflexivity | vm_compute; discriminate].
Defined.

(** The selector 0:1.2 picks the leaf at depth-first index 2. *)
Example select_third_leaf :
  select_pane (fun _ _ => window4) Utils.pane_list (lit "0:1.2")
  = Done (mkPane 3 41 9 (39, 7) [] false).
Proof. reflexivity. Qed.


(** ** The grid under the operations of the renderer *)

Lemma tidy_extend (r : Renderer) (g : list Z * Z) (p : Z) (L : list chunk) :
  tidy r g p -> tidy (extend L r) (grid_from g L) (p + pads L).
Proof.
  intros (Hg & Hp & Ho). unfold tidy, extend. cbn [chunks opened].
  rewrite grid_app, pads_app, Hg, Hp. auto.
Qed.

Lemma tidy_markup (r r' : Renderer) (g : list Z * Z) (p : Z) (L : list chunk) :
  tidy r g p -> chunks r' = chunks r ++ L -> forallb is_markup L = true ->
  0 <= opened r' -> tidy r' g p.
Proof.
  intros (Hg & Hp & Ho) Hch HL Ho'. unfold tidy.
  rewrite Hch, grid_app, pads_app, Hg, Hp, grid_from_markup, pads_markup
    by assumption.
  repeat split; auto; lia.
Qed.

Lemma tidy_text (r : Renderer) (rows : list Z) (l p : Z) (s : str) :
  tidy r (rows, l) p -> tidy (append (Text s) r) (rows, l + len s) p.
Proof.
  intro H. rewrite append_extend.
  replace p with (p + pads [Text s]) by (unfold pads, len; simpl; lia).
  apply (tidy_extend r (rows, l) p [Text s] H).
Qed.

Lemma tidy_pad (r : Renderer) (rows : list Z) (l p : Z) (s : str) :
  tidy r (rows, l) p -> tidy (append (Pad s) r) (rows, l + len s) (p + 1).
Proof.
  intro H. rewrite append_extend.
  apply (tidy_extend r (rows, l) p [Pad s] H).
Qed.

Lemma tidy_break (r : Renderer) (rows : list Z) (l p : Z) :
  tidy r (rows, l) p -> tidy (append Break r) (rows ++ [l], 0) p.
Proof.
  intro H. rewrite append_extend.
  replace p with (p + pads [Break]) by (unfold pads, len; simpl; lia).
  apply (tidy_extend r (rows, l) p [Break] H).
Qed.

Lemma tidy_style (r : Renderer) (g : list Z * Z) (p : Z) (sty : list Z) :
  tidy r g p -> tidy (set_esc_style sty r) g p.
Proof. intro H. exact H. Qed.

Lemma tidy_close (r : Renderer) (g : list Z * Z) (p : Z) (closeall : bool) :
  tidy r g p -> tidy (close span closeall r) g p.
Proof.
  intro H. destruct (close_frame closeall r) as (L & Hch & HL & Ho & _).
  - apply H.
  - eapply tidy_markup; eassumption.
Qed.

Section Grid.

Variable term_to_rgb : Z -> list Z -> Z * Z * Z.

Lemma tidy_open (r : Renderer) (g : list Z * Z) (p : Z)
  (fg bg : option color) (seq : option str) (cls : option str) :
  tidy r g p -> is_code fg = true -> is_code bg = true ->
  exists r',
    open term_to_rgb fg bg seq span cls r = Done r'
    /\ tidy r' g p /\ opened r' = opened r + 1 /\ esc_style r' = esc_style r.
Proof.
  intros H Hfg Hbg.
  destruct (open_done term_to_rgb fg bg seq span cls r Hfg Hbg)
    as (html & r' & Hopen & Hch & Ho & Hs).
  exists r'. split; [exact Hopen|]. split; [|split; assumption].
  eapply tidy_markup; [exact H|exact Hch|reflexivity|].
  destruct H as (_ & _ & H). lia.
Qed.

(** The guarded [open] of lines 308 and 336. *)
Lemma tidy_open_if (b : bool) (r : Renderer) (g : list Z * Z) (p : Z)
  (fg bg : option color) :
  tidy r g p -> is_code fg = true -> is_code bg = true ->
  exists r',
    (if b then open term_to_rgb fg bg None span None r else Done r) = Done r'
    /\ tidy r' g p.
Proof.
  intros H Hfg Hbg. destruct b.
  - destruct (tidy_open r g p fg bg None None H Hfg Hbg) as (r' & ? & ? & _).
    eauto.
  - eauto.
Qed.

End Grid.

Lemma tidy_wrap (w : Z) (fuel : nat) (c : str) (prev p : Z)
  (r : Renderer) (rows : list Z) :
  1 <= w -> 0 <= prev <= w -> len c <= Z.of_nat fuel ->
  tidy r (rows, prev) p ->
  exists k l' c' r',
    _wrap_line fuel c (prev + len c) w r = Done (k, l', c', r')
    /\ tidy (append (Text c') r') (rows ++ repeat w (Z.to_nat k), l') p
    /\ esc_style r' = esc_style r /\ opened r' = opened r
    /\ 0 <= k /\ 0 <= l' <= w
    /\ k * w + l' = prev + len c
    /\ (0 < k -> 1 <= l')
    /\ (c' = [] <-> c = []).
Proof.
  intros Hw Hprev Hfuel Ht.
  destruct (wrap_line_running w fuel c prev r rows Hw Hprev Hfuel)
    as (k & l' & c' & pre & Hrun & Hgrid & Hpads & Hk & Hl & Hsum & Hpos & Hnil).
  exists k, l', c', (extend pre r).
  split; [exact Hrun|]. split; [|repeat split; try assumption; try lia; apply Hnil].
  rewrite append_extend, extend_extend.
  pose proof (tidy_extend r (rows, prev) p (pre ++ [Text c']) Ht) as H.
  rewrite Hgrid in H. rewrite pads_app, Hpads in H.
  replace (p + (0 + pads [Text c'])) with p in H by (unfold pads, len; simpl; lia).
  exact H.
Qed.

Lemma len_slice_le {A : Type} (s : list A) (lo hi : option Z) :
  len (py_slice s lo hi) <= len s.
Proof.
  unfold py_slice, len. rewrite length_firstn, length_skipn. lia.
Qed.

Lemma repeat_add_Z {A : Type} (x : A) (a b : Z) :
  0 <= a -> 0 <= b ->
  repeat x (Z.to_nat (a + b)) = repeat x (Z.to_nat a) ++ repeat x (Z.to_nat b).
Proof. intros Ha Hb. rewrite Z2Nat.inj_add by assumption. apply repeat_app. Qed.

Section Lines.

Variable term_to_rgb : Z -> list Z -> Z * Z * Z.
Variable parse_escape :
  str -> option color -> option color -> list Z ->
  option color * option color * list Z.

Lemma render_matches_grid :
  forall (ms : list sgr_match) (fuel : nat) (w : Z) (line : str)
    (last_i line_l : Z) (f : frame) (rows : list Z) (p : Z),
    1 <= w -> len line <= Z.of_nat fuel -> 0 <= line_l <= w ->
    tidy (rd f) (rows, line_l) p -> code_frame f -> codes_kept parse_escape ms ->
    exists line_l' f' k,
      render_matches term_to_rgb parse_escape fuel w line ms last_i line_l f
      = Done (last_end ms last_i, line_l', f')
      /\ tidy (rd f') (rows ++ repeat w (Z.to_nat k), line_l') p
      /\ code_frame f' /\ line_c f' = line_c f + k
      /\ 0 <= k /\ 0 <= line_l' <= w
      /\ k * w + line_l' = line_l + run_cells (fst (runs line ms last_i))
      /\ (0 < k \/ 1 <= line_l -> 1 <= line_l').
Proof.
  induction ms as [|m ms IH];
    intros fuel w line last_i line_l f rows p Hw Hfuel Hl Ht Hcf Hks.
  - exists line_l, f, 0. cbn [render_matches last_end runs fst run_cells fold_right].
    replace (Z.to_nat 0) with O by reflexivity. cbn [repeat].
    rewrite app_nil_r. split; [reflexivity|]. split; [exact Ht|].
    split; [exact Hcf|]. repeat split; lia.
  - cbn [render_matches last_end].
    set (c := py_slice line (Some last_i) (Some (m_start m))).
    assert (Hc : len c <= Z.of_nat fuel)
      by (pose proof (len_slice_le line (Some last_i) (Some (m_start m))); unfold c; lia).
    destruct Hcf as [Hfg Hbg].
    destruct (tidy_open_if term_to_rgb
                (truthy c && (last_i =? 0) && (opened (rd f) =? 0))
                (rd f) (rows, line_l) p (cur_fg f) (cur_bg f) Ht Hfg Hbg)
      as (r1 & Hopen1 & Ht1).
    rewrite Hopen1. cbn [bind].
    destruct (tidy_wrap w fuel c line_l p r1 rows Hw Hl Hc Ht1)
      as (k1 & l1 & c1 & r2 & Hwrap & Ht2 & _ & _ & Hk1 & Hl1 & Hsum1 & Hpos1 & _).
    rewrite Hwrap. cbn [bind].
    set (r4 := if last_i =? 0 then close span false (append (Text c1) r2)
               else append (Text c1) r2).
    assert (Ht4 : tidy r4 (rows ++ repeat w (Z.to_nat k1), l1) p).
    { unfold r4. destruct (last_i =? 0); [apply tidy_close|]; exact Ht2. }
    destruct (Hks m (cur_fg f) (cur_bg f) (esc_style r4) (or_introl eq_refl) Hfg Hbg)
      as [Hfg' Hbg'].
    destruct (parse_escape (m_group m) (cur_fg f) (cur_bg f) (esc_style r4))
      as [[fg bg] sty].
    cbn [fst snd] in Hfg', Hbg'.
    assert (Ht6 : tidy (close span false (set_esc_style sty r4))
                    (rows ++ repeat w (Z.to_nat k1), l1) p)
      by (apply tidy_close, tidy_style, Ht4).
    destruct (tidy_open term_to_rgb _ _ _ fg bg (Some (m_group m)) None Ht6 Hfg' Hbg')
      as (r7 & Hopen7 & Ht7 & _).
    rewrite Hopen7. cbn [bind].
    destruct (IH fuel w line (m_end m) l1 (mkFrame fg bg (line_c f + k1) r7)
                (rows ++ repeat w (Z.to_nat k1)) p Hw Hfuel Hl1 Ht7)
      as (l' & f' & k2 & Hrun & Ht' & Hcf' & Hlc & Hk2 & Hl' & Hsum2 & Hpos2).
    { split; assumption. }
    { intros m0 fg0 bg0 sty0 Hin. apply Hks. now right. }
    exists l', f', (k1 + k2). split; [exact Hrun|].
    rewrite repeat_add_Z, app_assoc by assumption.
    split; [exact Ht'|]. split; [exact Hcf'|].
    cbn [line_c] in Hlc. split; [lia|]. split; [lia|]. split; [lia|].
    cbn [runs]. destruct (runs line ms (m_end m)) as [rs t] eqn:Hruns.
    cbn [fst] in *. unfold run_cells in *. cbn [fold_right]. fold c.
    set (cells := fold_right _ 0 rs) in *. pose proof (len_nonneg c) as Hc0.
    clearbody cells c r4.
    split; [lia|]. intros H. apply Hpos2.
    destruct (Z.eq_dec k1 0) as [->|Hk]; lia.
Qed.

End Lines.

Lemma len_py_mul (n : Z) : len (py_mul (lit " ") n) = Z.max n 0.
Proof.
  unfold py_mul, len.
  assert (H : forall k, length (concat (repeat (lit " ") k)) = k).
  { induction k as [|k IH]; [reflexivity|]. simpl. now rewrite IH. }
  rewrite H. lia.
Qed.

Lemma truthy_len {A : Type} (s : list A) : truthy s = (0 <? len s).
Proof.
  destruct s; [reflexivity|]. rewrite len_cons. pose proof (len_nonneg s).
  symmetry. apply Z.ltb_lt. lia.
Qed.

Lemma truthy_nil {A : Type} (s : list A) : truthy s = false <-> s = [].
Proof. destruct s; simpl; split; congruence. Qed.

Section Tail.

Variable term_to_rgb : Z -> list Z -> Z * Z * Z.

(** The padding proper: after [closeall], a run of spaces inside a
    non-selectable [span]. *)
Lemma pad_grid (r : Renderer) (rows : list Z) (l p n : Z) :
  tidy r (rows, l) p -> opened r = 0 -> 0 < n ->
  exists r',
    (r1 <- open term_to_rgb None None None span (Some (lit "ns")) r ;;
     Done (close span false (append (Pad (py_mul (lit " ") n)) r1))) = Done r'
    /\ tidy r' (rows, l + n) (p + 1)
    /\ ends_with_ns_pad n (chunks r')
    /\ opened r' = 0.
Proof.
  intros Ht Ho Hn.
  destruct (open_ns term_to_rgb r) as (tag & r1 & Hopen & Hch & Ho1 & _ & Htag).
  rewrite Hopen. cbn [bind]. eexists. split; [reflexivity|].
  assert (Ht1 : tidy r1 (rows, l) p).
  { eapply tidy_markup; [exact Ht|exact Hch|reflexivity|lia]. }
  rewrite close_one by (cbn [append opened]; lia).
  split; [|split].
  - pose proof (tidy_pad r1 rows l p (py_mul (lit " ") n) Ht1) as H.
    rewrite len_py_mul in H. replace (Z.max n 0) with n in H by lia.
    apply (tidy_markup _ _ _ _ [Markup (lit "</span>")] H);
      [reflexivity|reflexivity|cbn [append set_opened opened]; lia].
  - exists (chunks r), tag. split; [|exact Htag].
    cbn [append set_opened chunks]. rewrite Hch, <- !app_assoc. reflexivity.
  - cbn [append set_opened opened]. lia.
Qed.

Lemma render_tail_grid (fuel : nat) (w h : Z) (line : str) (last_i line_l : Z)
  (f : frame) (rows : list Z) (p : Z) :
  1 <= w -> len line <= Z.of_nat fuel -> 0 <= line_l <= w ->
  tidy (rd f) (rows, line_l) p -> code_frame f ->
  exists c' f' k l',
    render_tail term_to_rgb fuel (w, h) line last_i line_l f = Done (c', f')
    /\ 0 <= k /\ 0 <= l' <= w
    /\ k * w + l' = line_l + len (py_slice line (Some last_i) None)
    /\ (0 < k \/ 1 <= line_l -> 1 <= l')
    /\ (c' = [] <-> py_slice line (Some last_i) None = [])
    /\ code_frame f'
    /\ (line_c f + k < h ->
        line_c f' = line_c f + k
        /\ tidy (rd f') (rows ++ repeat w (Z.to_nat k), w)
             (p + (if l' <? w then 1 else 0))
        /\ (l' < w -> ends_with_ns_pad (w - l') (chunks (rd f'))))
    /\ (h <= line_c f + k ->
        line_c f' = line_c f
        /\ tidy (rd f') (rows ++ repeat w (Z.to_nat k), l') p).
Proof.
  intros Hw Hfuel Hl Ht Hcf. unfold render_tail. cbn [fst snd].
  set (c := py_slice line (Some last_i) None).
  assert (Hc : len c <= Z.of_nat fuel)
    by (pose proof (len_slice_le line (Some last_i) None); unfold c; lia).
  assert (Hcond : truthy c || negb (len c =? w) = true).
  { destruct (truthy c) eqn:E; [reflexivity|]. apply truthy_nil in E.
    rewrite E. cbn [orb]. apply negb_true_iff, Z.eqb_neq.
    change (len (@nil N)) with 0. lia. }
  rewrite Hcond. destruct Hcf as [Hfg Hbg].
  destruct (tidy_open_if term_to_rgb (opened (rd f) =? 0)
              (rd f) (rows, line_l) p (cur_fg f) (cur_bg f) Ht Hfg Hbg)
    as (r1 & Hopen1 & Ht1).
  rewrite Hopen1. cbn [bind].
  destruct (tidy_wrap w fuel c line_l p r1 rows Hw Hl Hc Ht1)
    as (k & l' & c' & r2 & Hwrap & Ht2 & _ & _ & Hk & Hl' & Hsum & Hpos & Hnil).
  rewrite Hwrap. cbn [bind].
  assert (Ht3 : tidy (close span true (append (Text c') r2))
                  (rows ++ repeat w (Z.to_nat k), l') p)
    by (apply tidy_close, Ht2).
  assert (Ho3 : opened (close span true (append (Text c') r2)) = 0).
  { destruct (close_frame true (append (Text c') r2)) as (L & _ & _ & _ & _ & _ & H).
    - apply Ht2.
    - now apply H. }
  assert (Hpos' : 0 < k \/ 1 <= line_l -> 1 <= l').
  { intro H. pose proof (len_nonneg c). destruct (Z.eq_dec k 0) as [->|]; lia. }
  destruct (Z.ltb_spec (line_c f + k) h) as [Hin|Hout]; cbn [bind].
  - rewrite truthy_len, len_py_mul.
    destruct (Z.ltb_spec 0 (Z.max (w - l') 0)) as [Hpad|Hfull].
    + destruct (pad_grid _ (rows ++ repeat w (Z.to_nat k)) l' p (w - l') Ht3 Ho3)
        as (r5 & Hrun & Ht5 & Hends & _); [lia|].
      rewrite Hrun. cbn [bind].
      eexists. eexists. exists k, l'. split; [reflexivity|].
      cbn [line_c rd cur_fg cur_bg].
      split; [exact Hk|]. split; [exact Hl'|]. split; [exact Hsum|].
      split; [exact Hpos'|]. split; [exact Hnil|]. split; [split; assumption|].
      split; [|intro; lia]. intros _. split; [reflexivity|].
      destruct (Z.ltb_spec l' w); [|lia].
      replace (l' + (w - l')) with w in Ht5 by lia. split; [exact Ht5|].
      intros _. exact Hends.
    + cbn [bind].
      eexists. eexists. exists k, l'. split; [reflexivity|].
      cbn [line_c rd cur_fg cur_bg].
      split; [exact Hk|]. split; [exact Hl'|]. split; [exact Hsum|].
      split; [exact Hpos'|]. split; [exact Hnil|]. split; [split; assumption|].
      split; [|intro; lia]. intros _. split; [reflexivity|].
      destruct (Z.ltb_spec l' w); [lia|].
      replace w with l' at 2 by lia. rewrite Z.add_0_r. split; [exact Ht3|].
      intro. lia.
  - cbn [truthy bind].
    eexists. eexists. exists k, l'. split; [reflexivity|].
    cbn [line_c rd cur_fg cur_bg].
    split; [exact Hk|]. split; [exact Hl'|]. split; [exact Hsum|].
    split; [exact Hpos'|]. split; [exact Hnil|]. split; [split; assumption|].
    split; [intro; lia|]. intros _. split; [reflexivity|exact Ht3].
Qed.

End Tail.

(** ** Lines and rows *)

Lemma runs_tail (line : str) (ms : list sgr_match) (last_i : Z) :
  snd (runs line ms last_i) = py_slice line (Some (last_end ms last_i)) None.
Proof.
  revert last_i. induction ms as [|m ms IH]; intro last_i; [reflexivity|].
  cbn [runs last_end]. rewrite <- IH.
  now destruct (runs line ms (m_end m)).
Qed.






Lemma py_split_len (c : N) (s line : str) :
  In line (py_split c s) -> len line <= len s.
Proof.
  revert line. induction s as [|x s IH]; intros line Hin.
  - simpl in Hin. destruct Hin as [<-|[]]. lia.
  - cbn [py_split] in Hin. rewrite len_cons. destruct (N.eqb x c).
    + destruct Hin as [<-|Hin]; [pose proof (len_nonneg s); change (len (@nil N)) with 0; lia|].
      specialize (IH line Hin). lia.
    + destruct (py_split c s) as [|w0 ws] eqn:E.
      * destruct Hin as [<-|[]]. pose proof (len_nonneg s).
        rewrite len_cons. change (len (@nil N)) with 0. lia.
      * destruct Hin as [<-|Hin].
        -- rewrite len_cons. specialize (IH w0 (or_introl eq_refl)). lia.
        -- specialize (IH line (or_intror Hin)). lia.
Qed.

Section Pane.

Variable term_to_rgb : Z -> list Z -> Z * Z * Z.
Variable parse_escape :
  str -> option color -> option color -> list Z ->
  option color * option color * list Z.


End Pane.



Section Block.

Variable term_to_rgb : Z -> list Z -> Z * Z * Z.
Variable parse_escape :
  str -> option color -> option color -> list Z ->
  option color * option color * list Z.






End Block.

(** ** Scenarios *)

Lemma styled_text_code_only : code_only Color.parse_escape styled_text.
Proof.
  intros line m fg bg sty Hl Hm Hfg Hbg.
  vm_compute in Hl. destruct Hl as [<-|[<-|[]]]; vm_compute in Hm.
  - destruct Hm as [<-|[<-|[]]]; vm_compute; split; auto.
  - destruct Hm.
Qed.



(** The empty text in a pane of size (3, 2): the padding of the empty
    last line is followed by no line feed, so the first blank row comes
    out six cells wide. *)
Example render_empty_text :
  exists r',
    _render Color.term_to_rgb Color.parse_escape 0 [] (3, 2) fresh = Done r'
    /\ grid (chunks r') = ([6; 3], 0).
Proof. eexists. split; reflexivity. Qed.

(** A truecolor foreground makes [open] raise. *)
Example open_rgb_raises :
  open Color.term_to_rgb (Some (Rgb 255 0 0)) None None span None fresh
  = Raise TypeError.
Proof. reflexivity. Qed.



(** ** The stylesheet registry *)

Lemma str_eqb_refl (a : str) : str_eqb a a = true.
Proof. now apply str_eqb_eq. Qed.

Lemma dict_set_twice (k : str) (v : css_value) (d : list (str * css_value)) :
  dict_set k v (dict_set k v d) = dict_set k v d.
Proof.
  induction d as [|[k0 v0] d IH]; cbn [dict_set].
  - now rewrite str_eqb_refl.
  - destruct (str_eqb k0 k) eqn:E; cbn [dict_set]; rewrite E; [reflexivity|].
    now rewrite IH.
Qed.

Lemma dict_get_set (k : str) (v : css_value) (d : list (str * css_value)) :
  dict_get k (dict_set k v d) = Some v.
Proof.
  induction d as [|[k0 v0] d IH]; cbn [dict_set dict_get].
  - now rewrite str_eqb_refl.
  - destruct (str_eqb k0 k) eqn:E; cbn [dict_get]; rewrite E; [reflexivity|exact IH].
Qed.

Lemma dict_get_set_other (k k' : str) (v : css_value) (d : list (str * css_value)) :
  k' <> k -> dict_get k (dict_set k' v d) = dict_get k d.
Proof.
  intro Hne. induction d as [|[k0 v0] d IH]; cbn [dict_set dict_get].
  - destruct (str_eqb k' k) eqn:E; [apply str_eqb_eq in E; contradiction|reflexivity].
  - destruct (str_eqb k0 k') eqn:E; cbn [dict_get].
    + apply str_eqb_eq in E. subst k0.
      destruct (str_eqb k' k) eqn:E'; [apply str_eqb_eq in E'; contradiction|].
      reflexivity.
    + destruct (str_eqb k0 k); [reflexivity|exact IH].
Qed.

Lemma dict_set_length (k : str) (v : css_value) (d : list (str * css_value)) :
  length (dict_set k v d) = if dict_has k d then length d else S (length d).
Proof.
  induction d as [|[k0 v0] d IH]; cbn [dict_set dict_has existsb fst]; [reflexivity|].
  destruct (str_eqb k0 k) eqn:E; cbn [orb length]; [reflexivity|].
  fold (dict_has k d). rewrite IH. now destruct (dict_has k d).
Qed.

Lemma is_prefix_app (p rest : str) : is_prefix p (p ++ rest) = true.
Proof.
  induction p as [|x p IH]; [reflexivity|]. cbn [app is_prefix].
  now rewrite N.eqb_refl, IH.
Qed.

Section Registry.

Variable term_to_rgb : Z -> list Z -> Z * Z * Z.

Lemma update_css_shape (prefix : str) (c : option color) (r : Renderer) :
  (c = None /\ update_css term_to_rgb prefix c r = ([], r))
  \/ exists rest v,
       update_css term_to_rgb prefix c r
       = (prefix ++ rest, set_css (prefix ++ rest) v r)
       /\ forall r0, esc_style r0 = esc_style r ->
            update_css term_to_rgb prefix c r0
            = (prefix ++ rest, set_css (prefix ++ rest) v r0).
Proof.
  destruct c as [[n|a b c]|]; [right|right|left; split; reflexivity].
  - unfold update_css. eexists. eexists. split; [reflexivity|].
    intros r0 Hs. rewrite Hs. reflexivity.
  - unfold update_css. eexists. eexists. split; [reflexivity|].
    intros r0 Hs. rewrite Hs. reflexivity.
Qed.

(** X1: registering a colour a second time, under the same style list,
    returns the same key and leaves the registry as the first registration
    left it, which holds the rule under that key; the registry grows by one
    entry at most. *)
Theorem update_css_idempotent (prefix : str) (c : option color) (r : Renderer) :
  update_css term_to_rgb prefix c (snd (update_css term_to_rgb prefix c r))
  = update_css term_to_rgb prefix c r
  /\ (c <> None ->
      dict_has (fst (update_css term_to_rgb prefix c r))
        (css (snd (update_css term_to_rgb prefix c r))) = true)
  /\ (length (css (snd (update_css term_to_rgb prefix c r))) <= S (length (css r)))%nat.
Proof.
  destruct (update_css_shape prefix c r) as [[-> H]|(rest & v & H & Hsame)].
  - rewrite H. cbn [snd fst]. rewrite H. repeat split; [congruence|lia].
  - rewrite H. cbn [snd fst]. rewrite Hsame by reflexivity.
    split; [|split].
    + f_equal. unfold set_css. cbn [css opened chunks esc_style].
      now rewrite dict_set_twice.
    + intros _. apply dict_has_set.
    + cbn [set_css css]. rewrite dict_set_length.
      destruct (dict_has (prefix ++ rest) (css r)); lia.
Qed.

Lemma update_css_keeps (prefix : str) (c : option color) (r : Renderer) (k : str) :
  (dict_has k (css r) = true ->
   dict_has k (css (snd (update_css term_to_rgb prefix c r))) = true)
  /\ (is_prefix prefix k = false ->
      dict_get k (css (snd (update_css term_to_rgb prefix c r))) = dict_get k (css r)).
Proof.
  destruct (update_css_shape prefix c r) as [[-> H]|(rest & v & H & _)];
    rewrite H; cbn [snd]; [tauto|].
  split.
  - apply dict_has_keep.
  - intro Hp. cbn [set_css css]. apply dict_get_set_other.
    intros <-. rewrite is_prefix_app in Hp. discriminate.
Qed.

Lemma open_css_kept (fg bg : option color) (seq : option str) (tag : str)
  (cls : option str) (r r' : Renderer) :
  open term_to_rgb fg bg seq tag cls r = Done r' ->
  (forall k, dict_has k (css r) = true -> dict_has k (css r') = true)
  /\ (forall k, is_prefix (lit "f") k = false -> is_prefix (lit "b") k = false ->
                dict_get k (css r') = dict_get k (css r)).
Proof.
  unfold open, open_classes.
  destruct (if mem 7 (esc_style r) then (bg, fg) else (fg, bg)) as [fg' bg'].
  pose proof (update_css_keeps (lit "f") fg' r) as Hf.
  destruct (update_css term_to_rgb (lit "f") fg' r) as [k1 r1].
  pose proof (update_css_keeps (lit "b") bg' r1) as Hb.
  destruct (update_css term_to_rgb (lit "b") bg' r1) as [k2 r2].
  cbn [snd] in Hf, Hb.
  destruct (plain_fg fg'); cbn [bind]; try discriminate.
  intro H. injection H as <-. cbn [append set_opened css]. split.
  - intros k Hk. apply Hb, Hf, Hk.
  - intros k Hkf Hkb. rewrite (proj2 (Hb k) Hkb). apply Hf, Hkf.
Qed.

(** X2: a tag that [open] manages to open leaves every class of the
    registry registered, and leaves the rule of every key that starts
    with neither [f] nor [b], the static classes among them, as it was. *)
Theorem open_keeps_registry (fg bg : option color) (seq : option str) (tag : str)
  (cls : option str) (r r' : Renderer) :
  open term_to_rgb fg bg seq tag cls r = Done r' ->
  (forall k, dict_has k (css r) = true -> dict_has k (css r') = true)
  /\ (forall k, is_prefix (lit "f") k = false -> is_prefix (lit "b") k = false ->
                dict_get k (css r') = dict_get k (css r)).
Proof. apply open_css_kept. Qed.

End Registry.

Lemma open_keeps_registry_witness :
  (forall k, dict_has k reset_css = true ->
             dict_has k (reset_css ++ [(lit "f9", Decl (lit "color: #ff5555;"))]) = true)
  /\ (forall k, is_prefix (lit "f") k = false -> is_prefix (lit "b") k = false ->
                dict_get k (reset_css ++ [(lit "f9", Decl (lit "color: #ff5555;"))])
                = dict_get k reset_css).
Proof.
  apply (open_keeps_registry Color.term_to_rgb (Some (Code 1)) None
           (Some (lit "1;31")) span None (set_esc_style [1] fresh)
           (mkRenderer 1
              [Markup (lit "<span class=" ++ dq ++ lit "f9" ++ dq
                       ++ lit " data-seq=" ++ dq ++ lit "1;31" ++ dq ++ lit ">")]
              (reset_css ++ [(lit "f9", Decl (lit "color: #ff5555;"))]) [1])).
  reflexivity.
Defined.

(** ** Escaping, piece by piece *)

Lemma py_replace_app (c : N) (rep a b : str) :
  py_replace c rep (a ++ b) = py_replace c rep a ++ py_replace c rep b.
Proof. apply flat_map_app. Qed.

Lemma escape_app (a b : str) : escape (a ++ b) = escape a ++ escape b.
Proof. unfold escape. now rewrite !py_replace_app. Qed.

Lemma escape_text_app (a b : str) :
  _escape_text (a ++ b) = _escape_text a ++ _escape_text b.
Proof. unfold _escape_text. rewrite escape_app. apply flat_map_app. Qed.

(** X3: escaping is done character by character: the escaped form of a
    text cut into pieces is the concatenation of the escaped pieces, so
    cutting a run at a row boundary never splits an entity or a
    placeholder. *)
Theorem escape_text_concat (pieces : list str) :
  _escape_text (concat pieces) = concat (map _escape_text pieces).
Proof.
  induction pieces as [|p pieces IH]; [reflexivity|].
  cbn [concat map]. now rewrite escape_text_app, IH.
Qed.

Lemma escape_text_plain_char (c : N) :
  plain_char c = true -> _escape_text [c] = [c].
Proof.
  unfold plain_char. intro H.
  repeat (apply andb_true_iff in H; destruct H as [H ?]).
  repeat match goal with
         | Hn : negb (N.eqb _ _) = true |- _ =>
             apply negb_true_iff, N.eqb_neq in Hn
         end.
  apply N.ltb_lt in H.
  unfold _escape_text, escape. rewrite !py_replace_other by assumption.
  cbn [flat_map]. destruct (N.leb_spec 128 c); [lia|]. reflexivity.
Qed.

(** ** Wrapping from any column *)

Lemma slice_split {A : Type} (s : list A) (i : Z) :
  py_slice s None (Some i) ++ py_slice s (Some i) None = s.
Proof.
  unfold py_slice. rewrite Z.sub_0_r. cbn [Z.to_nat skipn].
  replace (Z.to_nat 0) with O by reflexivity. cbn [skipn].
  rewrite (firstn_all2 (n := Z.to_nat (len s - clamp_index (len s) i))).
  - apply firstn_skipn.
  - rewrite length_skipn. unfold len, clamp_index.
    destruct (i <? 0); lia.
Qed.

Lemma wrap_loop_keeps (maxlength : Z) :
  forall (fuel : nat) (lc length : Z) (line : str) (r : Renderer)
    (lc' l' : Z) (c' : str) (r' : Renderer),
    wrap_loop fuel maxlength (lc, length, line, r) = Done (lc', l', c', r') ->
    exists slices,
      r' = extend (cut_chunks slices) r
      /\ concat slices ++ c' = line
      /\ lc' = lc + len slices
      /\ (slices = [] /\ l' = length \/ slices <> [] /\ l' = len c').
Proof.
  induction fuel as [|fuel IH]; intros lc length line r lc' l' c' r';
    rewrite wrap_loop_eq;
    destruct (wrap_test maxlength (lc, length, line, r)) eqn:Ht;
    try discriminate.
  - intro H. injection H as <- <- <- <-. exists [].
    rewrite extend_nil. change (len (@nil (list N))) with 0.
    repeat split; auto; lia.
  - unfold wrap_body. intro H. apply IH in H as (slices & -> & Hcat & -> & Hl).
    exists (py_slice line None (Some (maxlength - length)) :: slices).
    rewrite !append_extend, !extend_extend. cbn [cut_chunks flat_map app].
    split; [reflexivity|]. split; [|split].
    + cbn [concat]. rewrite <- app_assoc, Hcat. apply slice_split.
    + rewrite len_cons. lia.
    + right. split; [discriminate|].
      destruct Hl as [[-> Hl]|[_ Hl]]; [|exact Hl].
      cbn [concat app] in Hcat. now subst c'.
  - intro H. injection H as <- <- <- <-. exists [].
    rewrite extend_nil. change (len (@nil (list N))) with 0.
    repeat split; auto; lia.
Qed.

(** X5: whatever the running length, for a width of at least 1 and fuel
    for the length, [_wrap_line] returns, and it neither drops nor repeats
    a character: the slices it appended, each followed by a line feed, and
    the rest it returns concatenate to the line; nothing else of the
    renderer changes, and the count returned is the number of slices. *)
Theorem wrap_line_keeps_text (fuel : nat) (line : str) (length maxlength : Z)
  (r : Renderer) :
  1 <= maxlength -> length <= Z.of_nat fuel ->
  exists slices l' c',
    _wrap_line fuel line length maxlength r
    = Done (len slices, l', c', extend (cut_chunks slices) r)
    /\ concat slices ++ c' = line
    /\ (slices = [] /\ l' = length \/ slices <> [] /\ l' = len c').
Proof.
  intros Hw Hfuel. unfold _wrap_line.
  destruct (wrap_loop_enough maxlength Hw fuel 0 length line r Hfuel)
    as ([[[lc' l'] c'] r'] & Hrun).
  destruct (wrap_loop_keeps _ _ _ _ _ _ _ _ _ _ Hrun) as (slices & -> & Hcat & -> & Hl).
  exists slices, l', c'. rewrite Hrun. repeat split; assumption.
Qed.

Lemma wrap_line_keeps_text_witness :
  exists slices l' c',
    _wrap_line 9 (lit "defghij") 9 3 fresh
    = Done (len slices, l', c', extend (cut_chunks slices) fresh)
    /\ concat slices ++ c' = lit "defghij"
    /\ (slices = [] /\ l' = 9 \/ slices <> [] /\ l' = len c').
Proof. apply (wrap_line_keeps_text 9 (lit "defghij") 9 3 fresh); lia. Defined.

(** ** Colours as hexadecimal *)

Lemma hex02_byte (n : Z) :
  byte_range n = true ->
  len (hex02 n) = 2 /\ forallb is_hex_digit (hex02 n) = true.
Proof.
  unfold byte_range. intro H. apply andb_true_iff in H as [H0 H255].
  apply Z.leb_le in H0, H255.
  assert (Hall : forallb (fun k => (len (hex02 (Z.of_nat k)) =? 2)
                                   && forallb is_hex_digit (hex02 (Z.of_nat k)))
                   (seq 0 256) = true) by (vm_compute; reflexivity).
  rewrite forallb_forall in Hall.
  specialize (Hall (Z.to_nat n)). rewrite Z2Nat.id in Hall by assumption.
  apply andb_true_iff in Hall as [Hlen Hhex]; [|apply in_seq; lia].
  apply Z.eqb_eq in Hlen. split; assumption.
Qed.

Section Hex.

Variable term_to_rgb : Z -> list Z -> Z * Z * Z.

(** X6: [rgbhex] gives [none] for no colour and for the colour code 0;
    for any other colour whose channels are in the range of a byte it
    gives a number sign followed by six lowercase hexadecimal digits. *)
Theorem rgbhex_well_formed (c : option color) (style : list Z) :
  channels_in_range term_to_rgb c style = true ->
  if falsy_color c then rgbhex term_to_rgb c style = lit "none"
  else exists digits,
         rgbhex term_to_rgb c style = lit "#" ++ digits
         /\ len digits = 6 /\ forallb is_hex_digit digits = true.
Proof.
  assert (Hsix : forall r g b,
             byte_range r && byte_range g && byte_range b = true ->
             exists digits,
               lit "#" ++ hex02 r ++ hex02 g ++ hex02 b = lit "#" ++ digits
               /\ len digits = 6 /\ forallb is_hex_digit digits = true).
  { intros r g b H. apply andb_true_iff in H as [H Hb].
    apply andb_true_iff in H as [Hr Hg].
    destruct (hex02_byte r Hr) as [Lr Xr], (hex02_byte g Hg) as [Lg Xg],
      (hex02_byte b Hb) as [Lb Xb].
    exists (hex02 r ++ hex02 g ++ hex02 b). split; [reflexivity|].
    rewrite !len_app, !forallb_app, Lr, Lg, Lb, Xr, Xg, Xb. split; reflexivity. }
  destruct c as [[n|r g b]|]; cbn [channels_in_range falsy_color rgbhex].
  - destruct (n =? 0); [reflexivity|].
    destruct (term_to_rgb n style) as [[r g] b]. apply Hsix.
  - apply Hsix.
  - reflexivity.
Qed.

End Hex.

Lemma rgbhex_well_formed_witness :
  exists digits,
    rgbhex Color.term_to_rgb (Some (Rgb 250 250 250)) [] = lit "#" ++ digits
    /\ len digits = 6 /\ forallb is_hex_digit digits = true.
Proof.
  apply (rgbhex_well_formed Color.term_to_rgb (Some (Rgb 250 250 250)) []).
  reflexivity.
Defined.

(** ** Pane indices within the list *)

(** X9: a pane index within the list selects the pane at that position,
    a negative index counting from the end of the list; an index below
    minus the length of the list raises [IndexError]. *)
Theorem pane_index_selects
  (get_layout : Z -> option str -> Pane) (pane_list : Pane -> list Pane)
  (target : str) (session : option str) (window i : Z) :
  parse_target target = Done (session, window, Some i) ->
  let panes := pane_list (get_layout window session) in
  (- len panes <= i < len panes ->
   exists p,
     nth_error panes (Z.to_nat (if i <? 0 then i + len panes else i)) = Some p
     /\ select_pane get_layout pane_list target = Done p)
  /\ (i < - len panes ->
      select_pane get_layout pane_list target = Raise IndexError).
Proof.
  intros Hparse panes. unfold select_pane. rewrite Hparse. cbn [bind].
  fold panes. unfold py_index. split.
  - intro Hi. set (j := if i <? 0 then i + len panes else i).
    assert (Hj : 0 <= j < len panes) by (unfold j; destruct (Z.ltb_spec i 0); lia).
    destruct (Z.ltb_spec j 0); [lia|].
    destruct (Z.leb_spec (len panes) j); [lia|]. cbn [orb].
    destruct (nth_error panes (Z.to_nat j)) as [p|] eqn:E; [eauto|].
    apply nth_error_None in E. unfold len in Hj. lia.
  - intro Hi. destruct (Z.ltb_spec i 0); [|pose proof (len_nonneg panes); lia].
    destruct (Z.ltb_spec (i + len panes) 0); [reflexivity|lia].
Qed.

Lemma pane_index_selects_witness :
  select_pane (fun _ _ => window4) Utils.pane_list (lit "1.-1")
  = Done (mkPane 4 41 17 (39, 7) [] false)
  /\ select_pane (fun _ _ => window4) Utils.pane_list (lit "1.-5")
     = Raise IndexError.
Proof.
  destruct (pane_index_selects (fun _ _ => window4) Utils.pane_list
              (lit "1.-1") None 1 (-1) eq_refl) as [Hin _].
  destruct (pane_index_selects (fun _ _ => window4) Utils.pane_list
              (lit "1.-5") None 1 (-5) eq_refl) as [_ Hout].
  split.
  - destruct Hin as (p & Hp & Hsel);
      [vm_compute; split; [discriminate|reflexivity]|].
    vm_compute in Hp. injection Hp as <-. exact Hsel.
  - apply Hout. vm_compute. reflexivity.
Defined.

(** ** Escaping as one pass *)

Lemma escape_text_char (c : N) : _escape_text [c] = char_html c.
Proof.
  unfold char_html.
  destruct (N.eqb_spec c 38) as [->|H1]; [reflexivity|].
  destruct (N.eqb_spec c 60) as [->|H2]; [reflexivity|].
  destruct (N.eqb_spec c 62) as [->|H3]; [reflexivity|].
  destruct (N.eqb_spec c 34) as [->|H4]; [reflexivity|].
  destruct (N.eqb_spec c 39) as [->|H5]; [reflexivity|].
  destruct (N.leb_spec 128 c) as [Hge|Hlt]; cbn [andb].
  - destruct (N.leb_spec c 65535) as [Hle|Hgt].
    + apply escape_text_glyph. lia.
    + apply escape_text_beyond_bmp. lia.
  - apply escape_text_plain_char. unfold plain_char.
    apply N.ltb_lt in Hlt. rewrite Hlt.
    apply N.eqb_neq in H1, H2, H3, H4, H5. rewrite H1, H2, H3, H4, H5. reflexivity.
Qed.

(** X4: [_escape_text] acts as one pass over the characters: each of
    the five characters of markup becomes its entity, once (the ampersand
    of an entity is not escaped again, and no entity is taken for a
    character to replace), a character from U+0080 to U+FFFF becomes its
    placeholder, and any other character stays as it is. *)
Theorem escape_text_single_pass (s : str) :
  _escape_text s = flat_map char_html s.
Proof.
  induction s as [|c s IH]; [reflexivity|].
  change (c :: s) with ([c] ++ s) at 1.
  rewrite escape_text_app, escape_text_char, IH. reflexivity.
Qed.

(** ** What a render pass keeps *)

Lemma keeps_refl (r : Renderer) : keeps r r.
Proof.
  repeat split; auto. exists []. split; [now rewrite app_nil_r|reflexivity].
Qed.

Lemma keeps_trans (a b c : Renderer) : keeps a b -> keeps b c -> keeps a c.
Proof.
  intros ((o1 & H1 & B1) & K1 & G1 & P1 & L1) ((o2 & H2 & B2) & K2 & G2 & P2 & L2).
  repeat split.
  - exists (o1 ++ o2). split; [now rewrite H2, H1, app_assoc|].
    now rewrite forallb_app, B1, B2.
  - auto.
  - intros k Hf Hb. now rewrite G2, G1.
  - auto.
  - congruence.
Qed.

Lemma span_level_extend (L : list chunk) (r : Renderer) :
  forallb no_tag L = true -> span_level (extend L r) = span_level r.
Proof.
  intro H. unfold span_level, opens, closes, extend. cbn [chunks opened].
  rewrite !len_filter_app.
  assert (Ho : filter is_open_tag L = [] /\ filter is_close_tag L = []).
  { induction L as [|c L IH]; [split; reflexivity|].
    cbn [forallb] in H. apply andb_true_iff in H as [Hc HL].
    unfold no_tag in Hc. apply andb_true_iff in Hc as [Hco Hcc].
    apply negb_true_iff in Hco, Hcc. cbn [filter]. rewrite Hco, Hcc.
    apply IH, HL. }
  destruct Ho as [-> ->]. change (len (@nil chunk)) with 0. lia.
Qed.

Lemma keeps_extend (L : list chunk) (r : Renderer) :
  forallb no_tag L = true -> forallb block_chunk L = true -> keeps r (extend L r).
Proof.
  intros H B. repeat split; auto.
  - exists L. split; [reflexivity|exact B].
  - now apply span_level_extend.
Qed.

Lemma keeps_append (c : chunk) (r : Renderer) :
  no_tag c = true -> block_chunk c = true -> keeps r (append c r).
Proof.
  intros H B. rewrite append_extend. apply keeps_extend; cbn [forallb].
  - now rewrite H.
  - now rewrite B.
Qed.

Lemma keeps_style (sty : list Z) (r : Renderer) : keeps r (set_esc_style sty r).
Proof.
  repeat split; auto. exists []. cbn [set_esc_style chunks].
  split; [now rewrite app_nil_r|reflexivity].
Qed.

Lemma forallb_repeat {A : Type} (p : A -> bool) (x : A) (n : nat) :
  p x = true -> forallb p (repeat x n) = true.
Proof.
  intro H. induction n as [|n IH]; [reflexivity|]. cbn [repeat forallb].
  now rewrite H, IH.
Qed.

Lemma keeps_close (closeall : bool) (r : Renderer) :
  keeps r (close span closeall r).
Proof.
  unfold close. destruct (Z.ltb_spec 0 (opened r)) as [Hlt|Hle]; [|apply keeps_refl].
  destruct closeall; repeat split; auto; cbn [extend append set_opened chunks opened];
    try (eexists; split;
         [reflexivity|try apply forallb_repeat; reflexivity]); try lia;
    unfold span_level, opens, closes; cbn [extend append set_opened chunks opened];
    rewrite !len_filter_app.
  - rewrite !filter_repeat.
    change (is_open_tag (Markup (lit "</" ++ span ++ lit ">"))) with false.
    change (is_close_tag (Markup (lit "</" ++ span ++ lit ">"))) with true.
    cbv iota. rewrite len_repeat. change (len (@nil chunk)) with 0. lia.
  - change (len (filter is_open_tag [Markup (lit "</" ++ span ++ lit ">")])) with 0.
    change (len (filter is_close_tag [Markup (lit "</" ++ span ++ lit ">")])) with 1.
    lia.
Qed.

Lemma close_all_zero (r : Renderer) :
  0 <= opened r -> opened (close span true r) = 0.
Proof.
  intro H. unfold close. destruct (Z.ltb_spec 0 (opened r)); [reflexivity|lia].
Qed.

Lemma cut_chunks_no_tag (slices : list str) :
  forallb no_tag (cut_chunks slices) = true.
Proof. induction slices as [|s slices IH]; [reflexivity|exact IH]. Qed.

Lemma cut_chunks_block (slices : list str) :
  forallb block_chunk (cut_chunks slices) = true.
Proof. induction slices as [|s slices IH]; [reflexivity|exact IH]. Qed.

Lemma keeps_wrap (fuel : nat) (line : str) (length w : Z) (r r' : Renderer)
  (nl l' : Z) (c' : str) :
  _wrap_line fuel line length w r = Done (nl, l', c', r') ->
  keeps r r' /\ opened r' = opened r /\ esc_style r' = esc_style r.
Proof.
  unfold _wrap_line. intro H.
  apply wrap_loop_keeps in H as (slices & -> & _).
  split; [apply keeps_extend; [apply cut_chunks_no_tag|apply cut_chunks_block]
         |split; reflexivity].
Qed.

Section Keeps.

Variable term_to_rgb : Z -> list Z -> Z * Z * Z.
Variable parse_escape :
  str -> option color -> option color -> list Z ->
  option color * option color * list Z.

Lemma keeps_open (fg bg : option color) (seq cls : option str) (r r' : Renderer) :
  open term_to_rgb fg bg seq span cls r = Done r' ->
  keeps r r' /\ opened r' = opened r + 1.
Proof.
  intro H. destruct (open_css_kept term_to_rgb _ _ _ _ _ _ _ H) as [Hk Hg].
  destruct (open_inv term_to_rgb _ _ _ _ _ _ _ H) as (html & Hch & Ho & _).
  split; [|exact Ho]. repeat split; auto.
  - eexists. split; [exact Hch|reflexivity].
  - lia.
  - unfold span_level, opens, closes. rewrite Hch, !len_filter_app, Ho.
    change (len (filter is_open_tag [Markup (lit "<" ++ span ++ lit " " ++ html)]))
      with 1.
    change (len (filter is_close_tag [Markup (lit "<" ++ span ++ lit " " ++ html)]))
      with 0.
    lia.
Qed.

Lemma keeps_open_if (b : bool) (fg bg : option color) (r r' : Renderer) :
  (if b then open term_to_rgb fg bg None span None r else Done r) = Done r' ->
  keeps r r'.
Proof.
  destruct b; intro H.
  - now apply keeps_open in H.
  - injection H as <-. apply keeps_refl.
Qed.

Lemma render_matches_keeps :
  forall (ms : list sgr_match) (fuel : nat) (w : Z) (line : str)
    (last_i line_l : Z) (f : frame) (last_i' line_l' : Z) (f' : frame),
    render_matches term_to_rgb parse_escape fuel w line ms last_i line_l f
    = Done (last_i', line_l', f') ->
    keeps (rd f) (rd f').
Proof.
  induction ms as [|m ms IH]; intros fuel w line last_i line_l f last_i' line_l' f'.
  - cbn [render_matches]. intro H. injection H as _ _ <-. apply keeps_refl.
  - cbn [render_matches].
    destruct (if truthy _ && (last_i =? 0) && (opened (rd f) =? 0) then _ else _)
      as [r1| |] eqn:E1; cbn [bind]; try discriminate.
    apply keeps_open_if in E1.
    destruct (_wrap_line fuel _ _ w r1) as [[[[nl l1] c1] r2]| |] eqn:E2;
      cbn [bind]; try discriminate.
    apply keeps_wrap in E2 as (K2 & _).
    set (r4 := if last_i =? 0 then close span false (append (Text c1) r2)
               else append (Text c1) r2).
    assert (K4 : keeps r2 r4).
    { unfold r4. destruct (last_i =? 0).
      - eapply keeps_trans; [apply (keeps_append (Text c1)); reflexivity|].
        apply keeps_close.
      - apply (keeps_append (Text c1)); reflexivity. }
    destruct (parse_escape (m_group m) (cur_fg f) (cur_bg f) (esc_style r4))
      as [[fg bg] sty].
    destruct (open term_to_rgb fg bg (Some (m_group m)) span None
                (close span false (set_esc_style sty r4))) as [r7| |] eqn:E7;
      cbn [bind]; try discriminate.
    apply keeps_open in E7 as (K7 & _).
    intro H. apply IH in H. cbn [rd] in H.
    eapply keeps_trans; [exact E1|]. eapply keeps_trans; [exact K2|].
    eapply keeps_trans; [exact K4|].
    eapply keeps_trans; [apply (keeps_style sty)|].
    eapply keeps_trans; [apply (keeps_close false)|].
    eapply keeps_trans; [exact K7|exact H].
Qed.

Lemma render_tail_keeps (fuel : nat) (size : Z * Z) (line : str)
  (last_i line_l : Z) (f : frame) (c : str) (f' : frame) :
  render_tail term_to_rgb fuel size line last_i line_l f = Done (c, f') ->
  keeps (rd f) (rd f') /\ (0 <= opened (rd f) -> opened (rd f') = 0).
Proof.
  unfold render_tail.
  set (c0 := py_slice line (Some last_i) None).
  assert (Hfirst : forall pad c1 lc r3,
             (if truthy c0 || negb (len c0 =? fst size)
              then
                r <- (if opened (rd f) =? 0
                      then open term_to_rgb (cur_fg f) (cur_bg f) None span None (rd f)
                      else Done (rd f)) ;;
                '(nl, line_l0, c, r) <- _wrap_line fuel c0 (line_l + len c0) (fst size) r ;;
                (if line_c f + nl <? snd size
                 then Done (py_mul (lit " ") (fst size - line_l0), c, line_c f + nl, r)
                 else Done ([], c, line_c f, r))
              else Done ([], c0, line_c f, rd f)) = Done (pad, c1, lc, r3) ->
             keeps (rd f) r3 /\ (0 <= opened (rd f) -> 0 <= opened r3)).
  { intros pad c1 lc r3.
    destruct (truthy c0 || negb (len c0 =? fst size)).
    - destruct (if opened (rd f) =? 0 then _ else _) as [r1| |] eqn:E1;
        cbn [bind]; try discriminate.
      apply keeps_open_if in E1.
      destruct (_wrap_line fuel c0 _ (fst size) r1) as [[[[nl l1] c2] r2]| |] eqn:E2;
        cbn [bind]; try discriminate.
      apply keeps_wrap in E2 as (K2 & _).
      assert (K : keeps (rd f) r2) by (eapply keeps_trans; eassumption).
      destruct (line_c f + nl <? snd size); intro H; injection H as _ _ _ <-;
        (split; [exact K|apply K]).
    - intro H. injection H as _ _ _ <-. split; [apply keeps_refl|auto]. }
  destruct (if truthy c0 || negb (len c0 =? fst size) then _ else _)
    as [[[[pad c1] lc] r3]| |] eqn:E; cbn [bind]; try discriminate.
  destruct (Hfirst _ _ _ _ eq_refl) as (K3 & P3). clear Hfirst E.
  set (r4 := close span true (append (Text c1) r3)).
  assert (K4 : keeps (rd f) r4).
  { eapply keeps_trans; [exact K3|].
    eapply keeps_trans; [apply (keeps_append (Text c1)); reflexivity|].
    apply keeps_close. }
  assert (Z4 : 0 <= opened (rd f) -> opened r4 = 0).
  { intro H. apply close_all_zero. cbn [append opened]. auto. }
  destruct (truthy pad).
  - destruct (open term_to_rgb None None None span (Some (lit "ns")) r4)
      as [r5| |] eqn:E5; cbn [bind]; try discriminate.
    apply keeps_open in E5 as (K5 & O5).
    intro H. injection H as _ <-. cbn [rd]. split.
    + eapply keeps_trans; [exact K4|]. eapply keeps_trans; [exact K5|].
      eapply keeps_trans; [apply (keeps_append (Pad pad)); reflexivity|].
      apply keeps_close.
    + intro H. rewrite close_one by (cbn [append opened]; rewrite O5, Z4; [lia|exact H]).
      cbn [append set_opened opened]. rewrite O5, Z4 by exact H. lia.
  - cbn [bind]. intro H. injection H as _ <-. cbn [rd]. split; assumption.
Qed.

Lemma render_line_keeps (fuel : nat) (size : Z * Z) (nlines line_i : Z)
  (line : str) (f f' : frame) :
  render_line term_to_rgb parse_escape fuel size nlines line_i line f = Done f' ->
  keeps (rd f) (rd f') /\ (0 <= opened (rd f) -> opened (rd f') = 0).
Proof.
  unfold render_line.
  destruct (render_matches term_to_rgb parse_escape fuel (fst size) line
              (finditer line) 0 0 f) as [[[last_i line_l] f1]| |] eqn:E1;
    cbn [bind]; try discriminate.
  apply render_matches_keeps in E1.
  destruct (render_tail term_to_rgb fuel size line last_i line_l f1)
    as [[c f2]| |] eqn:E2; cbn [bind]; try discriminate.
  apply render_tail_keeps in E2 as (K2 & Z2).
  assert (K : keeps (rd f) (rd f2)) by (eapply keeps_trans; eassumption).
  assert (Z : 0 <= opened (rd f) -> opened (rd f2) = 0)
    by (intro H; apply Z2, E1, H).
  destruct (truthy c || (line_i <? nlines - 1)); intro H; injection H as <-;
    cbn [rd]; [|split; assumption].
  split; [|exact Z].
  eapply keeps_trans; [exact K|]. apply (keeps_append Break); reflexivity.
Qed.

Lemma render_lines_keeps :
  forall (lines : list str) (fuel : nat) (size : Z * Z) (nlines line_i : Z)
    (f f' : frame),
    render_lines term_to_rgb parse_escape fuel size nlines line_i lines f = Done f' ->
    keeps (rd f) (rd f')
    /\ (lines <> [] -> 0 <= opened (rd f) -> opened (rd f') = 0).
Proof.
  induction lines as [|line rest IH]; intros fuel size nlines line_i f f'.
  - cbn [render_lines]. intro H. injection H as <-.
    split; [apply keeps_refl|congruence].
  - cbn [render_lines].
    destruct (render_line term_to_rgb parse_escape fuel size nlines line_i line f)
      as [f1| |] eqn:E1; cbn [bind]; try discriminate.
    apply render_line_keeps in E1 as (K1 & Z1).
    intro H. pose proof H as H'. apply IH in H as (K2 & Z2). split.
    + eapply keeps_trans; eassumption.
    + intros _ Ho. destruct rest as [|line2 rest2].
      * cbn [render_lines] in H'. injection H' as <-. apply Z1, Ho.
      * apply Z2; [discriminate|]. rewrite Z1 by exact Ho. lia.
Qed.

Lemma fill_keeps (size : Z * Z) :
  forall (n : nat) (lc : Z) (r : Renderer),
    keeps r (snd (fill n size lc r))
    /\ opened (snd (fill n size lc r)) = opened r.
Proof.
  induction n as [|n IH]; intros lc r; cbn [fill snd].
  - split; [apply keeps_refl|reflexivity].
  - destruct (lc <? snd size); cbn [snd]; [|split; [apply keeps_refl|reflexivity]].
    destruct (IH (lc + 1)
                (append Break (append (Pad (py_mul (lit " ") (fst size))) r)))
      as [K O].
    split; [|rewrite O; reflexivity].
    eapply keeps_trans; [|exact K].
    eapply keeps_trans; [apply (keeps_append (Pad (py_mul (lit " ") (fst size)))); reflexivity|].
    apply (keeps_append Break); reflexivity.
Qed.

(** The block of a pane: between the two [pre] tags, a render pass that
    ends with no tag open. *)
Lemma render_frame (fuel : nat) (s : str) (size : Z * Z) (r r' : Renderer) :
  _render term_to_rgb parse_escape fuel s size r = Done r' ->
  exists r1,
    keeps (append (Markup (lit "<pre>")) (set_esc_style [] r)) r1
    /\ r' = append (Markup (lit "</pre>")) r1
    /\ (0 <= opened r -> opened r1 = 0).
Proof.
  unfold _render.
  destruct (render_lines term_to_rgb parse_escape fuel size
              (len (py_split LF s)) 0 (py_split LF s)
              (mkFrame None None 0 (append (Markup (lit "<pre>")) (set_esc_style [] r))))
    as [f| |] eqn:E; cbn [bind]; try discriminate.
  apply render_lines_keeps in E as (K & Z). cbn [rd] in K, Z.
  assert (Hne : py_split LF s <> []).
  { destruct s as [|x s0]; [discriminate|]. cbn [py_split].
    destruct (N.eqb x LF); [discriminate|].
    destruct (py_split LF s0); discriminate. }
  specialize (Z Hne).
  destruct (line_c f <? snd size).
  - destruct (open term_to_rgb None None None span (Some (lit "ns")) (rd f))
      as [r2| |] eqn:E2; cbn [bind]; try discriminate.
    apply keeps_open in E2 as (K2 & O2).
    pose proof (fill_keeps size (Z.to_nat (snd size - line_c f)) (line_c f) r2)
      as [K3 O3].
    destruct (fill (Z.to_nat (snd size - line_c f)) size (line_c f) r2) as [lc r3].
    cbn [snd] in K3, O3. cbn [bind]. intro H. injection H as <-.
    exists (close span true r3). split; [|split; [reflexivity|]].
    + eapply keeps_trans; [exact K|]. eapply keeps_trans; [exact K2|].
      eapply keeps_trans; [exact K3|]. apply keeps_close.
    + intro Ho. apply close_all_zero. rewrite O3, O2, Z by exact Ho. lia.
  - cbn [bind]. intro H. injection H as <-. exists (rd f).
    split; [exact K|]. split; [reflexivity|exact Z].
Qed.


(** X8: whenever [_render] returns, started with a tag counter that is
    not negative, it leaves no tag open: the counter is zero, and the
    closing [span] tags it appended match the opening ones it appended plus
    those that were open when it started. *)
Theorem render_closes_tags (fuel : nat) (s : str) (size : Z * Z) (r r' : Renderer) :
  _render term_to_rgb parse_escape fuel s size r = Done r' ->
  0 <= opened r ->
  opened r' = 0
  /\ closes r' - closes r = opens r' - opens r + opened r.
Proof.
  intros H Ho. apply render_frame in H as (r1 & (_ & _ & _ & _ & Hl) & -> & Hz).
  specialize (Hz Ho).
  assert (H1 : span_level (append (Markup (lit "</pre>")) r1) = span_level r1)
    by (rewrite append_extend; apply span_level_extend; reflexivity).
  assert (H0 : span_level (append (Markup (lit "<pre>")) (set_esc_style [] r))
               = span_level r).
  { rewrite append_extend.
    rewrite (span_level_extend [Markup (lit "<pre>")]) by reflexivity.
    reflexivity. }
  split; [exact Hz|].
  unfold span_level in *. cbn [append opened] in *. lia.
Qed.

End Keeps.


Lemma render_closes_tags_witness :
  exists r',
    _render Color.term_to_rgb Color.parse_escape 20 styled_line (10, 2)
      (set_opened 1 (append (Markup (lit "<span >")) fresh)) = Done r'
    /\ opened r' = 0
    /\ closes r' - closes (set_opened 1 (append (Markup (lit "<span >")) fresh))
       = opens r' - opens (set_opened 1 (append (Markup (lit "<span >")) fresh))
         + opened (set_opened 1 (append (Markup (lit "<span >")) fresh)).
Proof.
  eexists. split; [vm_compute; reflexivity|].
  apply (render_closes_tags Color.term_to_rgb Color.parse_escape 20 styled_line
           (10, 2) (set_opened 1 (append (Markup (lit "<span >")) fresh)));
    [vm_compute; reflexivity|vm_compute; discriminate].
Defined.

(** ** The runs and the sequences of a line *)

Lemma slice_from_nonneg {A : Type} (s : list A) (i : Z) :
  0 <= i -> py_slice s (Some i) None = skipn (Z.to_nat i) s.
Proof.
  intro H. unfold py_slice, clamp_index. destruct (Z.ltb_spec i 0); [lia|].
  rewrite firstn_all2 by (rewrite length_skipn; unfold len; lia).
  destruct (Z.le_gt_cases i (len s)).
  - f_equal. lia.
  - rewrite !skipn_all2; [reflexivity|unfold len in *; lia|unfold len in *; lia].
Qed.

Lemma slice_between {A : Type} (s : list A) (i j : Z) :
  0 <= i <= j -> j <= len s ->
  py_slice s (Some i) (Some j) = firstn (Z.to_nat (j - i)) (skipn (Z.to_nat i) s).
Proof.
  intros H Hj. unfold py_slice, clamp_index.
  destruct (Z.ltb_spec i 0); [lia|]. destruct (Z.ltb_spec j 0); [lia|].
  now rewrite !Z.min_l by lia.
Qed.

Lemma find_m_spec (s : str) (n : nat) :
  find_m s = Some n ->
  (n < length s)%nat
  /\ firstn (S n) s = firstn n s ++ [109%N]
  /\ ~ In 109%N (firstn n s).
Proof.
  revert n. induction s as [|x s IH]; intros n; cbn [find_m]; [discriminate|].
  destruct (N.eqb_spec x 109%N) as [->|Hx].
  - intro H. injection H as <-. cbn. repeat split; [lia|tauto].
  - destruct (find_m s) as [k|]; cbn [option_map]; [|discriminate].
    intro H. injection H as <-. destruct (IH k eq_refl) as (Hlt & Hf & Hno).
    cbn [length]. split; [lia|]. split.
    + change (firstn (S (S k)) (x :: s)) with (x :: firstn (S k) s).
      rewrite Hf. reflexivity.
    + cbn [firstn In]. intros [H|H]; [congruence|tauto].
Qed.

Lemma match_here_spec (s : str) (n : nat) :
  match_here s = Some n ->
  (n + 3 <= length s)%nat
  /\ firstn (n + 3) s = [ESC; 91%N] ++ firstn n (skipn 2 s) ++ [109%N]
  /\ ~ In 109%N (firstn n (skipn 2 s)).
Proof.
  destruct s as [|a [|b rest]]; cbn [match_here]; try discriminate.
  destruct (N.eqb_spec a ESC) as [->|]; cbn [andb]; [|discriminate].
  destruct (N.eqb_spec b 91%N) as [->|]; [|discriminate].
  intro H. destruct (find_m_spec rest n H) as (Hlt & Hf & Hno).
  cbn [length skipn]. split; [lia|]. split; [|exact Hno].
  replace (n + 3)%nat with (S (S (S n))) by lia.
  change (firstn (S (S (S n))) (ESC :: 91%N :: rest))
    with (ESC :: 91%N :: firstn (S n) rest).
  rewrite Hf. reflexivity.
Qed.

Lemma skipn_cons_eq {A : Type} (p : nat) (line s' : list A) (x : A) :
  x :: s' = skipn p line -> s' = skipn (S p) line /\ (S p <= length line)%nat.
Proof.
  intro H. split.
  - replace (S p) with (1 + p)%nat by lia. rewrite <- skipn_skipn, <- H. reflexivity.
  - assert (Hl : length (skipn p line) = S (length s')) by (rewrite <- H; reflexivity).
    rewrite length_skipn in Hl. lia.
Qed.

Lemma scan_reassemble (line : str) :
  forall (s : str) (skip p : nat) (last_i : Z),
    s = skipn p line -> (p <= length line)%nat -> (skip <= length s)%nat ->
    0 <= last_i <= Z.of_nat (p + skip) ->
    reassemble line (scan skip (Z.of_nat p) s) last_i = skipn (Z.to_nat last_i) line
    /\ Forall (sgr_shaped line) (scan skip (Z.of_nat p) s).
Proof.
  induction s as [|x s' IH]; intros skip p last_i Hs Hp Hskip Hlast.
  - cbn [scan reassemble]. split; [now apply slice_from_nonneg|constructor].
  - destruct (skipn_cons_eq p line s' x Hs) as [Hs' Hp'].
    cbn [scan]. destruct skip as [|k].
    + destruct (match_here (x :: s')) as [n|] eqn:Hm.
      * destruct (match_here_spec _ _ Hm) as (Hlen & Hshape & Hno).
        cbn [length] in Hlen.
        replace (Z.of_nat p + 1) with (Z.of_nat (S p)) by lia.
        destruct (IH (n + 2)%nat (S p) (Z.of_nat p + Z.of_nat n + 3) Hs' Hp')
          as [Hre Hall]; [lia|lia|].
        assert (Hline : (p + (n + 3) <= length line)%nat).
        { assert (Hl : length (skipn p line) = S (length s')) by (rewrite <- Hs; reflexivity).
          rewrite length_skipn in Hl. lia. }
        assert (Hspan : py_slice line (Some (Z.of_nat p))
                          (Some (Z.of_nat p + Z.of_nat n + 3))
                        = firstn (n + 3) (x :: s')).
        { rewrite slice_between by (unfold len; lia). rewrite Nat2Z.id, Hs.
          f_equal. lia. }
        split.
        -- cbn [reassemble m_start m_end]. rewrite Hre, Hspan.
           rewrite slice_between by (unfold len; lia).
           replace (Z.to_nat (Z.of_nat p + Z.of_nat n + 3)) with
             ((n + 3) + (Z.to_nat (Z.of_nat p - last_i) + Z.to_nat last_i))%nat by lia.
           rewrite <- !skipn_skipn.
           replace (x :: s') with
             (skipn (Z.to_nat (Z.of_nat p - last_i)) (skipn (Z.to_nat last_i) line)).
           ++ rewrite (skipn_skipn n 3), firstn_skipn. apply firstn_skipn.
           ++ rewrite skipn_skipn, Hs. f_equal. lia.
        -- constructor; [|exact Hall].
           unfold sgr_shaped. cbn [m_start m_end m_group].
           rewrite Hspan. split; assumption.
      * replace (Z.of_nat p + 1) with (Z.of_nat (S p)) by lia.
        apply (IH O (S p) last_i Hs' Hp'); lia.
    + replace (Z.of_nat p + 1) with (Z.of_nat (S p)) by lia.
      cbn [length] in Hskip. apply (IH k (S p) last_i Hs' Hp'); lia.
Qed.

(** X10: the literal runs the loop of [_render] slices out of a line and
    the sequences it skips make up the line, in order: no character is lost
    or rendered twice, and what is skipped is, each time, one whole SGR
    sequence. *)
Theorem runs_partition_line (line : str) :
  reassemble line (finditer line) 0 = line
  /\ Forall (sgr_shaped line) (finditer line).
Proof.
  unfold finditer. change 0 with (Z.of_nat 0) at 1 3.
  destruct (scan_reassemble line line 0 0 0) as [H1 H2];
    [reflexivity|lia|lia|simpl; lia|].
  split; [exact H1|exact H2].
Qed.

Lemma scan_no_esc :
  forall (s : str) (pos : Z), ~ In ESC s -> scan O pos s = [].
Proof.
  induction s as [|x s IH]; intros pos Hno; [reflexivity|].
  cbn [scan]. assert (Hm : match_here (x :: s) = None).
  { destruct s as [|b rest]; [reflexivity|]. cbn [match_here].
    destruct (N.eqb_spec x ESC) as [->|]; [|reflexivity].
    exfalso. apply Hno. now left. }
  rewrite Hm. apply IH. intro H. apply Hno. now right.
Qed.

(** ** Panes of width zero *)

Section Hang.

Variable term_to_rgb : Z -> list Z -> Z * Z * Z.
Variable parse_escape :
  str -> option color -> option color -> list Z ->
  option color * option color * list Z.

(** X12: in a pane of width 0, a text whose first line is not empty and
    holds no escape character makes [_render] loop for ever: whatever the
    fuel, the loop of [_wrap_line] is still running when it is used up. *)
Theorem render_zero_width_hangs (fuel : nat) (s : str) (h : Z) (r : Renderer) :
  hd [] (py_split LF s) <> [] ->
  ~ In ESC (hd [] (py_split LF s)) ->
  _render term_to_rgb parse_escape fuel s (0, h) r = Timeout.
Proof.
  intros Hne Hno. unfold _render.
  destruct (py_split LF s) as [|line rest] eqn:Hsplit; [now cbn in Hne|].
  cbn [hd] in Hne, Hno. cbn [render_lines]. unfold render_line.
  unfold finditer. rewrite scan_no_esc by assumption.
  cbn [render_matches bind]. unfold render_tail. cbn [fst snd rd cur_fg cur_bg line_c].
  rewrite slice_from_nonneg by lia. cbn [Z.to_nat skipn].
  replace (Z.to_nat 0) with O by reflexivity. cbn [skipn].
  assert (Ht : truthy line = true) by (destruct line; [congruence|reflexivity]).
  rewrite Ht. cbn [orb].
  set (r0 := append (Markup (lit "<pre>")) (set_esc_style [] r)).
  assert (Hopen : exists r1,
             (if opened r0 =? 0
              then open term_to_rgb None None None span None r0
              else Done r0) = Done r1).
  { destruct (opened r0 =? 0); [|eauto].
    destruct (open_done term_to_rgb None None None span None r0 eq_refl eq_refl)
      as (html & r1 & H & _). eauto. }
  destruct Hopen as [r1 ->]. cbn [bind].
  unfold _wrap_line. rewrite wrap_loop_zero_width; [reflexivity|assumption|].
  destruct line; [congruence|]. rewrite len_cons. pose proof (len_nonneg line). lia.
Qed.

End Hang.

Lemma render_zero_width_hangs_witness :
  _render Color.term_to_rgb Color.parse_escape 1000 (lit "a") (0, 1) fresh = Timeout.
Proof.
  apply (render_zero_width_hangs Color.term_to_rgb Color.parse_escape 1000
           (lit "a") 1 fresh); vm_compute; [discriminate|].
  intros [H|[]]. discriminate.
Defined.

(** ** Rendering never reads the buffer *)

Lemma prepend_append (pre : list chunk) (c : chunk) (r : Renderer) :
  append c (prepend pre r) = prepend pre (append c r).
Proof. unfold append, prepend. cbn. now rewrite app_assoc. Qed.

Lemma prepend_extend (pre L : list chunk) (r : Renderer) :
  extend L (prepend pre r) = prepend pre (extend L r).
Proof. unfold extend, prepend. cbn. now rewrite app_assoc. Qed.

Lemma prepend_close (pre : list chunk) (tag : str) (closeall : bool) (r : Renderer) :
  close tag closeall (prepend pre r) = prepend pre (close tag closeall r).
Proof.
  unfold close. cbn [prepend opened]. destruct (0 <? opened r); [|reflexivity].
  destruct closeall.
  - rewrite prepend_extend. reflexivity.
  - change (set_opened (opened r - 1) (prepend pre r))
      with (prepend pre (set_opened (opened r - 1) r)).
    apply prepend_append.
Qed.

Lemma prepend_unbuffered (r : Renderer) : prepend (chunks r) (unbuffered r) = r.
Proof. destruct r. unfold prepend, unbuffered. cbn. now rewrite app_nil_r. Qed.

Lemma prepend_wrap_loop (pre : list chunk) (w : Z) :
  forall (fuel : nat) (lc length : Z) (line : str) (r : Renderer),
    wrap_loop fuel w (lc, length, line, prepend pre r)
    = omap (fun '(a, b, c, r') => (a, b, c, prepend pre r'))
        (wrap_loop fuel w (lc, length, line, r)).
Proof.
  induction fuel as [|fuel IH]; intros lc length line r; cbn [wrap_loop];
    change (wrap_test w (lc, length, line, prepend pre r))
      with (wrap_test w (lc, length, line, r));
    destruct (wrap_test w (lc, length, line, r)); try reflexivity.
  unfold wrap_body. rewrite !prepend_append. apply IH.
Qed.

Lemma bind_omap {A B C : Type} (g : A -> B) (m : outcome A) (k : B -> outcome C) :
  bind (omap g m) k = bind m (fun a => k (g a)).
Proof. destruct m; reflexivity. Qed.

Lemma omap_bind {A B C : Type} (m : outcome A) (k : A -> outcome B) (g : B -> C) :
  omap g (bind m k) = bind m (fun a => omap g (k a)).
Proof. destruct m; reflexivity. Qed.

Lemma bind_ext {A B : Type} (m : outcome A) (k k' : A -> outcome B) :
  (forall a, k a = k' a) -> bind m k = bind m k'.
Proof. intros H. destruct m; cbn [bind]; auto. Qed.

Section Buffer.

Variable term_to_rgb : Z -> list Z -> Z * Z * Z.
Variable parse_escape :
  str -> option color -> option color -> list Z ->
  option color * option color * list Z.

Lemma prepend_update_css (pre : list chunk) (prefix : str) (c : option color)
  (r : Renderer) :
  update_css term_to_rgb prefix c (prepend pre r)
  = (fst (update_css term_to_rgb prefix c r),
     prepend pre (snd (update_css term_to_rgb prefix c r))).
Proof. destruct c as [[n|a b c]|]; reflexivity. Qed.

Lemma prepend_open (pre : list chunk) (fg bg : option color) (seq : option str)
  (tag : str) (cls : option str) (r : Renderer) :
  open term_to_rgb fg bg seq tag cls (prepend pre r)
  = omap (prepend pre) (open term_to_rgb fg bg seq tag cls r).
Proof.
  unfold open, open_classes. cbn [prepend esc_style].
  destruct (if mem 7 (esc_style r) then (bg, fg) else (fg, bg)) as [fg' bg'].
  rewrite prepend_update_css.
  destruct (update_css term_to_rgb (lit "f") fg' r) as [k1 r1]. cbn [fst snd].
  rewrite prepend_update_css.
  destruct (update_css term_to_rgb (lit "b") bg' r1) as [k2 r2]. cbn [fst snd].
  cbn [prepend esc_style].
  destruct (plain_fg fg'); cbn [bind omap]; try reflexivity.
  f_equal. rewrite <- prepend_append. reflexivity.
Qed.

Lemma prepend_open_if (pre : list chunk) (b : bool) (fg bg : option color)
  (cls : option str) (r : Renderer) :
  (if b then open term_to_rgb fg bg None span cls (prepend pre r)
   else Done (prepend pre r))
  = omap (prepend pre)
      (if b then open term_to_rgb fg bg None span cls r else Done r).
Proof. destruct b; [apply prepend_open|reflexivity]. Qed.

Lemma prepend_render_matches (pre : list chunk) :
  forall (ms : list sgr_match) (fuel : nat) (w : Z) (line : str)
    (last_i line_l : Z) (fg bg : option color) (lc : Z) (r : Renderer),
    render_matches term_to_rgb parse_escape fuel w line ms last_i line_l
      (mkFrame fg bg lc (prepend pre r))
    = omap (fun '(a, b, f') => (a, b, prepend_frame pre f'))
        (render_matches term_to_rgb parse_escape fuel w line ms last_i line_l
           (mkFrame fg bg lc r)).
Proof.
  induction ms as [|m ms IH]; intros fuel w line last_i line_l fg bg lc r;
    cbn [render_matches]; [reflexivity|].
  cbn [rd cur_fg cur_bg line_c].
  change (opened (prepend pre r)) with (opened r).
  rewrite prepend_open_if, bind_omap, omap_bind. apply bind_ext; intros r1.
  unfold _wrap_line. rewrite prepend_wrap_loop, bind_omap, omap_bind.
  apply bind_ext; intros [[[nl l1] c1] r2].
  rewrite prepend_append.
  assert (H4 : (if last_i =? 0 then close span false (prepend pre (append (Text c1) r2))
                else prepend pre (append (Text c1) r2))
               = prepend pre (if last_i =? 0 then close span false (append (Text c1) r2)
                              else append (Text c1) r2)).
  { destruct (last_i =? 0); [apply prepend_close|reflexivity]. }
  rewrite H4. change (esc_style (prepend pre ?x)) with (esc_style x).
  destruct (parse_escape (m_group m) fg bg _) as [[fg' bg'] sty].
  change (set_esc_style sty (prepend pre ?x)) with (prepend pre (set_esc_style sty x)).
  rewrite prepend_close, prepend_open, bind_omap, omap_bind.
  apply bind_ext; intros r7. apply IH.
Qed.

Lemma prepend_render_tail (pre : list chunk) (fuel : nat) (size : Z * Z) (line : str)
  (last_i line_l : Z) (fg bg : option color) (lc : Z) (r : Renderer) :
  render_tail term_to_rgb fuel size line last_i line_l (mkFrame fg bg lc (prepend pre r))
  = omap (fun '(c, f') => (c, prepend_frame pre f'))
      (render_tail term_to_rgb fuel size line last_i line_l (mkFrame fg bg lc r)).
Proof.
  unfold render_tail. cbn [rd cur_fg cur_bg line_c].
  change (opened (prepend pre r)) with (opened r).
  set (c := py_slice line (Some last_i) None).
  assert (Hfirst :
    (if truthy c || negb (len c =? fst size) then
       r0 <- (if opened r =? 0
              then open term_to_rgb fg bg None span None (prepend pre r)
              else Done (prepend pre r)) ;;
       '(nl, line_l0, c0, r1) <- _wrap_line fuel c (line_l + len c) (fst size) r0 ;;
       if lc + nl <? snd size
       then Done (py_mul (lit " ") (fst size - line_l0), c0, lc + nl, r1)
       else Done ([], c0, lc, r1)
     else Done ([], c, lc, prepend pre r))
    = omap (fun '(a, b, n, r') => (a, b, n, prepend pre r'))
        (if truthy c || negb (len c =? fst size) then
           r0 <- (if opened r =? 0
                  then open term_to_rgb fg bg None span None r
                  else Done r) ;;
           '(nl, line_l0, c0, r1) <- _wrap_line fuel c (line_l + len c) (fst size) r0 ;;
           if lc + nl <? snd size
           then Done (py_mul (lit " ") (fst size - line_l0), c0, lc + nl, r1)
           else Done ([], c0, lc, r1)
         else Done ([], c, lc, r))).
  { destruct (truthy c || negb (len c =? fst size)); [|reflexivity].
    rewrite prepend_open_if, bind_omap, omap_bind. apply bind_ext; intros r0.
    unfold _wrap_line. rewrite prepend_wrap_loop, bind_omap, omap_bind.
    apply bind_ext; intros [[[nl l1] c1] r2].
    destruct (lc + nl <? snd size); reflexivity. }
  rewrite Hfirst, bind_omap, omap_bind. apply bind_ext; intros [[[pad c0] n] r1].
  rewrite prepend_append, prepend_close.
  assert (Hpad :
    (if truthy pad then
       r0 <- open term_to_rgb None None None span (Some (lit "ns"))
               (prepend pre (close span true (append (Text c0) r1))) ;;
       Done (close span false (append (Pad pad) r0))
     else Done (prepend pre (close span true (append (Text c0) r1))))
    = omap (prepend pre)
        (if truthy pad then
           r0 <- open term_to_rgb None None None span (Some (lit "ns"))
                   (close span true (append (Text c0) r1)) ;;
           Done (close span false (append (Pad pad) r0))
         else Done (close span true (append (Text c0) r1)))).
  { destruct (truthy pad); [|reflexivity].
    rewrite prepend_open, bind_omap, omap_bind. apply bind_ext; intros r0.
    cbn [omap]. now rewrite prepend_append, prepend_close. }
  rewrite Hpad, bind_omap, omap_bind. apply bind_ext; intros r3. reflexivity.
Qed.

Lemma prepend_render_line (pre : list chunk) (fuel : nat) (size : Z * Z)
  (nlines line_i : Z) (line : str) (f : frame) :
  render_line term_to_rgb parse_escape fuel size nlines line_i line (prepend_frame pre f)
  = omap (prepend_frame pre)
      (render_line term_to_rgb parse_escape fuel size nlines line_i line f).
Proof.
  unfold render_line. destruct f as [fg bg lc r].
  change (prepend_frame pre (mkFrame fg bg lc r)) with (mkFrame fg bg lc (prepend pre r)).
  rewrite prepend_render_matches, bind_omap, omap_bind.
  apply bind_ext; intros [[last_i line_l] [fg1 bg1 lc1 r1]].
  change (prepend_frame pre (mkFrame fg1 bg1 lc1 r1))
    with (mkFrame fg1 bg1 lc1 (prepend pre r1)).
  rewrite prepend_render_tail, bind_omap, omap_bind.
  apply bind_ext; intros [c [fg2 bg2 lc2 r2]].
  destruct (truthy c || (line_i <? nlines - 1)); cbn [omap]; [|reflexivity].
  unfold prepend_frame. cbn [rd cur_fg cur_bg line_c]. now rewrite prepend_append.
Qed.

Lemma prepend_render_lines (pre : list chunk) (fuel : nat) (size : Z * Z) (nlines : Z) :
  forall (lines : list str) (line_i : Z) (f : frame),
    render_lines term_to_rgb parse_escape fuel size nlines line_i lines
      (prepend_frame pre f)
    = omap (prepend_frame pre)
        (render_lines term_to_rgb parse_escape fuel size nlines line_i lines f).
Proof.
  induction lines as [|line rest IH]; intros line_i f; cbn [render_lines];
    [reflexivity|].
  rewrite prepend_render_line, bind_omap, omap_bind. apply bind_ext; intros f1.
  apply IH.
Qed.

Lemma prepend_fill (pre : list chunk) (size : Z * Z) :
  forall (n : nat) (lc : Z) (r : Renderer),
    fill n size lc (prepend pre r)
    = (fst (fill n size lc r), prepend pre (snd (fill n size lc r))).
Proof.
  induction n as [|n IH]; intros lc r; cbn [fill]; [reflexivity|].
  destruct (lc <? snd size); [|reflexivity].
  rewrite !prepend_append. apply IH.
Qed.

(** Rendering onto a buffer, in terms of rendering onto an empty one. *)
Lemma prepend_render (pre : list chunk) (fuel : nat) (s : str) (size : Z * Z)
  (r : Renderer) :
  _render term_to_rgb parse_escape fuel s size (prepend pre r)
  = omap (prepend pre) (_render term_to_rgb parse_escape fuel s size r).
Proof.
  unfold _render.
  change (set_esc_style [] (prepend pre r)) with (prepend pre (set_esc_style [] r)).
  rewrite prepend_append.
  change (mkFrame None None 0 (prepend pre ?x))
    with (prepend_frame pre (mkFrame None None 0 x)).
  rewrite prepend_render_lines, bind_omap, omap_bind.
  apply bind_ext; intros [fg bg lc r1]. cbn [prepend_frame rd line_c cur_fg cur_bg].
  assert (Hfill :
    (if lc <? snd size then
       r0 <- open term_to_rgb None None None span (Some (lit "ns")) (prepend pre r1) ;;
       let '(_, r2) := fill (Z.to_nat (snd size - lc)) size lc r0 in
       Done (close span true r2)
     else Done (prepend pre r1))
    = omap (prepend pre)
        (if lc <? snd size then
           r0 <- open term_to_rgb None None None span (Some (lit "ns")) r1 ;;
           let '(_, r2) := fill (Z.to_nat (snd size - lc)) size lc r0 in
           Done (close span true r2)
         else Done r1)).
  { destruct (lc <? snd size); [|reflexivity].
    rewrite prepend_open, bind_omap, omap_bind. apply bind_ext; intros r0.
    rewrite prepend_fill.
    destruct (fill (Z.to_nat (snd size - lc)) size lc r0) as [n r2].
    cbn [fst snd omap]. now rewrite prepend_close. }
  rewrite Hfill, bind_omap, omap_bind. apply bind_ext; intros r3.
  cbn [omap]. now rewrite prepend_append.
Qed.

(** X13: [_render] never reads the buffer: what it appends, the tag
    counter, the registry and the style list it leaves, and whether it
    returns at all, are those of a render onto an empty buffer. *)
Theorem render_ignores_buffer (fuel : nat) (s : str) (size : Z * Z) (r : Renderer) :
  _render term_to_rgb parse_escape fuel s size r
  = omap (prepend (chunks r))
      (_render term_to_rgb parse_escape fuel s size (unbuffered r)).
Proof.
  rewrite <- prepend_render, prepend_unbuffered. reflexivity.
Qed.

End Buffer.

(** ** Texts that always render *)

Section Total.

Variable term_to_rgb : Z -> list Z -> Z * Z * Z.
Variable parse_escape :
  str -> option color -> option color -> list Z ->
  option color * option color * list Z.

Lemma render_line_returns (fuel : nat) (w h nlines line_i : Z) (line : str)
  (f : frame) (rows : list Z) (p : Z) :
  1 <= w -> len line <= Z.of_nat fuel ->
  codes_kept parse_escape (finditer line) ->
  tidy (rd f) (rows, 0) p -> code_frame f ->
  exists f',
    render_line term_to_rgb parse_escape fuel (w, h) nlines line_i line f = Done f'
    /\ code_frame f'
    /\ (line_i < nlines - 1 -> exists rows' p', tidy (rd f') (rows', 0) p').
Proof.
  intros Hw Hfuel Hks Ht Hcf. unfold render_line. cbn [fst].
  destruct (render_matches_grid term_to_rgb parse_escape (finditer line) fuel w
              line 0 0 f rows _ Hw Hfuel ltac:(lia) Ht Hcf Hks)
    as (l1 & f1 & k1 & Hrun1 & Ht1 & Hcf1 & _ & _ & Hl1 & _).
  rewrite Hrun1. cbn [bind].
  destruct (render_tail_grid term_to_rgb fuel w h line
              (last_end (finditer line) 0) l1 f1 _ _ Hw Hfuel Hl1 Ht1 Hcf1)
    as (c & f2 & k2 & l2 & Hrun2 & _ & _ & _ & _ & _ & Hcf2 & Hin & Hout).
  rewrite Hrun2. cbn [bind].
  assert (Ht2 : exists rows2 cur p2, tidy (rd f2) (rows2, cur) p2).
  { destruct (Z.lt_ge_cases (line_c f1 + k2) h) as [Hlt|Hge].
    - destruct (Hin Hlt) as (_ & H & _). eauto.
    - destruct (Hout Hge) as (_ & H). eauto. }
  destruct Ht2 as (rows2 & cur & p2 & Ht2).
  destruct (truthy c || (line_i <? nlines - 1)) eqn:Hb.
  - eexists. split; [reflexivity|]. cbn [cur_fg cur_bg rd].
    split; [exact Hcf2|]. intros _. exists (rows2 ++ [cur]), p2.
    apply tidy_break, Ht2.
  - exists f2. split; [reflexivity|]. split; [exact Hcf2|].
    intro Hlt. apply orb_false_iff in Hb as [_ Hb]. apply Z.ltb_ge in Hb. lia.
Qed.

Lemma render_lines_return :
  forall (lines : list str) (fuel : nat) (w h nlines line_i : Z)
    (f : frame) (rows : list Z) (p : Z),
    1 <= w ->
    (forall line, In line lines -> len line <= Z.of_nat fuel) ->
    (forall line, In line lines -> codes_kept parse_escape (finditer line)) ->
    tidy (rd f) (rows, 0) p -> code_frame f ->
    nlines = line_i + len lines ->
    exists f',
      render_lines term_to_rgb parse_escape fuel (w, h) nlines line_i lines f
      = Done f'.
Proof.
  induction lines as [|line rest IH];
    intros fuel w h nlines line_i f rows p Hw Hfuel Hks Ht Hcf Hn.
  - exists f. reflexivity.
  - cbn [render_lines].
    destruct (render_line_returns fuel w h nlines line_i line f rows p Hw)
      as (f1 & Hrun & Hcf1 & Hnext);
      [apply Hfuel; now left|apply Hks; now left|exact Ht|exact Hcf|].
    rewrite Hrun. cbn [bind]. rewrite len_cons in Hn.
    destruct rest as [|line2 rest2]; [exists f1; reflexivity|].
    destruct Hnext as (rows' & p' & Ht1).
    { rewrite len_cons in Hn. pose proof (len_nonneg rest2). lia. }
    apply (IH fuel w h nlines (line_i + 1) f1 rows' p' Hw); try assumption.
    + intros l Hl. apply Hfuel. now right.
    + intros l Hl. apply Hks. now right.
    + lia.
Qed.

(** A render onto a buffer that ends at the start of a row returns. *)
Lemma render_returns_at_row_start (fuel : nat) (s : str) (w h : Z) (r : Renderer) :
  1 <= w -> len s <= Z.of_nat fuel ->
  code_only parse_escape s ->
  snd (grid (chunks r)) = 0 -> 0 <= opened r ->
  exists r', _render term_to_rgb parse_escape fuel s (w, h) r = Done r'.
Proof.
  intros Hw Hfuel Hcodes Hg Ho. unfold _render.
  set (r0 := append (Markup (lit "<pre>")) (set_esc_style [] r)).
  assert (Ht0 : tidy r0 (fst (grid (chunks r)), 0) (pads (chunks r))).
  { apply (tidy_markup (set_esc_style [] r) r0 _ _ [Markup (lit "<pre>")]);
      [|reflexivity|reflexivity|exact Ho].
    split; [|split; [reflexivity|exact Ho]].
    cbn [set_esc_style chunks]. destruct (grid (chunks r)) as [rows cur].
    cbn [fst snd] in *. now subst cur. }
  destruct (render_lines_return (py_split LF s) fuel w h (len (py_split LF s)) 0
              (mkFrame None None 0 r0) (fst (grid (chunks r))) (pads (chunks r)) Hw)
    as (f & Hrun).
  - intros line Hin. pose proof (py_split_len LF s line Hin). lia.
  - intros line Hin m fg bg sty Hm. apply (Hcodes line m fg bg sty Hin Hm).
  - exact Ht0.
  - split; reflexivity.
  - lia.
  - rewrite Hrun. cbn [bind].
    destruct (line_c f <? snd (w, h)); [|eexists; reflexivity].
    destruct (open_ns term_to_rgb (rd f)) as (tag & r1 & Hopen & _).
    rewrite Hopen. cbn [bind].
    destruct (fill _ _ _ r1) as [lc r2]. eexists. reflexivity.
Qed.

(** The same from any buffer: the render never reads it. *)
Lemma render_returns_any_buffer (fuel : nat) (s : str) (w h : Z) (r : Renderer) :
  1 <= w -> len s <= Z.of_nat fuel ->
  code_only parse_escape s -> 0 <= opened r ->
  exists r', _render term_to_rgb parse_escape fuel s (w, h) r = Done r'.
Proof.
  intros Hw Hfuel Hcodes Ho.
  destruct (render_returns_at_row_start fuel s w h (unbuffered r) Hw Hfuel Hcodes
              eq_refl Ho) as (r1 & H1).
  exists (prepend (chunks r) r1).
  rewrite <- (prepend_unbuffered r) at 1.
  rewrite prepend_render, H1. reflexivity.
Qed.

(** X11: for a pane at least one cell wide and a text that makes no
    colour a tuple, [_render] returns, whatever the height of the pane,
    the length of the text and the buffer it starts from, given fuel for
    the length of the text: it neither raises nor loops. *)
Theorem render_returns (fuel : nat) (s : str) (w h : Z) (r : Renderer) :
  1 <= w -> len s <= Z.of_nat fuel ->
  code_only parse_escape s -> 0 <= opened r ->
  exists r', _render term_to_rgb parse_escape fuel s (w, h) r = Done r'.
Proof. apply render_returns_any_buffer. Qed.

End Total.

Lemma render_returns_witness :
  exists r',
    _render Color.term_to_rgb Color.parse_escape 40 styled_text (3, 1) fresh
    = Done r'.
Proof.
  apply (render_returns Color.term_to_rgb Color.parse_escape 40 styled_text 3 1 fresh).
  - lia.
  - vm_compute. discriminate.
  - exact styled_text_code_only.
  - vm_compute. discriminate.
Defined.

(** ** Rendering a tree of panes *)

Lemma Pane_nested_ind (P : Pane -> Prop) :
  (forall identifier x y size panes vertical,
      Forall P panes -> P (mkPane identifier x y size panes vertical)) ->
  forall p, P p.
Proof.
  intros H. fix IH 1. intros [identifier x y size panes vertical]. apply H.
  induction panes as [|q panes IHpanes]; constructor; [apply IH|exact IHpanes].
Qed.

Lemma arranges_refl (r : Renderer) : arranges r r [].
Proof.
  repeat split; auto. exists []. rewrite app_nil_r. repeat split.
Qed.

Lemma arranges_trans (a b c : Renderer) (l1 l2 : list Pane) :
  arranges a b l1 -> arranges b c l2 -> arranges a c (l1 ++ l2).
Proof.
  intros ((o1 & H1 & F1 & B1) & K1 & G1 & P1 & Z1)
         ((o2 & H2 & F2 & B2) & K2 & G2 & P2 & Z2).
  split; [|split; [|split; [|split]]].
  - exists (o1 ++ o2). split; [now rewrite H2, H1, app_assoc|]. split.
    + now rewrite filter_app, map_app, F1, F2.
    + rewrite !len_filter_app. lia.
  - auto.
  - intros k Hf Hb. now rewrite G2, G1.
  - auto.
  - auto.
Qed.

Lemma block_chunk_no_div (c : chunk) :
  block_chunk c = true ->
  is_pane_div c = false /\ is_div_open c = false /\ is_div_close c = false.
Proof.
  destruct c as [s| | |]; cbn [block_chunk is_pane_div is_div_open is_div_close];
    try (intros _; repeat split; reflexivity).
  intro H. apply orb_true_iff in H as [H|H];
    [apply orb_true_iff in H as [H|H]; [apply orb_true_iff in H as [H|H]|]|].
  - destruct s as [|a [|b s]]; [discriminate H| |].
    { change (is_prefix (lit "<span ") [a]) with (N.eqb 60 a && false) in H.
      apply andb_true_iff in H as [_ H]. discriminate H. }
    change (is_prefix (lit "<span ") (a :: b :: s))
      with (N.eqb 60 a && (N.eqb 115 b && is_prefix (lit "pan ") s)) in H.
    apply andb_true_iff in H as [Ha H].
    apply andb_true_iff in H as [Hb _].
    apply N.eqb_eq in Ha, Hb. subst a b. repeat split; reflexivity.
  - apply str_eqb_eq in H. subst s. repeat split; reflexivity.
  - apply str_eqb_eq in H. subst s. repeat split; reflexivity.
  - apply str_eqb_eq in H. subst s. repeat split; reflexivity.
Qed.

Lemma block_chunks_no_div (out : list chunk) :
  forallb block_chunk out = true ->
  filter is_pane_div out = [] /\ filter is_div_open out = []
  /\ filter is_div_close out = [].
Proof.
  induction out as [|c out IH]; [repeat split; reflexivity|].
  cbn [forallb]. intro H. apply andb_true_iff in H as [Hc Ho].
  destruct (block_chunk_no_div c Hc) as (H1 & H2 & H3).
  destruct (IH Ho) as (I1 & I2 & I3).
  cbn [filter]. rewrite H1, H2, H3. auto.
Qed.

(** A pass that keeps the renderer, and a tag counter at zero at zero,
    arranges no leaf. *)
Lemma keeps_arranges (r r' : Renderer) :
  keeps r r' -> (opened r = 0 -> opened r' = 0) -> arranges r r' [].
Proof.
  intros ((out & H & B) & K & G & P & _) Z.
  destruct (block_chunks_no_div out B) as (F1 & F2 & F3).
  split; [|auto]. exists out. rewrite F1, F2, F3. repeat split. exact H.
Qed.

Lemma sep_cell_no_div (vertical : bool) (size : Z) :
  is_pane_div (Markup (py_mul (sep_cell vertical) size)) = false
  /\ is_div_open (Markup (py_mul (sep_cell vertical) size)) = false
  /\ is_div_close (Markup (py_mul (sep_cell vertical) size)) = false.
Proof.
  unfold py_mul. destruct (Z.to_nat size) as [|n]; [repeat split; reflexivity|].
  cbn [repeat concat]. destruct vertical; repeat split; reflexivity.
Qed.

Section Tree.

Variable term_to_rgb : Z -> list Z -> Z * Z * Z.
Variable parse_escape :
  str -> option color -> option color -> list Z ->
  option color * option color * list Z.
Variable get_contents : str -> str.

Lemma add_separator_arranges (vertical : bool) (size : Z) (r r' : Renderer) :
  _add_separator term_to_rgb vertical size r = Done r' -> arranges r r' [].
Proof.
  unfold _add_separator.
  set (r0 := append _ r).
  destruct (open term_to_rgb None None None span None r0) as [r1| |] eqn:E;
    cbn [bind]; try discriminate.
  apply (keeps_open term_to_rgb) in E as (((o1 & H1 & B1) & K1 & G1 & P1 & _) & O1).
  intro H. injection H as <-.
  set (r2 := append (Markup (py_mul (sep_cell vertical) size)) r1).
  destruct (keeps_close false r2) as ((o2 & H2 & B2) & K2 & G2 & P2 & _).
  destruct (block_chunks_no_div o1 B1) as (F1 & F2 & F3).
  destruct (block_chunks_no_div o2 B2) as (F4 & F5 & F6).
  destruct (sep_cell_no_div vertical size) as (S1 & S2 & S3).
  split; [|split; [|split; [|split]]].
  - eexists. split; [|split].
    + cbn [append chunks]. rewrite H2. unfold r2. cbn [append chunks]. rewrite H1.
      unfold r0. cbn [append chunks]. rewrite <- !app_assoc. reflexivity.
    + rewrite !filter_app, F1, F4. cbn [filter]. rewrite S1.
      destruct vertical; reflexivity.
    + rewrite !len_filter_app, F2, F3, F5, F6. cbn [filter]. rewrite S2, S3.
      destruct vertical; reflexivity.
  - intros k Hk. cbn [append css]. apply K2. unfold r2. cbn [append css].
    apply K1. exact Hk.
  - intros k Hf Hb. cbn [append css]. rewrite G2 by assumption. unfold r2.
    cbn [append css]. rewrite G1 by assumption. reflexivity.
  - intro Ho. cbn [append opened]. apply P2. unfold r2. cbn [append opened].
    apply P1. exact Ho.
  - intro Ho. cbn [append opened]. rewrite close_one.
    + cbn [append set_opened opened]. unfold r2. cbn [append opened].
      rewrite O1. unfold r0. cbn [append opened]. lia.
    + unfold r2. cbn [append opened]. rewrite O1. unfold r0.
      cbn [append opened]. lia.
Qed.

Lemma add_separator_if_arranges (b vertical : bool) (size : Z) (r r' : Renderer) :
  (if b then _add_separator term_to_rgb vertical size r else Done r) = Done r' ->
  arranges r r' [].
Proof.
  destruct b; [apply add_separator_arranges|].
  intro H. injection H as <-. apply arranges_refl.
Qed.

Lemma render_children_arranges (render : Pane -> Renderer -> outcome Renderer)
  (x y : Z) :
  forall (ps : list Pane),
    Forall (fun p => forall r r', render p r = Done r' -> arranges r r' (leaves p)) ps ->
    forall r r',
      render_children term_to_rgb render x y ps r = Done r' ->
      arranges r r' (flat_map leaves ps).
Proof.
  induction ps as [|p ps IH]; intros HF r r'; cbn [render_children flat_map].
  - intro H. injection H as <-. apply arranges_refl.
  - inversion HF as [|? ? Hp Hps]; subst.
    destruct (if negb (x_of p =? 0) && (x <? x_of p) then _ else _) as [r1| |] eqn:E1;
      cbn [bind]; try discriminate.
    apply add_separator_if_arranges in E1.
    destruct (if negb (y_of p =? 0) && (y <? y_of p) then _ else _) as [r2| |] eqn:E2;
      cbn [bind]; try discriminate.
    apply add_separator_if_arranges in E2.
    destruct (render p r2) as [r3| |] eqn:E3; cbn [bind]; try discriminate.
    apply Hp in E3. intro H. apply (IH Hps) in H.
    apply (arranges_trans r r1 r' [] _ E1).
    apply (arranges_trans r1 r2 r' [] _ E2).
    apply (arranges_trans r2 r3 r' _ _ E3 H).
Qed.

Lemma arranges_wrap (r r1 r' : Renderer) (ls : list Pane) (a b : chunk) :
  arranges (append a r) r1 ls ->
  r' = append b r1 ->
  len (filter is_div_open [a]) = len (filter is_div_close [b]) ->
  len (filter is_div_close [a]) = 0 -> len (filter is_div_open [b]) = 0 ->
  is_pane_div b = false ->
  exists out,
    chunks r' = chunks r ++ out
    /\ filter is_pane_div out = filter is_pane_div [a] ++ map pane_tag ls
    /\ len (filter is_div_open out) = len (filter is_div_close out).
Proof.
  intros ((out & H & F & B) & _) -> Hab Ha Hb Hp.
  exists ([a] ++ out ++ [b]). split; [|split].
  - cbn [append chunks] in *. rewrite H, <- !app_assoc. reflexivity.
  - rewrite !filter_app, F. cbn [filter]. rewrite Hp, app_nil_r. reflexivity.
  - rewrite !len_filter_app. lia.
Qed.

Lemma render_pane_arranges (fuel : nat) :
  forall (pane : Pane) (r r' : Renderer),
    _render_pane term_to_rgb parse_escape get_contents fuel pane r = Done r' ->
    arranges r r' (leaves pane).
Proof.
  induction pane as [identifier x y size panes vertical IH] using Pane_nested_ind.
  intros r r'. cbn [_render_pane leaves]. destruct (truthy panes).
  - set (a := Markup (if vertical then _ else _)).
    destruct (render_children term_to_rgb _ x y panes (append a r)) as [r1| |] eqn:E;
      cbn [bind]; try discriminate.
    apply (render_children_arranges _ x y panes IH) in E.
    intro H. injection H as <-.
    destruct (arranges_wrap r r1 _ _ a (Markup (lit "</div>")) E eq_refl)
      as (out & H & F & B); try (unfold a; destruct vertical; reflexivity).
    destruct E as (_ & K & G & P & Z).
    split; [|split; [|split; [|split]]]; auto.
    exists out. split; [exact H|]. split; [|exact B].
    rewrite F. unfold a. destruct vertical; reflexivity.
  - set (a := Markup (pane_div identifier size)).
    destruct (_render term_to_rgb parse_escape fuel _ size (append a r))
      as [r1| |] eqn:E; cbn [bind]; try discriminate.
    apply (render_frame term_to_rgb parse_escape) in E as (r2 & K & -> & Z).
    intro H. injection H as <-.
    assert (K0 : keeps (append a r) (append (Markup (lit "</pre>")) r2)).
    { eapply keeps_trans; [apply keeps_style|].
      eapply keeps_trans; [apply (keeps_append (Markup (lit "<pre>"))); reflexivity|].
      eapply keeps_trans; [exact K|].
      apply (keeps_append (Markup (lit "</pre>"))); reflexivity. }
    assert (E : arranges (append a r) (append (Markup (lit "</pre>")) r2) []).
    { apply keeps_arranges; [exact K0|]. cbn [append opened]. intro H. apply Z.
      cbn [append opened]. lia. }
    destruct (arranges_wrap r _ _ _ a (Markup (lit "</div>")) E eq_refl)
      as (out & H & F & B); try reflexivity.
    destruct E as (_ & Kc & G & P & Zc).
    split; [|split; [|split; [|split]]]; auto.
    exists out. split; [exact H|]. split; [|exact B]. rewrite F. reflexivity.
Qed.

(** X14: whenever [_render_pane] returns, the buffer it was given is
    still there, followed by what it appended; the opening tags of leaf
    blocks among what it appended are those of the leaves of the tree,
    each once, in the order of the recursion; and it appended as many
    closing as opening [div] tags. *)
Theorem render_pane_leaves (fuel : nat) (pane : Pane) (r r' : Renderer) :
  _render_pane term_to_rgb parse_escape get_contents fuel pane r = Done r' ->
  exists out,
    chunks r' = chunks r ++ out
    /\ filter is_pane_div out = map pane_tag (leaves pane)
    /\ len (filter is_div_open out) = len (filter is_div_close out).
Proof.
  intro H. apply render_pane_arranges in H as (H & _). exact H.
Qed.

(** X15: whenever [render_pane] returns, no tag is counted as open, the
    buffer holds the blocks of the leaves of the tree and nothing of an
    earlier render, and the four static classes still have the rules
    [reset_css] gave them: no colour rule overwrites them. *)
Theorem render_pane_static_rules (fuel : nat) (pane : Pane) (r r' : Renderer) :
  render_pane term_to_rgb parse_escape get_contents fuel pane r = Done r' ->
  opened r' = 0
  /\ filter is_pane_div (chunks r') = map pane_tag (leaves pane)
  /\ (forall k v, dict_get k reset_css = Some v -> dict_get k (css r') = Some v).
Proof.
  unfold render_pane. intro H.
  apply render_pane_arranges in H as ((out & H & F & _) & _ & G & _ & Z).
  cbn [set_opened opened chunks css esc_style] in *. split; [|split].
  - now apply Z.
  - rewrite H. exact F.
  - intros k v Hk. rewrite G; [exact Hk| |];
      unfold reset_css in Hk; cbn [dict_get] in Hk;
      repeat match type of Hk with
             | (if str_eqb ?a k then _ else _) = _ =>
                 let E := fresh "E" in
                 destruct (str_eqb a k) eqn:E;
                 [apply str_eqb_eq in E; subst k; reflexivity|]
             end; discriminate Hk.
Qed.

Lemma add_separator_returns (vertical : bool) (size : Z) (r : Renderer) :
  exists r', _add_separator term_to_rgb vertical size r = Done r'.
Proof.
  unfold _add_separator.
  destruct (open_done term_to_rgb None None None span None
              (append (Markup (lit "<div class=" ++ dq
                               ++ (if vertical then lit "v" else lit "h")
                               ++ lit " sep" ++ dq ++ lit "><pre>")) r)
              eq_refl eq_refl) as (html & r1 & -> & _).
  cbn [bind]. eexists. reflexivity.
Qed.

Lemma add_separator_if_returns (b vertical : bool) (size : Z) (r : Renderer) :
  exists r',
    (if b then _add_separator term_to_rgb vertical size r else Done r) = Done r'.
Proof. destruct b; [apply add_separator_returns|eexists; reflexivity]. Qed.

Lemma render_children_return (fuel : nat) (x y : Z) :
  forall (ps : list Pane),
    Forall (fun p => Forall (renders parse_escape get_contents fuel) (leaves p) -> forall r, 0 <= opened r ->
                     exists r', _render_pane term_to_rgb parse_escape get_contents
                                  fuel p r = Done r') ps ->
    Forall (renders parse_escape get_contents fuel) (flat_map leaves ps) ->
    forall r, 0 <= opened r ->
      exists r',
        render_children term_to_rgb
          (_render_pane term_to_rgb parse_escape get_contents fuel) x y ps r = Done r'.
Proof.
  induction ps as [|p ps IH]; intros HF Hok r Ho; cbn [render_children].
  - eexists. reflexivity.
  - inversion HF as [|? ? Hp Hps]; subst.
    cbn [flat_map] in Hok. apply Forall_app in Hok as [Hok1 Hok2].
    destruct (add_separator_if_returns (negb (x_of p =? 0) && (x <? x_of p)) false
                (snd (size_of p)) r) as (r1 & E1).
    rewrite E1. cbn [bind]. apply add_separator_if_arranges in E1.
    destruct (add_separator_if_returns (negb (y_of p =? 0) && (y <? y_of p)) true
                (fst (size_of p)) r1) as (r2 & E2).
    rewrite E2. cbn [bind]. apply add_separator_if_arranges in E2.
    assert (Ho2 : 0 <= opened r2) by (apply E2, E1, Ho).
    destruct (Hp Hok1 r2 Ho2) as (r3 & E3). rewrite E3. cbn [bind].
    apply render_pane_arranges in E3.
    apply (IH Hps Hok2). apply E3, Ho2.
Qed.

Lemma render_pane_tree_returns (fuel : nat) :
  forall (pane : Pane),
    Forall (renders parse_escape get_contents fuel) (leaves pane) ->
    forall r, 0 <= opened r ->
      exists r', _render_pane term_to_rgb parse_escape get_contents fuel pane r
                 = Done r'.
Proof.
  induction pane as [identifier x y size panes vertical IH] using Pane_nested_ind.
  intros Hok r Ho. cbn [_render_pane leaves] in *. destruct (truthy panes).
  - destruct (render_children_return fuel x y panes IH Hok
                (append (Markup (if vertical
                                 then lit "<div class=" ++ dq ++ lit "v" ++ dq ++ lit ">"
                                 else lit "<div class=" ++ dq ++ lit "h" ++ dq ++ lit ">")) r)
                Ho) as (r1 & ->).
    cbn [bind]. eexists. reflexivity.
  - inversion Hok as [|? ? (Hw & Hf & Hc) _]; subst.
    cbn [size_of identifier_of] in *.
    destruct size as [w h]. cbn [fst] in Hw.
    destruct (render_returns_any_buffer term_to_rgb parse_escape fuel _ w h
                (append (Markup (pane_div identifier (w, h))) r) Hw Hf Hc Ho)
      as (r1 & ->).
    cbn [bind]. eexists. reflexivity.
Qed.

(** X16: [render_pane] returns for every tree of panes whose leaves are
    at least one cell wide and hold texts that make no colour a tuple,
    given fuel for the longest of the texts: it neither raises nor loops,
    whatever state an earlier render left. *)
Theorem render_pane_returns (fuel : nat) (pane : Pane) (r : Renderer) :
  Forall (renders parse_escape get_contents fuel) (leaves pane) ->
  exists r', render_pane term_to_rgb parse_escape get_contents fuel pane r = Done r'.
Proof.
  intro Hok. unfold render_pane. apply render_pane_tree_returns; [exact Hok|].
  cbn [set_opened opened]. lia.
Qed.

End Tree.

Lemma render_pane_leaves_witness :
  exists r',
    _render_pane Color.term_to_rgb Color.parse_escape two_texts 4 window2 fresh
    = Done r'
    /\ exists out,
         chunks r' = chunks fresh ++ out
         /\ filter is_pane_div out = map pane_tag (leaves window2)
         /\ len (filter is_div_open out) = len (filter is_div_close out).
Proof.
  eexists. split; [vm_compute; reflexivity|].
  apply (render_pane_leaves Color.term_to_rgb Color.parse_escape two_texts 4
           window2 fresh).
  vm_compute. reflexivity.
Defined.

Lemma render_pane_static_rules_witness :
  exists r',
    render_pane Color.term_to_rgb Color.parse_escape two_texts 4 window2
      (mkRenderer 3 [Break] [] [1]) = Done r'
    /\ opened r' = 0
    /\ filter is_pane_div (chunks r') = map pane_tag (leaves window2)
    /\ (forall k v, dict_get k reset_css = Some v -> dict_get k (css r') = Some v).
Proof.
  eexists. split; [vm_compute; reflexivity|].
  apply (render_pane_static_rules Color.term_to_rgb Color.parse_escape two_texts 4
           window2 (mkRenderer 3 [Break] [] [1])).
  vm_compute. reflexivity.
Defined.

Lemma render_pane_returns_witness :
  exists r',
    render_pane Color.term_to_rgb Color.parse_escape two_texts 4 window2 fresh
    = Done r'.
Proof.
  apply (render_pane_returns Color.term_to_rgb Color.parse_escape two_texts 4
           window2 fresh).
  apply Forall_cons; [|apply Forall_cons; [|apply Forall_nil]];
    (split; [vm_compute; discriminate|split; [vm_compute; discriminate|]]);
    intros line m fg bg sty Hl Hm; vm_compute in Hl;
    destruct Hl as [<-|[]]; destruct Hm.
Defined.

(** ** Targets *)



















(** ** Targets without a number *)

Lemma in_lstrip (c : N) (s : list N) : In c (lstrip s) -> In c s.
Proof.
  induction s as [|x s IH]; [tauto|]. cbn [lstrip].
  destruct (is_space x); [|tauto]. intro H. right. auto.
Qed.

Lemma in_strip (c : N) (s : list N) : In c (strip s) -> In c s.
Proof.
  unfold strip. intro H. apply in_rev, in_lstrip, in_rev, in_lstrip in H. exact H.
Qed.

Lemma in_py_slice {A : Type} (x : A) (s : list A) (lo hi : option Z) :
  In x (py_slice s lo hi) -> In x s.
Proof.
  unfold py_slice. intro H.
  set (a := Z.to_nat _) in H. set (b := Z.to_nat _) in H.
  rewrite <- (firstn_skipn b s). apply in_or_app. right.
  rewrite <- (firstn_skipn a (skipn b s)). apply in_or_app. now left.
Qed.

Lemma digits_needs_digit (s : list N) (acc : Z) :
  (forall c, In c s -> is_digit c = false) -> digits acc false s = None.
Proof.
  destruct s as [|c s]; [reflexivity|]. intro H. cbn [digits].
  unfold digit. change ((48 <=? c)%N && (c <=? 57)%N) with (is_digit c).
  rewrite (H c (or_introl eq_refl)). now rewrite andb_false_r.
Qed.

Lemma py_int_needs_digit (s : list N) :
  (forall c, In c s -> is_digit c = false) -> py_int s = Raise ValueError.
Proof.
  intro H. unfold py_int.
  assert (Hs : forall c, In c (strip s) -> is_digit c = false)
    by (intros c Hc; apply H, in_strip, Hc).
  destruct (strip s) as [|c t]; [reflexivity|].
  assert (Ht : forall x, In x t -> is_digit x = false)
    by (intros x Hx; apply Hs; now right).
  destruct (N.eqb c 45); [now rewrite digits_needs_digit|].
  destruct (N.eqb c 43); now rewrite digits_needs_digit.
Qed.

(** X19: an ASCII target that holds no decimal digit is refused: reading
    it raises [ValueError], whatever else it holds (a session and a colon,
    a dot, signs), so a session name alone is no target. *)
Theorem parse_target_needs_number (target : str) :
  (forall c, In c target -> (c < 128)%N /\ is_digit c = false) ->
  parse_target target = Raise ValueError.
Proof.
  intro Hascii.
  assert (H : forall c, In c target -> is_digit c = false)
    by (intros c Hc; apply Hascii, Hc).
  clear Hascii. unfold parse_target.
  assert (Hrest : forall (session : option (list N)) rest,
             (forall c, In c rest -> is_digit c = false) ->
             (if negb (py_find 46%N rest =? -1) then
                let '(w, p) := py_split1 46%N rest in
                w <- py_int w ;; p <- py_int p ;; Done (session, w, Some p)
              else w <- py_int rest ;; Done (session, w, None))
             = Raise ValueError).
  { intros session rest Hr.
    assert (Hw : py_int (fst (py_split1 46%N rest)) = Raise ValueError).
    { apply py_int_needs_digit. intros c Hc. apply Hr.
      unfold py_split1 in Hc. cbn [fst] in Hc. exact (in_py_slice _ _ _ _ Hc). }
    destruct (negb (py_find 46%N rest =? -1)).
    - destruct (py_split1 46%N rest) as [w p]. cbn [fst] in Hw. rewrite Hw.
      reflexivity.
    - rewrite (py_int_needs_digit rest Hr). reflexivity. }
  destruct (negb (py_find 58%N target =? -1)).
  - destruct (py_split1 58%N target) as [a b] eqn:E.
    apply Hrest. intros c Hc. apply H.
    assert (Hb : b = snd (py_split1 58%N target)) by now rewrite E.
    rewrite Hb in Hc. unfold py_split1 in Hc. cbn [snd] in Hc.
    exact (in_py_slice _ _ _ _ Hc).
  - apply Hrest, H.
Qed.

Lemma parse_target_needs_number_witness :
  parse_target (lit "work:main.left") = Raise ValueError.
Proof.
  apply (parse_target_needs_number (lit "work:main.left")).
  intros c Hc. vm_compute in Hc.
  repeat (destruct Hc as [<-|Hc]; [split; reflexivity|]). destruct Hc.
Defined.

(** ** The sequences a block records *)

Lemma keeps_in (r r' : Renderer) (c : chunk) :
  keeps r r' -> In c (chunks r) -> In c (chunks r').
Proof.
  intros ((out & H & _) & _) Hc. rewrite H. apply in_or_app. now left.
Qed.

Lemma tag_html_seq (classes : list str) (seq : str) :
  seq <> [] ->
  exists pre,
    lit "<" ++ span ++ lit " "
    ++ py_join (lit " ")
         ((if truthy classes
           then [lit "class=" ++ dq ++ py_join (lit " ") classes ++ dq] else [])
          ++ (if truthy seq then [lit "data-seq=" ++ dq ++ seq ++ dq] else []))
    ++ lit ">"
    = pre ++ lit "data-seq=" ++ dq ++ seq ++ dq ++ lit ">".
Proof.
  intro Hne. destruct seq as [|x seq]; [congruence|].
  change (truthy (x :: seq)) with true. cbv iota.
  destruct classes as [|k classes].
  - exists (lit "<" ++ span ++ lit " "). change (truthy (@nil (list N))) with false.
    cbv iota. change ([] ++ [lit "data-seq=" ++ dq ++ (x :: seq) ++ dq])
      with [lit "data-seq=" ++ dq ++ (x :: seq) ++ dq].
    change (py_join (lit " ") [lit "data-seq=" ++ dq ++ (x :: seq) ++ dq])
      with (lit "data-seq=" ++ dq ++ (x :: seq) ++ dq).
    repeat rewrite <- app_assoc. reflexivity.
  - change (truthy (k :: classes)) with true. cbv iota.
    set (c := lit "class=" ++ dq ++ py_join (lit " ") (k :: classes) ++ dq).
    set (d := lit "data-seq=" ++ dq ++ (x :: seq) ++ dq).
    exists (lit "<" ++ span ++ lit " " ++ c ++ lit " ").
    change (py_join (lit " ") ([c] ++ [d])) with (c ++ lit " " ++ d).
    unfold d. repeat rewrite <- app_assoc. reflexivity.
Qed.

Section Sequences.

Variable term_to_rgb : Z -> list Z -> Z * Z * Z.
Variable parse_escape :
  str -> option color -> option color -> list Z ->
  option color * option color * list Z.

Lemma open_seq (fg bg : option color) (seq : str) (cls : option str)
  (r r' : Renderer) :
  open term_to_rgb fg bg (Some seq) span cls r = Done r' ->
  seq <> [] ->
  exists pre, chunks r' = chunks r ++ [seq_tag pre seq].
Proof.
  unfold open.
  destruct (open_classes term_to_rgb fg bg cls r) as [[classes r1]| |] eqn:Hcl;
    try discriminate.
  destruct (open_classes_frame term_to_rgb _ _ _ _ _ _ Hcl) as (_ & Hc & _).
  intros H Hne. destruct (tag_html_seq classes seq Hne) as (pre & Hpre).
  exists pre. unfold seq_tag. rewrite <- Hpre, <- Hc. injection H as <-.
  reflexivity.
Qed.

Lemma render_matches_records :
  forall (ms : list sgr_match) (fuel : nat) (w : Z) (line : str)
    (last_i line_l : Z) (f : frame) (last_i' line_l' : Z) (f' : frame) (m : sgr_match),
    render_matches term_to_rgb parse_escape fuel w line ms last_i line_l f
    = Done (last_i', line_l', f') ->
    In m ms -> m_group m <> [] ->
    exists pre, In (seq_tag pre (m_group m)) (chunks (rd f')).
Proof.
  induction ms as [|m0 ms IH];
    intros fuel w line last_i line_l f last_i' line_l' f' m; [intros _ []|].
  cbn [render_matches].
  destruct (if truthy _ && (last_i =? 0) && (opened (rd f) =? 0) then _ else _)
    as [r1| |]; cbn [bind]; try discriminate.
  destruct (_wrap_line fuel _ _ w r1) as [[[[nl l1] c1] r2]| |];
    cbn [bind]; try discriminate.
  destruct (parse_escape (m_group m0) (cur_fg f) (cur_bg f) _) as [[fg bg] sty].
  destruct (open term_to_rgb fg bg (Some (m_group m0)) span None _) as [r7| |] eqn:E7;
    cbn [bind]; try discriminate.
  intros H [<-|Hin] Hne.
  - destruct (open_seq _ _ _ _ _ _ E7 Hne) as (pre & Hch). exists pre.
    apply (render_matches_keeps term_to_rgb parse_escape) in H. cbn [rd] in H.
    apply (keeps_in r7 _ _ H). rewrite Hch. apply in_or_app. right. now left.
  - exact (IH _ _ _ _ _ _ _ _ _ m H Hin Hne).
Qed.

Lemma render_line_records (fuel : nat) (size : Z * Z) (nlines line_i : Z)
  (line : str) (f f' : frame) (m : sgr_match) :
  render_line term_to_rgb parse_escape fuel size nlines line_i line f = Done f' ->
  In m (finditer line) -> m_group m <> [] ->
  exists pre, In (seq_tag pre (m_group m)) (chunks (rd f')).
Proof.
  unfold render_line.
  destruct (render_matches term_to_rgb parse_escape fuel (fst size) line
              (finditer line) 0 0 f) as [[[last_i line_l] f1]| |] eqn:E1;
    cbn [bind]; try discriminate.
  destruct (render_tail term_to_rgb fuel size line last_i line_l f1)
    as [[c f2]| |] eqn:E2; cbn [bind]; try discriminate.
  apply (render_tail_keeps term_to_rgb) in E2 as (K2 & _).
  intros H Hin Hne.
  destruct (render_matches_records _ _ _ _ _ _ _ _ _ _ m E1 Hin Hne) as (pre & Hp).
  exists pre. apply (keeps_in _ _ _ K2) in Hp.
  destruct (truthy c || (line_i <? nlines - 1)); injection H as <-; cbn [rd];
    [|exact Hp].
  cbn [append chunks]. apply in_or_app. now left.
Qed.

Lemma render_lines_records :
  forall (lines : list str) (fuel : nat) (size : Z * Z) (nlines line_i : Z)
    (f f' : frame) (line : str) (m : sgr_match),
    render_lines term_to_rgb parse_escape fuel size nlines line_i lines f = Done f' ->
    In line lines -> In m (finditer line) -> m_group m <> [] ->
    exists pre, In (seq_tag pre (m_group m)) (chunks (rd f')).
Proof.
  induction lines as [|l0 rest IH]; intros fuel size nlines line_i f f' line m;
    [intros _ []|].
  cbn [render_lines].
  destruct (render_line term_to_rgb parse_escape fuel size nlines line_i l0 f)
    as [f1| |] eqn:E1; cbn [bind]; try discriminate.
  intros H [<-|Hin] Hm Hne.
  - destruct (render_line_records _ _ _ _ _ _ _ m E1 Hm Hne) as (pre & Hp).
    exists pre. apply (render_lines_keeps term_to_rgb parse_escape) in H as (K & _).
    exact (keeps_in _ _ _ K Hp).
  - exact (IH _ _ _ _ _ _ line m H Hin Hm Hne).
Qed.

(** X18: whenever [_render] returns, every SGR sequence of the text whose
    parameter text is not empty has left a tag in the buffer that carries
    this parameter text as it is, unescaped, in its [data-seq]
    attribute. *)
Theorem render_records_sequences (fuel : nat) (s : str) (size : Z * Z)
  (r r' : Renderer) (line : str) (m : sgr_match) :
  _render term_to_rgb parse_escape fuel s size r = Done r' ->
  In line (py_split LF s) -> In m (finditer line) -> m_group m <> [] ->
  exists pre, In (seq_tag pre (m_group m)) (chunks r').
Proof.
  unfold _render.
  destruct (render_lines term_to_rgb parse_escape fuel size
              (len (py_split LF s)) 0 (py_split LF s) _) as [f| |] eqn:E;
    cbn [bind]; try discriminate.
  intros H Hl Hm Hne.
  destruct (render_lines_records _ _ _ _ _ _ _ line m E Hl Hm Hne) as (pre & Hp).
  exists pre.
  assert (K : exists r1, keeps (rd f) r1 /\ r' = append (Markup (lit "</pre>")) r1).
  { destruct (line_c f <? snd size).
    - destruct (open term_to_rgb None None None span (Some (lit "ns")) (rd f))
        as [r2| |] eqn:E2; cbn [bind] in H; try discriminate.
      apply (keeps_open term_to_rgb) in E2 as (K2 & _).
      pose proof (fill_keeps size (Z.to_nat (snd size - line_c f)) (line_c f) r2)
        as [K3 _].
      destruct (fill (Z.to_nat (snd size - line_c f)) size (line_c f) r2) as [lc r3].
      cbn [snd] in K3. cbn [bind] in H. injection H as <-.
      exists (close span true r3). split; [|reflexivity].
      eapply keeps_trans; [exact K2|]. eapply keeps_trans; [exact K3|].
      apply keeps_close.
    - cbn [bind] in H. injection H as <-. exists (rd f).
      split; [apply keeps_refl|reflexivity]. }
  destruct K as (r1 & K & ->). cbn [append chunks]. apply in_or_app. left.
  exact (keeps_in _ _ _ K Hp).
Qed.

End Sequences.

Lemma render_records_sequences_witness :
  exists r',
    _render Color.term_to_rgb Color.parse_escape 20 styled_line (10, 2) fresh
    = Done r'
    /\ exists pre, In (seq_tag pre (lit "1;31")) (chunks r').
Proof.
  eexists. split; [vm_compute; reflexivity|].
  apply (render_records_sequences Color.term_to_rgb Color.parse_escape 20
           styled_line (10, 2) fresh _ styled_line (mkMatch 0 7 (lit "1;31"))).
  - vm_compute. reflexivity.
  - vm_compute. left. reflexivity.
  - vm_compute. left. reflexivity.
  - discriminate.
Defined.

(** ** The text of a block *)

Lemma text_of_app (a b : list chunk) : text_of (a ++ b) = text_of a ++ text_of b.
Proof. apply flat_map_app. Qed.

Lemma writes_refl (r : Renderer) : writes r r [].
Proof. exists []. split; [now rewrite app_nil_r|reflexivity]. Qed.

Lemma writes_trans (a b c : Renderer) (t1 t2 : str) :
  writes a b t1 -> writes b c t2 -> writes a c (t1 ++ t2).
Proof.
  intros (o1 & H1 & T1) (o2 & H2 & T2). exists (o1 ++ o2).
  split; [now rewrite H2, H1, app_assoc|]. now rewrite text_of_app, T1, T2.
Qed.

Lemma writes_nothing (a b c : Renderer) (t : str) :
  writes a b [] -> writes b c t -> writes a c t.
Proof. intros H1 H2. exact (writes_trans a b c [] t H1 H2). Qed.

Lemma writes_then_nothing (a b c : Renderer) (t : str) :
  writes a b t -> writes b c [] -> writes a c t.
Proof.
  intros H1 H2. rewrite <- (app_nil_r t). exact (writes_trans a b c t [] H1 H2).
Qed.

Lemma writes_append (c : chunk) (r : Renderer) :
  writes r (append c r) (text_of [c]).
Proof. exists [c]. split; reflexivity. Qed.

Lemma writes_style (sty : list Z) (r : Renderer) : writes r (set_esc_style sty r) [].
Proof. exists []. split; [cbn; now rewrite app_nil_r|reflexivity]. Qed.

Lemma writes_close (closeall : bool) (r : Renderer) :
  writes r (close span closeall r) [].
Proof.
  unfold close. destruct (0 <? opened r); [|apply writes_refl].
  destruct closeall.
  - eexists. split; [reflexivity|].
    induction (Z.to_nat (opened r)) as [|n IH]; [reflexivity|exact IH].
  - eexists. split; reflexivity.
Qed.

Lemma text_of_cut_chunks (slices : list str) :
  text_of (cut_chunks slices) = concat slices.
Proof.
  induction slices as [|s slices IH]; [reflexivity|].
  change (cut_chunks (s :: slices)) with ([Text s; Break] ++ cut_chunks slices).
  rewrite text_of_app, IH. cbn [concat]. f_equal.
  unfold text_of. cbn [flat_map]. now rewrite !app_nil_r.
Qed.

Lemma writes_wrap (fuel : nat) (line : str) (length w : Z) (r r' : Renderer)
  (nl l' : Z) (c' : str) :
  _wrap_line fuel line length w r = Done (nl, l', c', r') ->
  exists t, writes r r' t /\ t ++ c' = line.
Proof.
  unfold _wrap_line. intro H.
  apply wrap_loop_keeps in H as (slices & -> & Hcat & _).
  exists (concat slices). split; [|exact Hcat].
  exists (cut_chunks slices). split; [reflexivity|apply text_of_cut_chunks].
Qed.

Section Text.

Variable term_to_rgb : Z -> list Z -> Z * Z * Z.
Variable parse_escape :
  str -> option color -> option color -> list Z ->
  option color * option color * list Z.

Lemma writes_open (fg bg : option color) (seq cls : option str) (r r' : Renderer) :
  open term_to_rgb fg bg seq span cls r = Done r' -> writes r r' [].
Proof.
  intro H. destruct (open_inv term_to_rgb _ _ _ _ _ _ _ H) as (html & Hch & _).
  eexists. split; [exact Hch|reflexivity].
Qed.

Lemma writes_open_if (b : bool) (fg bg : option color) (r r' : Renderer) :
  (if b then open term_to_rgb fg bg None span None r else Done r) = Done r' ->
  writes r r' [].
Proof.
  destruct b; [apply writes_open|]. intro H. injection H as <-. apply writes_refl.
Qed.

Lemma render_matches_writes :
  forall (ms : list sgr_match) (fuel : nat) (w : Z) (line : str)
    (last_i line_l : Z) (f : frame) (last_i' line_l' : Z) (f' : frame),
    render_matches term_to_rgb parse_escape fuel w line ms last_i line_l f
    = Done (last_i', line_l', f') ->
    writes (rd f) (rd f') (concat (fst (runs line ms last_i)))
    /\ last_i' = last_end ms last_i.
Proof.
  induction ms as [|m ms IH]; intros fuel w line last_i line_l f last_i' line_l' f'.
  - cbn [render_matches runs fst concat last_end]. intro H. injection H as <- _ <-.
    split; [apply writes_refl|reflexivity].
  - cbn [render_matches last_end].
    destruct (if truthy _ && (last_i =? 0) && (opened (rd f) =? 0) then _ else _)
      as [r1| |] eqn:E1; cbn [bind]; try discriminate.
    apply writes_open_if in E1.
    destruct (_wrap_line fuel _ _ w r1) as [[[[nl l1] c1] r2]| |] eqn:E2;
      cbn [bind]; try discriminate.
    apply writes_wrap in E2 as (t & W2 & Ht).
    set (r3 := append (Text c1) r2).
    set (r4 := if last_i =? 0 then close span false r3 else r3).
    assert (W4 : writes r3 r4 []).
    { unfold r4. destruct (last_i =? 0); [apply writes_close|apply writes_refl]. }
    destruct (parse_escape (m_group m) (cur_fg f) (cur_bg f) (esc_style r4))
      as [[fg bg] sty].
    destruct (open term_to_rgb fg bg (Some (m_group m)) span None
                (close span false (set_esc_style sty r4))) as [r7| |] eqn:E7;
      cbn [bind]; try discriminate.
    apply writes_open in E7.
    intro H. apply IH in H as (W & ->). cbn [rd] in W. split; [|reflexivity].
    cbn [runs]. destruct (runs line ms (m_end m)) as [rs tl]. cbn [fst concat] in *.
    rewrite <- Ht.
    apply (writes_nothing _ r1 _ _ E1).
    rewrite <- app_assoc. apply (writes_trans _ r2 _ _ _ W2).
    apply (writes_trans _ r3 _ c1 _).
    { pose proof (writes_append (Text c1) r2) as Ha. unfold text_of in Ha.
      cbn [flat_map] in Ha. rewrite app_nil_r in Ha. exact Ha. }
    apply (writes_nothing _ r4 _ _ W4).
    apply (writes_nothing _ (set_esc_style sty r4) _ _ (writes_style sty r4)).
    apply (writes_nothing _ (close span false (set_esc_style sty r4)) _ _
             (writes_close false _)).
    apply (writes_nothing _ r7 _ _ E7). exact W.
Qed.

Lemma render_tail_writes (fuel : nat) (size : Z * Z) (line : str)
  (last_i line_l : Z) (f : frame) (c : str) (f' : frame) :
  render_tail term_to_rgb fuel size line last_i line_l f = Done (c, f') ->
  writes (rd f) (rd f') (py_slice line (Some last_i) None).
Proof.
  unfold render_tail.
  set (c0 := py_slice line (Some last_i) None).
  assert (Hfirst : forall pad c1 lc r3,
             (if truthy c0 || negb (len c0 =? fst size)
              then
                r <- (if opened (rd f) =? 0
                      then open term_to_rgb (cur_fg f) (cur_bg f) None span None (rd f)
                      else Done (rd f)) ;;
                '(nl, line_l0, c, r) <- _wrap_line fuel c0 (line_l + len c0) (fst size) r ;;
                (if line_c f + nl <? snd size
                 then Done (py_mul (lit " ") (fst size - line_l0), c, line_c f + nl, r)
                 else Done ([], c, line_c f, r))
              else Done ([], c0, line_c f, rd f)) = Done (pad, c1, lc, r3) ->
             exists t, writes (rd f) r3 t /\ t ++ c1 = c0).
  { intros pad c1 lc r3.
    destruct (truthy c0 || negb (len c0 =? fst size)).
    - destruct (if opened (rd f) =? 0 then _ else _) as [r1| |] eqn:E1;
        cbn [bind]; try discriminate.
      apply writes_open_if in E1.
      destruct (_wrap_line fuel c0 _ (fst size) r1) as [[[[nl l1] c2] r2]| |] eqn:E2;
        cbn [bind]; try discriminate.
      apply writes_wrap in E2 as (t & W2 & Ht).
      destruct (line_c f + nl <? snd size); intro H; injection H as _ <- _ <-;
        (exists t; split; [exact (writes_nothing _ _ _ _ E1 W2)|exact Ht]).
    - intro H. injection H as _ <- _ <-. exists []. split; [apply writes_refl|reflexivity]. }
  destruct (if truthy c0 || negb (len c0 =? fst size) then _ else _)
    as [[[[pad c1] lc] r3]| |] eqn:E; cbn [bind]; try discriminate.
  destruct (Hfirst _ _ _ _ eq_refl) as (t & W3 & Ht). clear Hfirst E.
  set (r4 := close span true (append (Text c1) r3)).
  assert (W4 : writes (rd f) r4 c0).
  { rewrite <- Ht. apply (writes_trans _ r3 _ _ _ W3).
    apply (writes_then_nothing _ (append (Text c1) r3)); [|apply writes_close].
    pose proof (writes_append (Text c1) r3) as Ha. unfold text_of in Ha.
    cbn [flat_map] in Ha. rewrite app_nil_r in Ha. exact Ha. }
  destruct (truthy pad).
  - destruct (open term_to_rgb None None None span (Some (lit "ns")) r4)
      as [r5| |] eqn:E5; cbn [bind]; try discriminate.
    apply writes_open in E5.
    intro H. injection H as _ <-. cbn [rd].
    apply (writes_then_nothing _ r4 _ _ W4).
    apply (writes_nothing _ r5 _ _ E5).
    apply (writes_nothing _ (append (Pad pad) r5) _ _ (writes_append (Pad pad) r5)).
    apply writes_close.
  - cbn [bind]. intro H. injection H as _ <-. cbn [rd]. exact W4.
Qed.

Lemma render_line_writes (fuel : nat) (size : Z * Z) (nlines line_i : Z)
  (line : str) (f f' : frame) :
  render_line term_to_rgb parse_escape fuel size nlines line_i line f = Done f' ->
  writes (rd f) (rd f') (visible_text line).
Proof.
  unfold render_line, visible_text.
  destruct (render_matches term_to_rgb parse_escape fuel (fst size) line
              (finditer line) 0 0 f) as [[[last_i line_l] f1]| |] eqn:E1;
    cbn [bind]; try discriminate.
  apply render_matches_writes in E1 as (W1 & ->).
  destruct (render_tail term_to_rgb fuel size line _ line_l f1)
    as [[c f2]| |] eqn:E2; cbn [bind]; try discriminate.
  apply render_tail_writes in E2. rewrite <- runs_tail in E2.
  destruct (runs line (finditer line) 0) as [rs tl]. cbn [fst snd] in *.
  pose proof (writes_trans _ _ _ _ _ W1 E2) as W.
  destruct (truthy c || (line_i <? nlines - 1)); intro H; injection H as <-;
    cbn [rd]; [|exact W].
  apply (writes_then_nothing _ _ _ _ W). apply (writes_append Break).
Qed.

Lemma render_lines_writes :
  forall (lines : list str) (fuel : nat) (size : Z * Z) (nlines line_i : Z)
    (f f' : frame),
    render_lines term_to_rgb parse_escape fuel size nlines line_i lines f = Done f' ->
    writes (rd f) (rd f') (flat_map visible_text lines).
Proof.
  induction lines as [|line rest IH]; intros fuel size nlines line_i f f'.
  - cbn [render_lines flat_map]. intro H. injection H as <-. apply writes_refl.
  - cbn [render_lines flat_map].
    destruct (render_line term_to_rgb parse_escape fuel size nlines line_i line f)
      as [f1| |] eqn:E1; cbn [bind]; try discriminate.
    apply render_line_writes in E1. intro H. apply IH in H.
    exact (writes_trans _ _ _ _ _ E1 H).
Qed.

Lemma fill_writes (size : Z * Z) :
  forall (n : nat) (lc : Z) (r : Renderer), writes r (snd (fill n size lc r)) [].
Proof.
  induction n as [|n IH]; intros lc r; cbn [fill snd]; [apply writes_refl|].
  destruct (lc <? snd size); cbn [snd]; [|apply writes_refl].
  apply (writes_nothing _ _ _ _ (writes_append (Pad (py_mul (lit " ") (fst size))) r)).
  apply (writes_nothing _ _ _ _ (writes_append Break _)). apply IH.
Qed.

(** X20: whenever [_render] returns, the literal text it appended, read
    in order, is the text it was given without its line feeds and its SGR
    sequences: wrapping, padding and tags neither drop, repeat nor reorder
    a character. *)
Theorem render_keeps_text (fuel : nat) (s : str) (size : Z * Z) (r r' : Renderer) :
  _render term_to_rgb parse_escape fuel s size r = Done r' ->
  exists out,
    chunks r' = chunks r ++ out
    /\ text_of out = flat_map visible_text (py_split LF s).
Proof.
  unfold _render.
  set (r0 := append (Markup (lit "<pre>")) (set_esc_style [] r)).
  destruct (render_lines term_to_rgb parse_escape fuel size
              (len (py_split LF s)) 0 (py_split LF s) (mkFrame None None 0 r0))
    as [f| |] eqn:E; cbn [bind]; try discriminate.
  apply render_lines_writes in E. cbn [rd] in E.
  assert (W0 : writes r r0 []).
  { apply (writes_nothing _ _ _ _ (writes_style [] r)).
    apply (writes_append (Markup (lit "<pre>"))). }
  intro H.
  assert (W2 : exists r2, writes (rd f) r2 []
                          /\ r' = append (Markup (lit "</pre>")) r2).
  { destruct (line_c f <? snd size).
    - destruct (open term_to_rgb None None None span (Some (lit "ns")) (rd f))
        as [r2| |] eqn:E2; cbn [bind] in H; try discriminate.
      apply writes_open in E2.
      pose proof (fill_writes size (Z.to_nat (snd size - line_c f)) (line_c f) r2)
        as W3.
      destruct (fill (Z.to_nat (snd size - line_c f)) size (line_c f) r2) as [lc r3].
      cbn [snd] in W3. cbn [bind] in H. injection H as <-.
      exists (close span true r3). split; [|reflexivity].
      apply (writes_nothing _ _ _ _ E2). apply (writes_nothing _ _ _ _ W3).
      apply writes_close.
    - cbn [bind] in H. injection H as <-. exists (rd f).
      split; [apply writes_refl|reflexivity]. }
  destruct W2 as (r2 & W2 & ->).
  apply (writes_nothing _ _ _ _ W0). apply (writes_then_nothing _ _ _ _ E).
  apply (writes_nothing _ _ _ _ W2). apply (writes_append (Markup (lit "</pre>"))).
Qed.

End Text.

Lemma render_keeps_text_witness :
  exists r',
    _render Color.term_to_rgb Color.parse_escape 40 styled_text (4, 5) fresh
    = Done r'
    /\ exists out,
         chunks r' = chunks fresh ++ out
         /\ text_of out = flat_map visible_text (py_split LF styled_text).
Proof.
  eexists. split; [vm_compute; reflexivity|].
  apply (render_keeps_text Color.term_to_rgb Color.parse_escape 40 styled_text
           (4, 5) fresh).
  vm_compute. reflexivity.
Defined.

(** ** The rows of a block *)

Lemma breaks_app (a b : list chunk) : breaks (a ++ b) = breaks a + breaks b.
Proof. apply len_filter_app. Qed.

Lemma breaks_nonneg (cs : list chunk) : 0 <= breaks cs.
Proof. apply len_nonneg. Qed.

Lemma grid_rows_breaks (cs : list chunk) :
  forall g, len (fst (grid_from g cs)) = len (fst g) + breaks cs.
Proof.
  induction cs as [|c cs IH]; intro g.
  - cbn. unfold breaks. cbn. lia.
  - change (grid_from g (c :: cs)) with (grid_from (grid_step g c) cs).
    rewrite IH. change (c :: cs) with ([c] ++ cs). rewrite breaks_app.
    destruct c; cbn [grid_step fst]; unfold breaks at 2; cbn [filter is_break];
      try (change (len (@nil chunk)) with 0; lia).
    rewrite len_app. change (len [snd g]) with 1. change (len [Break]) with 1. lia.
Qed.

Lemma feeds_refl (r : Renderer) : feeds r r 0.
Proof. exists []. split; [now rewrite app_nil_r|reflexivity]. Qed.

Lemma feeds_trans (a b c : Renderer) (n1 n2 : Z) :
  feeds a b n1 -> feeds b c n2 -> feeds a c (n1 + n2).
Proof.
  intros (o1 & H1 & B1) (o2 & H2 & B2). exists (o1 ++ o2).
  split; [now rewrite H2, H1, app_assoc|]. rewrite breaks_app. lia.
Qed.

Lemma feeds_less (a b : Renderer) (n m : Z) : feeds a b n -> m <= n -> feeds a b m.
Proof. intros (o & H & B) Hm. exists o. split; [exact H|lia]. Qed.

Lemma keeps_feeds (a b : Renderer) : keeps a b -> feeds a b 0.
Proof.
  intros ((o & H & _) & _). exists o. split; [exact H|apply breaks_nonneg].
Qed.

Lemma feeds_break (r : Renderer) : feeds r (append Break r) 1.
Proof. exists [Break]. split; reflexivity. Qed.

Lemma breaks_cut_chunks (slices : list str) : breaks (cut_chunks slices) = len slices.
Proof.
  induction slices as [|s slices IH]; [reflexivity|].
  change (cut_chunks (s :: slices)) with ([Text s; Break] ++ cut_chunks slices).
  rewrite breaks_app, IH, len_cons. change (breaks [Text s; Break]) with 1. lia.
Qed.

Lemma feeds_wrap (fuel : nat) (line : str) (length w : Z) (r r' : Renderer)
  (nl l' : Z) (c' : str) :
  _wrap_line fuel line length w r = Done (nl, l', c', r') -> feeds r r' nl.
Proof.
  unfold _wrap_line. intro H.
  apply wrap_loop_keeps in H as (slices & -> & _ & -> & _).
  exists (cut_chunks slices). split; [reflexivity|].
  rewrite breaks_cut_chunks. lia.
Qed.

Section Rows.

Variable term_to_rgb : Z -> list Z -> Z * Z * Z.
Variable parse_escape :
  str -> option color -> option color -> list Z ->
  option color * option color * list Z.

Lemma render_matches_feeds :
  forall (ms : list sgr_match) (fuel : nat) (w : Z) (line : str)
    (last_i line_l : Z) (f : frame) (last_i' line_l' : Z) (f' : frame),
    render_matches term_to_rgb parse_escape fuel w line ms last_i line_l f
    = Done (last_i', line_l', f') ->
    feeds (rd f) (rd f') (line_c f' - line_c f).
Proof.
  induction ms as [|m ms IH]; intros fuel w line last_i line_l f last_i' line_l' f'.
  - cbn [render_matches]. intro H. injection H as _ _ <-.
    rewrite Z.sub_diag. apply feeds_refl.
  - cbn [render_matches].
    destruct (if truthy _ && (last_i =? 0) && (opened (rd f) =? 0) then _ else _)
      as [r1| |] eqn:E1; cbn [bind]; try discriminate.
    apply (keeps_open_if term_to_rgb) in E1. apply keeps_feeds in E1.
    destruct (_wrap_line fuel _ _ w r1) as [[[[nl l1] c1] r2]| |] eqn:E2;
      cbn [bind]; try discriminate.
    apply feeds_wrap in E2.
    set (r4 := if last_i =? 0 then close span false (append (Text c1) r2)
               else append (Text c1) r2).
    assert (K4 : keeps r2 r4).
    { unfold r4. destruct (last_i =? 0).
      - eapply keeps_trans; [apply (keeps_append (Text c1)); reflexivity|].
        apply keeps_close.
      - apply (keeps_append (Text c1)); reflexivity. }
    destruct (parse_escape (m_group m) (cur_fg f) (cur_bg f) (esc_style r4))
      as [[fg bg] sty].
    destruct (open term_to_rgb fg bg (Some (m_group m)) span None
                (close span false (set_esc_style sty r4))) as [r7| |] eqn:E7;
      cbn [bind]; try discriminate.
    apply (keeps_open term_to_rgb) in E7 as (K7 & _).
    intro H. apply IH in H. cbn [rd line_c] in H.
    assert (K : keeps r2 r7).
    { eapply keeps_trans; [exact K4|].
      eapply keeps_trans; [apply (keeps_style sty)|].
      eapply keeps_trans; [apply (keeps_close false)|exact K7]. }
    apply keeps_feeds in K.
    pose proof (feeds_trans _ _ _ _ _ E1
                  (feeds_trans _ _ _ _ _ E2 (feeds_trans _ _ _ _ _ K H))) as F.
    apply (feeds_less _ _ _ _ F). lia.
Qed.

Lemma render_tail_feeds (fuel : nat) (size : Z * Z) (line : str)
  (last_i line_l : Z) (f : frame) (c : str) (f' : frame) :
  render_tail term_to_rgb fuel size line last_i line_l f = Done (c, f') ->
  feeds (rd f) (rd f') (line_c f' - line_c f).
Proof.
  unfold render_tail.
  set (c0 := py_slice line (Some last_i) None).
  assert (Hfirst : forall pad c1 lc r3,
             (if truthy c0 || negb (len c0 =? fst size)
              then
                r <- (if opened (rd f) =? 0
                      then open term_to_rgb (cur_fg f) (cur_bg f) None span None (rd f)
                      else Done (rd f)) ;;
                '(nl, line_l0, c, r) <- _wrap_line fuel c0 (line_l + len c0) (fst size) r ;;
                (if line_c f + nl <? snd size
                 then Done (py_mul (lit " ") (fst size - line_l0), c, line_c f + nl, r)
                 else Done ([], c, line_c f, r))
              else Done ([], c0, line_c f, rd f)) = Done (pad, c1, lc, r3) ->
             feeds (rd f) r3 (lc - line_c f)).
  { intros pad c1 lc r3.
    destruct (truthy c0 || negb (len c0 =? fst size)).
    - destruct (if opened (rd f) =? 0 then _ else _) as [r1| |] eqn:E1;
        cbn [bind]; try discriminate.
      apply (keeps_open_if term_to_rgb) in E1. apply keeps_feeds in E1.
      destruct (_wrap_line fuel c0 _ (fst size) r1) as [[[[nl l1] c2] r2]| |] eqn:E2;
        cbn [bind]; try discriminate.
      pose proof E2 as Hnl. unfold _wrap_line in Hnl.
      apply wrap_loop_keeps in Hnl as (slices & _ & _ & Hnl & _).
      pose proof (len_nonneg slices) as Hs.
      apply feeds_wrap in E2.
      pose proof (feeds_trans _ _ _ _ _ E1 E2) as F.
      destruct (line_c f + nl <? snd size); intro H; injection H as _ _ <- <-;
        apply (feeds_less _ _ _ _ F); lia.
    - intro H. injection H as _ _ <- <-. rewrite Z.sub_diag. apply feeds_refl. }
  destruct (if truthy c0 || negb (len c0 =? fst size) then _ else _)
    as [[[[pad c1] lc] r3]| |] eqn:E; cbn [bind]; try discriminate.
  pose proof (Hfirst _ _ _ _ eq_refl) as F3. clear Hfirst E.
  set (r4 := close span true (append (Text c1) r3)).
  assert (K4 : keeps r3 r4).
  { eapply keeps_trans; [apply (keeps_append (Text c1)); reflexivity|].
    apply keeps_close. }
  destruct (truthy pad).
  - destruct (open term_to_rgb None None None span (Some (lit "ns")) r4)
      as [r5| |] eqn:E5; cbn [bind]; try discriminate.
    apply (keeps_open term_to_rgb) in E5 as (K5 & _).
    intro H. injection H as _ <-. cbn [rd line_c].
    assert (K : keeps r3 (close span false (append (Pad pad) r5))).
    { eapply keeps_trans; [exact K4|]. eapply keeps_trans; [exact K5|].
      eapply keeps_trans; [apply (keeps_append (Pad pad)); reflexivity|].
      apply keeps_close. }
    apply keeps_feeds in K.
    apply (feeds_less _ _ _ _ (feeds_trans _ _ _ _ _ F3 K)). lia.
  - cbn [bind]. intro H. injection H as _ <-. cbn [rd line_c].
    apply keeps_feeds in K4.
    apply (feeds_less _ _ _ _ (feeds_trans _ _ _ _ _ F3 K4)). lia.
Qed.

Lemma render_line_feeds (fuel : nat) (size : Z * Z) (nlines line_i : Z)
  (line : str) (f f' : frame) :
  render_line term_to_rgb parse_escape fuel size nlines line_i line f = Done f' ->
  feeds (rd f) (rd f') (line_c f' - line_c f).
Proof.
  unfold render_line.
  destruct (render_matches term_to_rgb parse_escape fuel (fst size) line
              (finditer line) 0 0 f) as [[[last_i line_l] f1]| |] eqn:E1;
    cbn [bind]; try discriminate.
  apply render_matches_feeds in E1.
  destruct (render_tail term_to_rgb fuel size line last_i line_l f1)
    as [[c f2]| |] eqn:E2; cbn [bind]; try discriminate.
  apply render_tail_feeds in E2.
  pose proof (feeds_trans _ _ _ _ _ E1 E2) as F.
  destruct (truthy c || (line_i <? nlines - 1)); intro H; injection H as <-;
    cbn [rd line_c].
  - apply (feeds_less _ _ _ _ (feeds_trans _ _ _ _ _ F (feeds_break (rd f2)))). lia.
  - apply (feeds_less _ _ _ _ F). lia.
Qed.

Lemma render_lines_feeds :
  forall (lines : list str) (fuel : nat) (size : Z * Z) (nlines line_i : Z)
    (f f' : frame),
    render_lines term_to_rgb parse_escape fuel size nlines line_i lines f = Done f' ->
    feeds (rd f) (rd f') (line_c f' - line_c f).
Proof.
  induction lines as [|line rest IH]; intros fuel size nlines line_i f f'.
  - cbn [render_lines]. intro H. injection H as <-. rewrite Z.sub_diag.
    apply feeds_refl.
  - cbn [render_lines].
    destruct (render_line term_to_rgb parse_escape fuel size nlines line_i line f)
      as [f1| |] eqn:E1; cbn [bind]; try discriminate.
    apply render_line_feeds in E1. intro H. apply IH in H.
    apply (feeds_less _ _ _ _ (feeds_trans _ _ _ _ _ E1 H)). lia.
Qed.

Lemma fill_feeds (size : Z * Z) :
  forall (n : nat) (lc : Z) (r : Renderer),
    feeds r (snd (fill n size lc r)) (Z.min (Z.of_nat n) (snd size - lc)).
Proof.
  induction n as [|n IH]; intros lc r; cbn [fill snd].
  - apply (feeds_less _ _ _ _ (feeds_refl r)). lia.
  - destruct (Z.ltb_spec lc (snd size)); cbn [snd].
    + pose proof (keeps_append (Pad (py_mul (lit " ") (fst size))) r eq_refl eq_refl)
        as K.
      apply keeps_feeds in K.
      pose proof (feeds_trans _ _ _ _ _ K
                    (feeds_trans _ _ _ _ _ (feeds_break _) (IH (lc + 1) _))) as F.
      apply (feeds_less _ _ _ _ F). lia.
    + apply (feeds_less _ _ _ _ (feeds_refl r)). lia.
Qed.

(** X21: whenever [_render] returns, the block it appended has at least
    as many rows ended by a line feed as the pane is high: a text that is
    too long makes the block higher than the pane, and nothing makes it
    lower. *)
Theorem render_at_least_height (fuel : nat) (s : str) (size : Z * Z)
  (r r' : Renderer) :
  _render term_to_rgb parse_escape fuel s size r = Done r' ->
  exists out,
    chunks r' = chunks r ++ out /\ snd size <= len (fst (grid out)).
Proof.
  unfold _render.
  set (r0 := append (Markup (lit "<pre>")) (set_esc_style [] r)).
  destruct (render_lines term_to_rgb parse_escape fuel size
              (len (py_split LF s)) 0 (py_split LF s) (mkFrame None None 0 r0))
    as [f| |] eqn:E; cbn [bind]; try discriminate.
  apply render_lines_feeds in E. cbn [rd line_c] in E. rewrite Z.sub_0_r in E.
  assert (F0 : feeds r r0 0).
  { apply keeps_feeds. eapply keeps_trans; [apply (keeps_style [])|].
    apply (keeps_append (Markup (lit "<pre>"))); reflexivity. }
  intro H.
  assert (F2 : exists r2, feeds (rd f) r2 (snd size - line_c f)
                          /\ r' = append (Markup (lit "</pre>")) r2).
  { destruct (Z.ltb_spec (line_c f) (snd size)).
    - destruct (open term_to_rgb None None None span (Some (lit "ns")) (rd f))
        as [r2| |] eqn:E2; cbn [bind] in H; try discriminate.
      apply (keeps_open term_to_rgb) in E2 as (K2 & _). apply keeps_feeds in K2.
      pose proof (fill_feeds size (Z.to_nat (snd size - line_c f)) (line_c f) r2)
        as F3.
      destruct (fill (Z.to_nat (snd size - line_c f)) size (line_c f) r2) as [lc r3].
      cbn [snd] in F3. cbn [bind] in H. injection H as <-.
      exists (close span true r3). split; [|reflexivity].
      pose proof (keeps_feeds _ _ (keeps_close true r3)) as K3.
      apply (feeds_less _ _ _ _
               (feeds_trans _ _ _ _ _ K2 (feeds_trans _ _ _ _ _ F3 K3))). lia.
    - cbn [bind] in H. injection H as <-. exists (rd f).
      split; [|reflexivity]. apply (feeds_less _ _ _ _ (feeds_refl _)). lia. }
  destruct F2 as (r2 & F2 & ->).
  pose proof (keeps_feeds _ _
                (keeps_append (Markup (lit "</pre>")) r2 eq_refl eq_refl)) as F3.
  destruct (feeds_trans _ _ _ _ _ F0
              (feeds_trans _ _ _ _ _ E (feeds_trans _ _ _ _ _ F2 F3)))
    as (out & Hout & Hb).
  exists out. split; [exact Hout|].
  unfold grid. rewrite grid_rows_breaks. cbn [fst]. change (len (@nil Z)) with 0. lia.
Qed.

End Rows.

Lemma render_at_least_height_witness :
  exists r',
    _render Color.term_to_rgb Color.parse_escape 0
      (lit "a" ++ [LF] ++ lit "b") (5, 1) fresh = Done r'
    /\ exists out,
         chunks r' = chunks fresh ++ out /\ snd (5, 1) <= len (fst (grid out)).
Proof.
  eexists. split; [vm_compute; reflexivity|].
  apply (render_at_least_height Color.term_to_rgb Color.parse_escape 0
           (lit "a" ++ [LF] ++ lit "b") (5, 1) fresh).
  vm_compute. reflexivity.
Defined.
